(** * ExcelService: the reversible spreadsheet-mutation engine

    A shallow embedding of [excelService.ts] (class [ExcelService]): the
    operation dispatcher, the fourteen handlers with the inverses they
    return, the batch executor with its rollback, the bounded undo stack and
    the address predicate [isValidRange].

    The Office.js document (the object reached through [Excel.run]) is not
    part of the repository.  The engine is therefore written over an
    arbitrary host surface ([Host]); a small workbook ([Sheet]) implements
    that surface so that the engine can be run on concrete documents. *)

From Stdlib Require Import ZArith Ascii String List Bool Lia.
From stdpp Require Import base option list strings gmap.

Set Warnings "-register-all".
Open Scope string_scope.
Open Scope list_scope.

(** ** JavaScript values

    [ExcelOperation.value] and [ExcelOperation.options] have type [any]; the
    descriptors arrive as JSON.  Numbers are kept to the integers. *)
Inductive Value : Type :=
  | VUndefined
  | VNull
  | VBool (b : bool)
  | VNum (n : Z)
  | VStr (s : string)
  | VArr (items : list Value)
  | VObj (fields : list (string * Value)).

(** What a [throw] carries: a JavaScript [TypeError] or an error of the
    document surface with its Office.js code. *)
Inductive Error : Type :=
  | TypeError (msg : string)
  | OfficeError (code : string).

Inductive Outcome (A : Type) : Type :=
  | Ok (a : A)
  | Throw (e : Error).
Arguments Ok {A} a.
Arguments Throw {A} e.

(** Truthiness, as used by [if (x)] and [x || y]. *)
Definition truthy (v : Value) : bool :=
  match v with
  | VUndefined | VNull => false
  | VBool b => b
  | VNum n => negb (n =? 0)%Z
  | VStr s => negb (String.eqb s "")
  | VArr _ | VObj _ => true
  end.

(** [a || b] *)
Definition js_or (a b : Value) : Value := if truthy a then a else b.

(** [Array.isArray(v)] *)
Definition isArray (v : Value) : bool :=
  match v with VArr _ => true | _ => false end.

Fixpoint assoc (k : string) (fields : list (string * Value)) : Value :=
  match fields with
  | [] => VUndefined
  | (k', v) :: rest => if String.eqb k k' then v else assoc k rest
  end.

(** [o.p]: reading a property of [undefined] or [null] throws. *)
Definition get_prop (o : Value) (p : string) : Outcome Value :=
  match o with
  | VUndefined => Throw (TypeError ("Cannot read properties of undefined (reading '" ++ p ++ "')"))
  | VNull => Throw (TypeError ("Cannot read properties of null (reading '" ++ p ++ "')"))
  | VObj fields => Ok (assoc p fields)
  | _ => Ok VUndefined
  end.

(** [o?.p] *)
Definition get_prop_opt (o : Value) (p : string) : Value :=
  match o with
  | VObj fields => assoc p fields
  | _ => VUndefined
  end.

(** The own enumerable properties that [Object.assign(target, src)] and
    [{...src}] copy. *)
Definition own_props (src : Value) : list (string * Value) :=
  match src with
  | VObj fields => fields
  | _ => []
  end.

(** ** Actions: state and exceptions

    [Act S A] is a computation over a mutable state [S] that returns an [A]
    or throws; the state survives a throw, as the document and the service
    object do in JavaScript. *)
Definition Act (S A : Type) : Type := S -> Outcome A * S.

Definition ret {S A} (a : A) : Act S A := fun s => (Ok a, s).
Definition throw {S A} (e : Error) : Act S A := fun s => (Throw e, s).
Definition bind {S A B} (m : Act S A) (k : A -> Act S B) : Act S B :=
  fun s => match m s with
           | (Ok a, s') => k a s'
           | (Throw e, s') => (Throw e, s')
           end.
(** [try { m } catch (e) { h e }] *)
Definition try_catch {S A} (m : Act S A) (h : Error -> Act S A) : Act S A :=
  fun s => match m s with
           | (Ok a, s') => (Ok a, s')
           | (Throw e, s') => h e s'
           end.
(** A pure JavaScript step that may throw. *)
Definition js {S A} (o : Outcome A) : Act S A := fun s => (o, s).

Declare Scope act_scope.
Delimit Scope act_scope with act.
Notation "x <- m ;; k" := (bind m (fun x => k))
  (at level 100, m at next level, right associativity) : act_scope.
Notation "m ;; k" := (bind m (fun _ => k))
  (at level 100, right associativity) : act_scope.
Open Scope act_scope.

(** ** Descriptors *)
Record ExcelOperation : Type := {
  type : string;
  target : string;
  value : Value;      (* [VUndefined] when absent *)
  options : Value     (* [VUndefined] when absent *)
}.

Inductive InsertShiftDirection := ShiftDown | ShiftRight.
Inductive DeleteShiftDirection := ShiftUp | ShiftLeft.

(** A line written to the console. *)
Inductive LogEntry : Type :=
  | ConsoleWarn (msg : string)
  | ConsoleError (msg : string) (err : Error).

(** ** The document surface

    One field per Office.js request the service issues.  A field is the
    request together with the [context.sync()] that makes it take effect. *)
Module Office.

Record Host (Doc : Type) : Type := {
  (* worksheet.getRange(t).load(..); sync *)
  load_values : string -> Act Doc Value;
  load_formulas : string -> Act Doc Value;
  load_font : string -> Act Doc Value;
  load_fill : string -> Act Doc Value;
  load_borders : string -> Act Doc Value;
  (* range.values = v / range.formulas = v *)
  set_values : string -> Value -> Act Doc unit;
  set_formulas : string -> Value -> Act Doc unit;
  (* Object.assign(range.format.font, props) and the like *)
  assign_font : string -> list (string * Value) -> Act Doc unit;
  assign_fill : string -> list (string * Value) -> Act Doc unit;
  assign_borders : string -> list (string * Value) -> Act Doc unit;
  set_numberFormat : string -> Value -> Act Doc unit;
  (* range.insert(dir) / range.delete(dir) *)
  range_insert : string -> InsertShiftDirection -> Act Doc unit;
  range_delete : string -> DeleteShiftDirection -> Act Doc unit;
  (* worksheet.charts.add(type, range, "Auto"), then chart.id *)
  charts_add : Value -> string -> Act Doc Value;
  chart_set_title : Value -> Value -> Act Doc unit;
  chart_set_position : Value -> Value -> Value -> Value -> Value -> Act Doc unit;
  chart_delete : Value -> Act Doc unit;
  (* Excel.ConditionalFormatType[key] *)
  ConditionalFormatType : Value -> Value;
  conditionalFormats_add : string -> Value -> Act Doc Value;
  conditionalFormat_set_cellValue : Value -> Value -> Value -> Act Doc unit;
  conditionalFormats_clearAll : string -> Act Doc unit;
  (* range.sort.apply(fields, options.hasHeaders || false) *)
  sort_apply : string -> Value -> Value -> Act Doc unit;
  (* range.autoFilter.apply(range), .filters.getItemAt(i).apply(c), .remove() *)
  autoFilter_apply : string -> Act Doc unit;
  autoFilter_apply_column : string -> Value -> Value -> Act Doc unit;
  autoFilter_remove : string -> Act Doc unit;
  (* worksheet.pivotTables.add(name, source, destination), then pivotTable.id *)
  pivotTables_add : Value -> string -> Value -> Act Doc Value;
  pivot_add_rowHierarchy : Value -> Value -> Act Doc unit;
  pivot_add_dataHierarchy : Value -> Value -> Act Doc unit;
  pivot_delete : Value -> Act Doc unit;
  (* workbook.worksheets *)
  worksheet_set_name : Value -> Value -> Act Doc unit;
  worksheets_add : Value -> Act Doc Value;
  worksheet_set_tabColor : Value -> Value -> Act Doc unit;
  worksheet_delete : Value -> Act Doc unit
}.

Arguments load_values {Doc}.
Arguments load_formulas {Doc}.
Arguments load_font {Doc}.
Arguments load_fill {Doc}.
Arguments load_borders {Doc}.
Arguments set_values {Doc}.
Arguments set_formulas {Doc}.
Arguments assign_font {Doc}.
Arguments assign_fill {Doc}.
Arguments assign_borders {Doc}.
Arguments set_numberFormat {Doc}.
Arguments range_insert {Doc}.
Arguments range_delete {Doc}.
Arguments charts_add {Doc}.
Arguments chart_set_title {Doc}.
Arguments chart_set_position {Doc}.
Arguments chart_delete {Doc}.
Arguments ConditionalFormatType {Doc}.
Arguments conditionalFormats_add {Doc}.
Arguments conditionalFormat_set_cellValue {Doc}.
Arguments conditionalFormats_clearAll {Doc}.
Arguments sort_apply {Doc}.
Arguments autoFilter_apply {Doc}.
Arguments autoFilter_apply_column {Doc}.
Arguments autoFilter_remove {Doc}.
Arguments pivotTables_add {Doc}.
Arguments pivot_add_rowHierarchy {Doc}.
Arguments pivot_add_dataHierarchy {Doc}.
Arguments pivot_delete {Doc}.
Arguments worksheet_set_name {Doc}.
Arguments worksheets_add {Doc}.
Arguments worksheet_set_tabColor {Doc}.
Arguments worksheet_delete {Doc}.

End Office.
Import Office.

(** ** Regular expressions

    The fragment of JavaScript [RegExp] that the service uses: literals,
    character ranges, sequence, alternation and repetition.  [r+] and [r?]
    are the usual abbreviations. *)
Module RegExp.

Inductive Regex : Type :=
  | Void
  | Eps
  | Lit (c : ascii)
  | Range (lo hi : ascii)          (* [lo-hi] *)
  | Alt (r1 r2 : Regex)
  | Seq (r1 r2 : Regex)
  | Star (r : Regex).

Definition Plus (r : Regex) : Regex := Seq r (Star r).   (* r+ *)
Definition Opt (r : Regex) : Regex := Alt r Eps.         (* r? *)

Definition in_range (lo hi c : ascii) : bool :=
  (nat_of_ascii lo <=? nat_of_ascii c)%nat && (nat_of_ascii c <=? nat_of_ascii hi)%nat.

Fixpoint nullable (r : Regex) : bool :=
  match r with
  | Void => false
  | Eps => true
  | Lit _ => false
  | Range _ _ => false
  | Alt r1 r2 => nullable r1 || nullable r2
  | Seq r1 r2 => nullable r1 && nullable r2
  | Star _ => true
  end.

(** What is left of [r] after reading [c]. *)
Fixpoint deriv (c : ascii) (r : Regex) : Regex :=
  match r with
  | Void => Void
  | Eps => Void
  | Lit c' => if Ascii.eqb c c' then Eps else Void
  | Range lo hi => if in_range lo hi c then Eps else Void
  | Alt r1 r2 => Alt (deriv c r1) (deriv c r2)
  | Seq r1 r2 =>
      if nullable r1 then Alt (Seq (deriv c r1) r2) (deriv c r2)
      else Seq (deriv c r1) r2
  | Star r1 => Seq (deriv c r1) (Star r1)
  end.

(** [/^r$/.test(s)]: without the [m] flag the anchors are the two ends of
    the input, so the whole of [s] has to match [r]. *)
Fixpoint test (r : Regex) (s : string) : bool :=
  match s with
  | EmptyString => nullable r
  | String c rest => test (deriv c r) rest
  end.

(** The language of a regular expression. *)
Inductive Matches : Regex -> string -> Prop :=
  | MEps : Matches Eps EmptyString
  | MLit c : Matches (Lit c) (String c EmptyString)
  | MRange lo hi c : in_range lo hi c = true -> Matches (Range lo hi) (String c EmptyString)
  | MAltL r1 r2 s : Matches r1 s -> Matches (Alt r1 r2) s
  | MAltR r1 r2 s : Matches r2 s -> Matches (Alt r1 r2) s
  | MSeq r1 r2 s1 s2 :
      Matches r1 s1 -> Matches r2 s2 -> Matches (Seq r1 r2) (String.append s1 s2)
  | MStar0 r : Matches (Star r) EmptyString
  | MStarS r s1 s2 :
      Matches r s1 -> Matches (Star r) s2 -> Matches (Star r) (String.append s1 s2).

(** Whether some character class or literal of [r] accepts [c]. *)
Fixpoint consumes (c : ascii) (r : Regex) : bool :=
  match r with
  | Void | Eps => false
  | Lit c' => Ascii.eqb c c'
  | Range lo hi => in_range lo hi c
  | Alt r1 r2 | Seq r1 r2 => consumes c r1 || consumes c r2
  | Star r1 => consumes c r1
  end.

End RegExp.

(** ** Strings

    A string is its sequence of bytes.  [String.prototype.toUpperCase] is a
    built-in of the language; on the characters below 128 it is
    [ascii_toUpperCase]. *)
Module JsString.

Definition upper_char (c : ascii) : ascii :=
  if RegExp.in_range "a" "z" c then ascii_of_nat (nat_of_ascii c - 32) else c.

Fixpoint ascii_toUpperCase (s : string) : string :=
  match s with
  | EmptyString => EmptyString
  | String c rest => String (upper_char c) (ascii_toUpperCase rest)
  end.

Fixpoint is_ascii (s : string) : bool :=
  match s with
  | EmptyString => true
  | String c rest => (nat_of_ascii c <? 128)%nat && is_ascii rest
  end.

(** [s.includes(c)] for a single character. *)
Fixpoint includes (c : ascii) (s : string) : bool :=
  match s with
  | EmptyString => false
  | String c' rest => Ascii.eqb c c' || includes c rest
  end.

Fixpoint any_char (p : ascii -> bool) (s : string) : bool :=
  match s with
  | EmptyString => false
  | String c rest => p c || any_char p rest
  end.

Definition is_digit (c : ascii) : bool := RegExp.in_range "0" "9" c.

End JsString.

(** ** The service *)
Module ExcelService.
Section Service.

Context {Doc : Type} (H : Host Doc).

(** [() => Promise<void>]: an inverse acts on the document only. *)
Definition Inverse : Type := Act Doc unit.

(** The service object, the document it talks to and the console. *)
Record State : Type := {
  document : Doc;
  undoStack : list Inverse;    (* last element = top *)
  redoStack : list Inverse;
  console : list LogEntry      (* oldest first *)
}.

Definition maxUndoSteps : nat := 50.

Definition with_document (s : State) (d : Doc) : State :=
  {| document := d; undoStack := undoStack s;
     redoStack := redoStack s; console := console s |}.
Definition with_console (s : State) (c : list LogEntry) : State :=
  {| document := document s; undoStack := undoStack s;
     redoStack := redoStack s; console := c |}.
Definition with_undoStack (s : State) (u : list Inverse) : State :=
  {| document := document s; undoStack := u;
     redoStack := redoStack s; console := console s |}.

(** [Excel.run(...)] from a method of the service. *)
Definition excel_run {A} (m : Act Doc A) : Act State A :=
  fun s => let '(r, d) := m (document s) in (r, with_document s d).

Definition console_log (e : LogEntry) : Act State unit :=
  fun s => (Ok tt, with_console s (console s ++ [e])).

Definition when {S} (c : bool) (m : Act S unit) : Act S unit :=
  if c then m else ret tt.

(** *** Handlers (each returns the inverse of what it did) *)

Definition setCellValue (target : string) (value options : Value) : Act Doc Inverse :=
  originalValues <- load_values H target ;;
  set_values H target (if isArray value then value else VArr [VArr [value]]) ;;
  ret (set_values H target originalValues).

Definition setFormula (target : string) (formula options : Value) : Act Doc Inverse :=
  originalFormulas <- load_formulas H target ;;
  set_formulas H target (VArr [VArr [formula]]) ;;
  ret (set_formulas H target originalFormulas).

Definition formatRange (target : string) (options : Value) : Act Doc Inverse :=
  font <- load_font H target ;;
  fill <- load_fill H target ;;
  borders <- load_borders H target ;;
  let originalFont := own_props font in
  let originalFill := own_props fill in
  let originalBorders := own_props borders in
  o_font <- js (get_prop options "font") ;;
  when (truthy o_font) (assign_font H target (own_props o_font)) ;;
  o_fill <- js (get_prop options "fill") ;;
  when (truthy o_fill) (assign_fill H target (own_props o_fill)) ;;
  o_borders <- js (get_prop options "borders") ;;
  when (truthy o_borders) (assign_borders H target (own_props o_borders)) ;;
  o_numberFormat <- js (get_prop options "numberFormat") ;;
  when (truthy o_numberFormat) (set_numberFormat H target o_numberFormat) ;;
  ret (assign_font H target originalFont ;;
       assign_fill H target originalFill ;;
       assign_borders H target originalBorders).

(** [count] is a parameter of the method; the body never reads it. *)
Definition insertRows (target : string) (count : Value) : Act Doc Inverse :=
  range_insert H target ShiftDown ;;
  ret (range_delete H target ShiftUp).

Definition insertColumns (target : string) (count : Value) : Act Doc Inverse :=
  range_insert H target ShiftRight ;;
  ret (range_delete H target ShiftLeft).

(** [backupData.format] holds the live [range.format] object; the inverse
    never reads it. *)
Definition deleteRows (target : string) : Act Doc Inverse :=
  values <- load_values H target ;;
  formulas <- load_formulas H target ;;
  range_delete H target ShiftUp ;;
  ret (range_insert H target ShiftDown ;;
       set_values H target values ;;
       set_formulas H target formulas).

Definition deleteColumns (target : string) : Act Doc Inverse :=
  values <- load_values H target ;;
  formulas <- load_formulas H target ;;
  range_delete H target ShiftLeft ;;
  ret (range_insert H target ShiftRight ;;
       set_values H target values ;;
       set_formulas H target formulas).

Definition createChart (target : string) (options : Value) : Act Doc Inverse :=
  o_type <- js (get_prop options "type") ;;
  let chartType := js_or o_type (VStr "ColumnClustered") in
  chart <- charts_add H chartType target ;;
  o_title <- js (get_prop options "title") ;;
  when (truthy o_title) (chart_set_title H chart o_title) ;;
  position <- js (get_prop options "position") ;;
  when (truthy position)
    (chart_set_position H chart
       (js_or (get_prop_opt position "left") (VNum 100))
       (js_or (get_prop_opt position "top") (VNum 100))
       (js_or (get_prop_opt position "width") (VNum 400))
       (js_or (get_prop_opt position "height") (VNum 300))) ;;
  let chartId := chart in
  ret (chart_delete H chartId).

Definition is_cellValue (v : Value) : bool :=
  match v with VStr s => String.eqb s "cellValue" | _ => false end.

Definition addConditionalFormatting (target : string) (options : Value) : Act Doc Inverse :=
  o_type <- js (get_prop options "type") ;;
  conditionalFormat <- conditionalFormats_add H target (ConditionalFormatType H o_type) ;;
  when (is_cellValue o_type)
    (conditionalFormat_set_cellValue H conditionalFormat
       (js_or (get_prop_opt options "fillColor") (VStr "red"))
       (get_prop_opt options "rule")) ;;
  ret (conditionalFormats_clearAll H target).

Definition sortRange (target : string) (options : Value) : Act Doc Inverse :=
  originalValues <- load_values H target ;;
  o_fields <- js (get_prop options "fields") ;;
  let sortFields :=
    js_or o_fields (VArr [VObj [("key", VNum 0); ("ascending", VBool true)]]) in
  sort_apply H target sortFields (js_or (get_prop_opt options "hasHeaders") (VBool false)) ;;
  ret (set_values H target originalValues).

(** The requests of one [Excel.run] are queued and sent by [context.sync()];
    a JavaScript exception before the sync discards the queue.  The reads of
    [options] are therefore written before the queued requests. *)
Definition applyFilter (target : string) (options : Value) : Act Doc Inverse :=
  columnIndex <- js (get_prop options "columnIndex") ;;
  let filterCriteria := get_prop_opt options "filterCriteria" in
  autoFilter_apply H target ;;
  when (truthy columnIndex && truthy filterCriteria)
    (autoFilter_apply_column H target columnIndex filterCriteria) ;;
  ret (autoFilter_remove H target).

(** [fields.forEach(...)]: only an array has the method. *)
Definition forEach_items (fields : Value) : Outcome (list Value) :=
  if truthy fields then
    match fields with
    | VArr items => Ok items
    | _ => Throw (TypeError "forEach is not a function")
    end
  else Ok [].

Fixpoint for_each {S A} (items : list A) (body : A -> Act S unit) : Act S unit :=
  match items with
  | [] => ret tt
  | x :: rest => body x ;; for_each rest body
  end.

Definition createPivotTable (target : string) (options : Value) : Act Doc Inverse :=
  o_name <- js (get_prop options "name") ;;
  let destination := js_or (get_prop_opt options "destination") (VStr "H1") in
  rowFields <- js (forEach_items (get_prop_opt options "rowFields")) ;;
  dataFields <- js (forEach_items (get_prop_opt options "dataFields")) ;;
  pivotTable <- pivotTables_add H (js_or o_name (VStr "ManicePivotTable")) target destination ;;
  for_each rowFields (fun field => pivot_add_rowHierarchy H pivotTable field) ;;
  for_each dataFields (fun field => pivot_add_dataHierarchy H pivotTable field) ;;
  let pivotTableId := pivotTable in
  ret (pivot_delete H pivotTableId).

Definition renameSheet (currentName : string) (newName : Value) : Act Doc Inverse :=
  worksheet_set_name H (VStr currentName) newName ;;
  ret (worksheet_set_name H newName (VStr currentName)).

Definition createSheet (name options : Value) : Act Doc Inverse :=
  worksheet <- worksheets_add H name ;;
  let tabColor := get_prop_opt options "tabColor" in
  when (truthy tabColor) (worksheet_set_tabColor H worksheet tabColor) ;;
  ret (worksheet_delete H name).

(** *** Dispatcher *)

Definition unknown_operation (ty : string) : LogEntry :=
  ConsoleWarn ("Unknown operation type: " ++ ty).

(** [case label:] of a [switch]: the labels are compared in order with
    [===]. *)
Definition is_case (ty label : string) : bool := String.eqb ty label.

(** [return this.handler(...)]: the method runs and its inverse is the
    result. *)
Definition handler (m : Act Doc Inverse) : Act State (option Inverse) :=
  undoOp <- excel_run m ;; ret (Some undoOp).

Definition executeOperation (operation : ExcelOperation) : Act State (option Inverse) :=
  let ty := type operation in
  if is_case ty "cell_edit" then
    handler (setCellValue (target operation) (value operation) (options operation))
  else if is_case ty "formula" then
    handler (setFormula (target operation) (value operation) (options operation))
  else if is_case ty "format" then
    handler (formatRange (target operation) (options operation))
  else if is_case ty "insert_row" then
    handler (insertRows (target operation) (js_or (value operation) (VNum 1)))
  else if is_case ty "insert_column" then
    handler (insertColumns (target operation) (js_or (value operation) (VNum 1)))
  else if is_case ty "delete_row" then
    handler (deleteRows (target operation))
  else if is_case ty "delete_column" then
    handler (deleteColumns (target operation))
  else if is_case ty "chart" then
    handler (createChart (target operation) (options operation))
  else if is_case ty "conditional_format" then
    handler (addConditionalFormatting (target operation) (options operation))
  else if is_case ty "sort" then
    handler (sortRange (target operation) (options operation))
  else if is_case ty "filter" then
    handler (applyFilter (target operation) (options operation))
  else if is_case ty "pivot_table" then
    handler (createPivotTable (target operation) (options operation))
  else if is_case ty "sheet_rename" then
    handler (renameSheet (target operation) (value operation))
  else if is_case ty "sheet_create" then
    handler (createSheet (value operation) (options operation))
  else
    (console_log (unknown_operation ty) ;; ret None).

(** The [case] labels of the [switch]. *)
Definition operation_types : list string :=
  [ "cell_edit"; "formula"; "format"; "insert_row"; "insert_column";
    "delete_row"; "delete_column"; "chart"; "conditional_format"; "sort";
    "filter"; "pivot_table"; "sheet_rename"; "sheet_create" ].

Definition recognized (ty : string) : bool :=
  existsb (is_case ty) operation_types.

(** *** Undo history *)

Definition addToUndoStack (undoOperation : Inverse) : Act State unit :=
  fun s =>
    let pushed := undoStack s ++ [undoOperation] in
    let limited :=
      if (maxUndoSteps <? length pushed)%nat then tl pushed else pushed in
    (Ok tt, {| document := document s; undoStack := limited;
               redoStack := []; console := console s |}).

(** [Array.prototype.pop]: the last element, and the array without it. *)
Definition pop {A} (l : list A) : option (A * list A) :=
  match rev l with
  | [] => None
  | x :: r => Some (x, rev r)
  end.

Definition undo : Act State unit :=
  fun s =>
    match pop (undoStack s) with
    | Some (undoOperation, rest) => excel_run undoOperation (with_undoStack s rest)
    | None => (Ok tt, s)
    end.

(** *** Batch executor *)

(** The body of [for (const undoOp of undoOperations) await undoOp()]. *)
Definition composite (undoOperations : list Inverse) : Inverse :=
  for_each undoOperations (fun undoOp => undoOp).

(** The [for] loop of the [try] block.  [undoOperations] is the local array;
    it is returned with the outcome because the [catch] block reads it. *)
Fixpoint run_operations (operations : list ExcelOperation)
    (undoOperations : list Inverse) (s : State)
  : Outcome unit * list Inverse * State :=
  match operations with
  | [] => (Ok tt, undoOperations, s)
  | operation :: rest =>
      match executeOperation operation s with
      | (Ok (Some undoOp), s') => run_operations rest (undoOp :: undoOperations) s'
      | (Ok None, s') => run_operations rest undoOperations s'
      | (Throw e, s') => (Throw e, undoOperations, s')
      end
  end.

(** The loop of the [catch] block: every inverse is tried, a failing one is
    written to the console and the loop goes on. *)
Definition rollback (undoOperations : list Inverse) : Act State unit :=
  for_each undoOperations (fun undoOp =>
    try_catch (excel_run undoOp)
      (fun undoError => console_log (ConsoleError "Failed to undo operation:" undoError))).

Definition executeOperations (operations : list ExcelOperation) : Act State unit :=
  fun s =>
    match run_operations operations [] s with
    | (Ok _, undoOperations, s') =>
        if (0 <? length undoOperations)%nat
        then addToUndoStack (composite undoOperations) s'
        else (Ok tt, s')
    | (Throw error, undoOperations, s') =>
        (console_log (ConsoleError "Failed to execute operations:" error) ;;
         rollback undoOperations ;;
         throw error) s'
    end.

End Service.

(** *** [isValidRange] *)
Section IsValidRange.

Import RegExp.

(** [String.prototype.toUpperCase], a built-in of the language. *)
Variable toUpperCase : string -> string.

(** [/^[A-Z]+[0-9]+(:([A-Z]+[0-9]+)?)?$/] *)
Definition cell_ref : Regex :=
  Seq (Plus (Range "A" "Z")) (Plus (Range "0" "9")).

Definition rangePattern : Regex :=
  Seq (Plus (Range "A" "Z"))
    (Seq (Plus (Range "0" "9"))
       (Opt (Seq (Lit ":") (Opt cell_ref)))).

Definition isValidRange (rangeAddress : string) : Outcome bool :=
  let body : Outcome bool := Ok (test rangePattern (toUpperCase rangeAddress)) in
  match body with
  | Ok b => Ok b
  | Throw _ => Ok false          (* catch { return false; } *)
  end.

End IsValidRange.

End ExcelService.

(** ** A workbook

    An implementation of the document surface, used to run the engine on
    concrete documents: worksheets of cells addressed in A1 notation, with
    per-cell formats, charts, pivot tables and conditional formats.  A cell
    holds what was entered into it (a constant or the text of a formula);
    its value is what the recalculation engine [evaluate] makes of that
    content. *)
Module Sheet.

(** *** A1 addresses *)

Definition is_upper (c : ascii) : bool := RegExp.in_range "A" "Z" c.
Definition is_lower (c : ascii) : bool := RegExp.in_range "a" "z" c.
Definition is_letter (c : ascii) : bool := is_upper c || is_lower c.
Definition is_digit (c : ascii) : bool := RegExp.in_range "0" "9" c.

Fixpoint take_while (p : ascii -> bool) (l : list ascii) : list ascii * list ascii :=
  match l with
  | c :: rest =>
      if p c then let '(a, b) := take_while p rest in (c :: a, b) else ([], l)
  | [] => ([], [])
  end.

Definition letter_value (c : ascii) : nat :=
  if is_upper c then nat_of_ascii c - 64 else nat_of_ascii c - 96.

(** "A" is column 1, "Z" is 26, "AA" is 27. *)
Definition column_number (letters : list ascii) : nat :=
  fold_left (fun acc c => acc * 26 + letter_value c) letters 0.

Definition row_number (digits : list ascii) : nat :=
  fold_left (fun acc c => acc * 10 + (nat_of_ascii c - 48)) digits 0.

(** A rectangle of cells: first row, first column, number of rows and of
    columns. *)
Record Rect : Type := {
  top : nat;
  left : nat;
  height : nat;
  width : nat
}.

Definition span (r1 c1 r2 c2 : nat) : Rect :=
  {| top := Nat.min r1 r2; left := Nat.min c1 c2;
     height := S (Nat.max r1 r2 - Nat.min r1 r2);
     width := S (Nat.max c1 c2 - Nat.min c1 c2) |}.

(** A worksheet has 1,048,576 rows and 16,384 columns. *)
Definition max_rows : nat := 2 ^ 20.
Definition max_columns : nat := 2 ^ 14.

Definition valid_row (r : nat) : bool := (1 <=? r)%nat && (r <=? max_rows)%nat.
Definition valid_column (c : nat) : bool := (1 <=? c)%nat && (c <=? max_columns)%nat.

(** The qualifier and the reference of an address: "Sheet1!A1" is the
    reference "A1" qualified by "Sheet1".  The last "!" separates them. *)
Fixpoint qualified (l : list ascii) : option (list ascii) * list ascii :=
  match l with
  | [] => (None, [])
  | c :: rest =>
      match qualified rest with
      | (Some q, ref) => (Some (c :: q), ref)
      | (None, ref) => if Ascii.eqb c "!" then (Some [], ref) else (None, c :: ref)
      end
  end.

(** A qualifier may be written between single quotes. *)
Definition unquote (q : list ascii) : list ascii :=
  match q with
  | "'"%char :: rest =>
      match rev rest with
      | "'"%char :: inner => rev inner
      | _ => q
      end
  | _ => q
  end.

Definition qualifier (address : string) : option string :=
  option_map (fun q => string_of_list_ascii (unquote q))
    (fst (qualified (list_ascii_of_string address))).

Definition reference (address : string) : list ascii :=
  snd (qualified (list_ascii_of_string address)).

(** The absolute marker "$" makes no difference to the cells meant. *)
Definition skip_dollar (l : list ascii) : list ascii :=
  match l with
  | "$"%char :: rest => rest
  | _ => l
  end.

(** The column letters at the head of [l], when there are some. *)
Definition parse_column (l : list ascii) : option nat * list ascii :=
  let '(letters, rest) := take_while is_letter (skip_dollar l) in
  match letters with
  | [] => (None, l)
  | _ :: _ => (Some (column_number letters), rest)
  end.

(** The row digits at the head of [l], when there are some. *)
Definition parse_row (l : list ascii) : option nat * list ascii :=
  let '(digits, rest) := take_while is_digit (skip_dollar l) in
  match digits with
  | [] => (None, l)
  | _ :: _ => (Some (row_number digits), rest)
  end.

(** One end of a reference: a cell ("B2", "$B$2"), a column ("B") or a
    row ("2"). *)
Definition parse_end (l : list ascii) : option nat * option nat * list ascii :=
  let '(column, rest) := parse_column l in
  let '(row, rest') := parse_row rest in
  (column, row, rest').

(** The cells between two ends: two cells ("A1:C3"), two columns ("A:C",
    every row of them) or two rows ("3:4", every column of them). *)
Definition between (e1 e2 : option nat * option nat) : option Rect :=
  match e1, e2 with
  | (Some c1, Some r1), (Some c2, Some r2) =>
      if valid_column c1 && valid_row r1 && valid_column c2 && valid_row r2
      then Some (span r1 c1 r2 c2) else None
  | (Some c1, None), (Some c2, None) =>
      if valid_column c1 && valid_column c2
      then Some (span 1 c1 max_rows c2) else None
  | (None, Some r1), (None, Some r2) =>
      if valid_row r1 && valid_row r2
      then Some (span r1 1 r2 max_columns) else None
  | _, _ => None
  end.

(** The cells that the reference of an address means: a cell ("B2"), or
    what lies between two ends. *)
Definition parse_address (address : string) : option Rect :=
  match parse_end (reference address) with
  | (Some c, Some r, []) => between (Some c, Some r) (Some c, Some r)
  | (c1, r1, ":"%char :: rest) =>
      match parse_end rest with
      | (c2, r2, []) => between (c1, r1) (c2, r2)
      | _ => None
      end
  | _ => None
  end.

(** [worksheet.getRange(address)] on the worksheet named [sheet]: a
    qualifier has to name the worksheet itself. *)
Definition resolve (sheet : string) (address : string) : option Rect :=
  match qualifier address with
  | Some q => if String.eqb q sheet then parse_address address else None
  | None => parse_address address
  end.

Definition rows_of (a : Rect) : list nat := seq (top a) (height a).
Definition columns_of (a : Rect) : list nat := seq (left a) (width a).

Definition inside (a : Rect) (p : nat * nat) : bool :=
  (top a <=? fst p)%nat && (fst p <? top a + height a)%nat &&
  (left a <=? snd p)%nat && (snd p <? left a + width a)%nat.

Definition overlaps (a b : Rect) : bool :=
  (top a <? top b + height b)%nat && (top b <? top a + height a)%nat &&
  (left a <? left b + width b)%nat && (left b <? left a + width a)%nat.

(** *** Cells *)

(** What a cell can hold. *)
Definition storable (v : Value) : bool :=
  match v with
  | VBool _ | VNum _ | VStr _ => true
  | _ => false
  end.

Definition content (cells : gmap (nat * nat) Value) (p : nat * nat) : Value :=
  default (VStr "") (cells !! p).

(** Writing the empty string clears the cell. *)
Definition put_cell (p : nat * nat) (v : Value) (cells : gmap (nat * nat) Value)
  : gmap (nat * nat) Value :=
  match v with
  | VStr "" => delete p cells
  | _ => <[p := v]> cells
  end.

Fixpoint put_row (r c : nat) (vs : list Value) (cells : gmap (nat * nat) Value)
  : gmap (nat * nat) Value :=
  match vs with
  | [] => cells
  | v :: rest => put_row r (S c) rest (put_cell (r, c) v cells)
  end.

Fixpoint put_grid (r c : nat) (rows : list (list Value)) (cells : gmap (nat * nat) Value)
  : gmap (nat * nat) Value :=
  match rows with
  | [] => cells
  | row :: rest => put_grid (S r) c rest (put_row r c row cells)
  end.

Definition get_grid (a : Rect) (cells : gmap (nat * nat) Value) : list (list Value) :=
  map (fun r => map (fun c => content cells (r, c)) (columns_of a)) (rows_of a).

(** A JavaScript array of arrays with exactly [h] rows of [w] storable
    values each; anything else is refused by the range. *)
Definition as_row (w : nat) (v : Value) : option (list Value) :=
  match v with
  | VArr items =>
      if (length items =? w)%nat && forallb storable items then Some items else None
  | _ => None
  end.

Fixpoint as_rows (w : nat) (vs : list Value) : option (list (list Value)) :=
  match vs with
  | [] => Some []
  | v :: rest =>
      match as_row w v, as_rows w rest with
      | Some row, Some rows => Some (row :: rows)
      | _, _ => None
      end
  end.

Definition as_grid (a : Rect) (v : Value) : option (list (list Value)) :=
  match v with
  | VArr rows =>
      if (length rows =? height a)%nat then as_rows (width a) rows else None
  | _ => None
  end.

Definition of_grid (g : list (list Value)) : Value := VArr (map VArr g).

(** Moving cells: [f p] is where the cell at [p] goes, or [None] when it is
    removed. *)
Definition rekey {A} (f : nat * nat -> option (nat * nat)) (m : gmap (nat * nat) A)
  : gmap (nat * nat) A :=
  list_to_map (omap (fun kv => (fun k => (k, snd kv)) <$> f (fst kv)) (map_to_list m)).

Definition in_columns (a : Rect) (p : nat * nat) : bool :=
  (left a <=? snd p)%nat && (snd p <? left a + width a)%nat.
Definition in_rows (a : Rect) (p : nat * nat) : bool :=
  (top a <=? fst p)%nat && (fst p <? top a + height a)%nat.

Definition shift_insert (dir : InsertShiftDirection) (a : Rect) (p : nat * nat)
  : option (nat * nat) :=
  match dir with
  | ShiftDown =>
      if in_columns a p && (top a <=? fst p)%nat
      then Some (fst p + height a, snd p) else Some p
  | ShiftRight =>
      if in_rows a p && (left a <=? snd p)%nat
      then Some (fst p, snd p + width a) else Some p
  end.

Definition shift_delete (dir : DeleteShiftDirection) (a : Rect) (p : nat * nat)
  : option (nat * nat) :=
  if inside a p then None else
  match dir with
  | ShiftUp =>
      if in_columns a p && (top a <=? fst p)%nat
      then Some (fst p - height a, snd p) else Some p
  | ShiftLeft =>
      if in_rows a p && (left a <=? snd p)%nat
      then Some (fst p, snd p - width a) else Some p
  end.

(** *** Formats *)

Record CellFormat : Type := {
  font : list (string * Value);
  fill : list (string * Value);
  borders : list (string * Value);
  numberFormat : Value
}.

Definition default_format : CellFormat :=
  {| font := [("bold", VBool false); ("color", VStr "#000000"); ("italic", VBool false);
              ("name", VStr "Calibri"); ("size", VNum 11); ("underline", VStr "None")];
     fill := [("color", VStr "#FFFFFF")];
     borders := [];
     numberFormat := VStr "General" |}.

Definition format_at (formats : gmap (nat * nat) CellFormat) (p : nat * nat) : CellFormat :=
  default default_format (formats !! p).

Fixpoint set_prop (k : string) (v : Value) (bag : list (string * Value))
  : list (string * Value) :=
  match bag with
  | [] => [(k, v)]
  | (k', v') :: rest =>
      if String.eqb k k' then (k, v) :: rest else (k', v') :: set_prop k v rest
  end.

(** [Object.assign(bag, props)] *)
Definition assign (props bag : list (string * Value)) : list (string * Value) :=
  fold_left (fun b kv => set_prop (fst kv) (snd kv) b) props bag.

Fixpoint value_eqb (a b : Value) {struct a} : bool :=
  match a, b with
  | VUndefined, VUndefined => true
  | VNull, VNull => true
  | VBool x, VBool y => Bool.eqb x y
  | VNum x, VNum y => (x =? y)%Z
  | VStr x, VStr y => String.eqb x y
  | VArr xs, VArr ys =>
      (fix all2 (xs ys : list Value) : bool :=
         match xs, ys with
         | [], [] => true
         | x :: xs', y :: ys' => value_eqb x y && all2 xs' ys'
         | _, _ => false
         end) xs ys
  | VObj xs, VObj ys =>
      (fix all2 (xs ys : list (string * Value)) : bool :=
         match xs, ys with
         | [], [] => true
         | (k, x) :: xs', (k', y) :: ys' => String.eqb k k' && value_eqb x y && all2 xs' ys'
         | _, _ => false
         end) xs ys
  | _, _ => false
  end.

Definition cells_of (a : Rect) : list (nat * nat) :=
  flat_map (fun r => map (fun c => (r, c)) (columns_of a)) (rows_of a).

Definition update_formats (a : Rect) (f : CellFormat -> CellFormat)
    (formats : gmap (nat * nat) CellFormat) : gmap (nat * nat) CellFormat :=
  fold_left (fun m p => <[p := f (format_at m p)]> m) (cells_of a) formats.

(** *** Worksheets *)

Record Chart : Type := {
  chart_id : nat;
  chart_type : Value;
  chart_source : Rect;
  chart_title : Value;
  chart_position : option (Value * Value * Value * Value)
}.

Record PivotTable : Type := {
  pivot_id : nat;
  pivot_name : string;
  pivot_source : Rect;
  pivot_destination : Rect;
  rowHierarchies : list string;
  dataHierarchies : list string
}.

Record ConditionalFormat : Type := {
  cf_id : nat;
  cf_range : Rect;
  cf_type : string;
  cf_fillColor : Value;
  cf_rule : Value
}.

Record Worksheet : Type := {
  sheet_id : nat;
  name : string;
  tabColor : Value;
  cells : gmap (nat * nat) Value;
  formats : gmap (nat * nat) CellFormat;
  charts : list Chart;
  pivotTables : list PivotTable;
  conditionalFormats : list ConditionalFormat
}.

Record Workbook : Type := {
  worksheets : list Worksheet;
  active : nat;          (* the [sheet_id] of the active worksheet *)
  next_id : nat          (* the next identifier the workbook hands out *)
}.

Definition with_cells (ws : Worksheet) (c : gmap (nat * nat) Value) : Worksheet :=
  {| sheet_id := sheet_id ws; name := name ws; tabColor := tabColor ws;
     cells := c; formats := formats ws; charts := charts ws;
     pivotTables := pivotTables ws; conditionalFormats := conditionalFormats ws |}.
Definition with_formats (ws : Worksheet) (f : gmap (nat * nat) CellFormat) : Worksheet :=
  {| sheet_id := sheet_id ws; name := name ws; tabColor := tabColor ws;
     cells := cells ws; formats := f; charts := charts ws;
     pivotTables := pivotTables ws; conditionalFormats := conditionalFormats ws |}.
Definition with_charts (ws : Worksheet) (c : list Chart) : Worksheet :=
  {| sheet_id := sheet_id ws; name := name ws; tabColor := tabColor ws;
     cells := cells ws; formats := formats ws; charts := c;
     pivotTables := pivotTables ws; conditionalFormats := conditionalFormats ws |}.
Definition with_pivotTables (ws : Worksheet) (p : list PivotTable) : Worksheet :=
  {| sheet_id := sheet_id ws; name := name ws; tabColor := tabColor ws;
     cells := cells ws; formats := formats ws; charts := charts ws;
     pivotTables := p; conditionalFormats := conditionalFormats ws |}.
Definition with_conditionalFormats (ws : Worksheet) (c : list ConditionalFormat) : Worksheet :=
  {| sheet_id := sheet_id ws; name := name ws; tabColor := tabColor ws;
     cells := cells ws; formats := formats ws; charts := charts ws;
     pivotTables := pivotTables ws; conditionalFormats := c |}.
Definition with_name (ws : Worksheet) (n : string) : Worksheet :=
  {| sheet_id := sheet_id ws; name := n; tabColor := tabColor ws;
     cells := cells ws; formats := formats ws; charts := charts ws;
     pivotTables := pivotTables ws; conditionalFormats := conditionalFormats ws |}.
Definition with_tabColor (ws : Worksheet) (c : Value) : Worksheet :=
  {| sheet_id := sheet_id ws; name := name ws; tabColor := c;
     cells := cells ws; formats := formats ws; charts := charts ws;
     pivotTables := pivotTables ws; conditionalFormats := conditionalFormats ws |}.

Definition blank_sheet (id : nat) (n : string) : Worksheet :=
  {| sheet_id := id; name := n; tabColor := VStr "";
     cells := ∅; formats := ∅; charts := []; pivotTables := [];
     conditionalFormats := [] |}.

(** [workbook.worksheets.getActiveWorksheet()] *)
Definition getActiveWorksheet (wb : Workbook) : option Worksheet :=
  find (fun ws => (sheet_id ws =? active wb)%nat) (worksheets wb).

(** [workbook.worksheets.getItem(key)] *)
Definition getItem (key : Value) (wb : Workbook) : option Worksheet :=
  match key with
  | VStr n => find (fun ws => String.eqb (name ws) n) (worksheets wb)
  | _ => None
  end.

Definition put_sheet (ws : Worksheet) (wb : Workbook) : Workbook :=
  {| worksheets :=
       map (fun ws' => if (sheet_id ws' =? sheet_id ws)%nat then ws else ws') (worksheets wb);
     active := active wb; next_id := next_id wb |}.

Definition InvalidArgument : Error := OfficeError "InvalidArgument".
Definition ItemNotFound : Error := OfficeError "ItemNotFound".
Definition ItemAlreadyExists : Error := OfficeError "ItemAlreadyExists".
Definition GeneralException : Error := OfficeError "GeneralException".

(** A request on the active worksheet: it either answers and leaves a new
    worksheet, or is rejected and leaves the workbook as it was. *)
Definition on_sheet {A} (f : Worksheet -> Workbook -> Outcome (A * Worksheet * nat))
  : Act Workbook A :=
  fun wb =>
    match getActiveWorksheet wb with
    | None => (Throw GeneralException, wb)
    | Some ws =>
        match f ws wb with
        | Ok (x, ws', n) =>
            (Ok x, {| worksheets := worksheets (put_sheet ws' wb);
                      active := active wb; next_id := n |})
        | Throw e => (Throw e, wb)
        end
    end.

(** A request on [getActiveWorksheet().getRange(address)]. *)
Definition on_range {A} (address : string) (f : Rect -> Worksheet -> Outcome (A * Worksheet))
  : Act Workbook A :=
  on_sheet (fun ws wb =>
    match resolve (name ws) address with
    | None => Throw InvalidArgument
    | Some a =>
        match f a ws with
        | Ok (x, ws') => Ok (x, ws', next_id wb)
        | Throw e => Throw e
        end
    end).

(** Loading properties of [getActiveWorksheet().getRange(address)]: the
    workbook stays as it is. *)
Definition read_range {A} (address : string) (f : Rect -> Worksheet -> A) : Act Workbook A :=
  fun wb =>
    match getActiveWorksheet wb with
    | None => (Throw GeneralException, wb)
    | Some ws =>
        match resolve (name ws) address with
        | None => (Throw InvalidArgument, wb)
        | Some a => (Ok (f a ws), wb)
        end
    end.

(** Every cell of the worksheet holds a value that a cell can hold. *)
Definition cells_storable (ws : Worksheet) : bool :=
  forallb (fun kv => storable (snd kv)) (map_to_list (cells ws)).

(** The identifiers in use on the worksheets are ones the workbook has
    handed out. *)
Definition ids_issued (wb : Workbook) : bool :=
  forallb (fun ws =>
             forallb (fun c => (chart_id c <? next_id wb)%nat) (charts ws) &&
             forallb (fun p => (pivot_id p <? next_id wb)%nat) (pivotTables ws))
          (worksheets wb).

(** *** The requests *)
Section Surface.

(** The recalculation engine: the value of a cell from its content. *)
Variable evaluate : Value -> Value.

Definition load_values (address : string) : Act Workbook Value :=
  read_range address (fun a ws => of_grid (map (map evaluate) (get_grid a (cells ws)))).

Definition load_formulas (address : string) : Act Workbook Value :=
  read_range address (fun a ws => of_grid (get_grid a (cells ws))).

(** [range.format.font] (and [fill], [borders]) after [load] and [sync]:
    an Office.js proxy.  The properties that were loaded are accessors
    that the proxy inherits from its class, not properties of its own, so
    that [{...proxy}] and [Object.assign(target, proxy)] copy none of
    them. *)
Definition proxy : Value := VObj [].

Definition load_format (address : string) : Act Workbook Value :=
  read_range address (fun a ws => proxy).

(** [range.values = v] and [range.formulas = v] both replace what the cells
    hold. *)
Definition set_content (address : string) (v : Value) : Act Workbook unit :=
  on_range address (fun a ws =>
    match as_grid a v with
    | Some g => Ok (tt, with_cells ws (put_grid (top a) (left a) g (cells ws)))
    | None => Throw InvalidArgument
    end).

Definition set_format (address : string) (f : CellFormat -> CellFormat) : Act Workbook unit :=
  on_range address (fun a ws => Ok (tt, with_formats ws (update_formats a f (formats ws)))).

(** [Object.assign(range.format.font, props)]: each property that is
    copied is a request to set it; when there is none to copy, nothing is
    asked of the workbook. *)
Definition assign_format (address : string) (props : list (string * Value))
    (f : CellFormat -> CellFormat) : Act Workbook unit :=
  match props with
  | [] => ret tt
  | _ :: _ => set_format address f
  end.

Definition assign_font (address : string) (props : list (string * Value)) :=
  assign_format address props (fun f =>
    {| font := assign props (font f); fill := fill f; borders := borders f;
       numberFormat := numberFormat f |}).
Definition assign_fill (address : string) (props : list (string * Value)) :=
  assign_format address props (fun f =>
    {| font := font f; fill := assign props (fill f); borders := borders f;
       numberFormat := numberFormat f |}).
Definition assign_borders (address : string) (props : list (string * Value)) :=
  assign_format address props (fun f =>
    {| font := font f; fill := fill f; borders := assign props (borders f);
       numberFormat := numberFormat f |}).

Definition set_numberFormat (address : string) (v : Value) : Act Workbook unit :=
  match v with
  | VStr _ =>
      set_format address (fun f =>
        {| font := font f; fill := fill f; borders := borders f; numberFormat := v |})
  | _ => throw InvalidArgument
  end.

Definition range_insert (address : string) (dir : InsertShiftDirection) : Act Workbook unit :=
  on_range address (fun a ws =>
    Ok (tt, with_formats (with_cells ws (rekey (shift_insert dir a) (cells ws)))
              (rekey (shift_insert dir a) (formats ws)))).

Definition range_delete (address : string) (dir : DeleteShiftDirection) : Act Workbook unit :=
  on_range address (fun a ws =>
    Ok (tt, with_formats (with_cells ws (rekey (shift_delete dir a) (cells ws)))
              (rekey (shift_delete dir a) (formats ws)))).

(** Identifiers are handed out as numbers. *)
Definition handle (id : nat) : Value := VNum (Z.of_nat id).
Definition as_id (h : Value) : option nat :=
  match h with
  | VNum z => if (0 <=? z)%Z then Some (Z.to_nat z) else None
  | _ => None
  end.

Definition charts_add (ty : Value) (address : string) : Act Workbook Value :=
  on_sheet (fun ws wb =>
    match ty, resolve (name ws) address with
    | VStr _, Some a =>
        Ok (handle (next_id wb),
            with_charts ws
              (charts ws ++ [{| chart_id := next_id wb; chart_type := ty; chart_source := a;
                                chart_title := VUndefined; chart_position := None |}]),
            S (next_id wb))
    | _, _ => Throw InvalidArgument
    end).

Definition has_chart (id : nat) (ws : Worksheet) : bool :=
  existsb (fun c => (chart_id c =? id)%nat) (charts ws).

Definition on_chart (h : Value) (f : Chart -> option Chart) : Act Workbook unit :=
  on_sheet (fun ws wb =>
    match as_id h with
    | Some id =>
        if has_chart id ws then
          Ok (tt,
              with_charts ws
                (omap (fun c => if (chart_id c =? id)%nat then f c else Some c) (charts ws)),
              next_id wb)
        else Throw ItemNotFound
    | None => Throw ItemNotFound
    end).

Definition chart_set_title (h title : Value) : Act Workbook unit :=
  on_chart h (fun c =>
    Some {| chart_id := chart_id c; chart_type := chart_type c;
            chart_source := chart_source c; chart_title := title;
            chart_position := chart_position c |}).

Definition chart_set_position (h l t w ht : Value) : Act Workbook unit :=
  on_chart h (fun c =>
    Some {| chart_id := chart_id c; chart_type := chart_type c;
            chart_source := chart_source c; chart_title := chart_title c;
            chart_position := Some (l, t, w, ht) |}).

(** [charts.getItem(id).delete()] *)
Definition chart_delete (h : Value) : Act Workbook unit :=
  on_chart h (fun _ => None).

(** [Excel.ConditionalFormatType] *)
Definition ConditionalFormatType (key : Value) : Value :=
  match key with
  | VStr k =>
      assoc k [("custom", VStr "Custom"); ("dataBar", VStr "DataBar");
               ("colorScale", VStr "ColorScale"); ("iconSet", VStr "IconSet");
               ("topBottom", VStr "TopBottom"); ("presetCriteria", VStr "PresetCriteria");
               ("containsText", VStr "ContainsText"); ("cellValue", VStr "CellValue")]
  | _ => VUndefined
  end.

Definition conditionalFormats_add (address : string) (ty : Value) : Act Workbook Value :=
  on_sheet (fun ws wb =>
    match ty, resolve (name ws) address with
    | VStr t, Some a =>
        Ok (handle (next_id wb),
            with_conditionalFormats ws
              (conditionalFormats ws ++
                 [{| cf_id := next_id wb; cf_range := a; cf_type := t;
                     cf_fillColor := VUndefined; cf_rule := VUndefined |}]),
            S (next_id wb))
    | _, _ => Throw InvalidArgument
    end).

Definition conditionalFormat_set_cellValue (h color rule : Value) : Act Workbook unit :=
  on_sheet (fun ws wb =>
    match as_id h with
    | Some id =>
        if existsb (fun c => (cf_id c =? id)%nat && String.eqb (cf_type c) "CellValue")
             (conditionalFormats ws)
        then
          Ok (tt,
              with_conditionalFormats ws
                (map (fun c =>
                        if (cf_id c =? id)%nat then
                          {| cf_id := cf_id c; cf_range := cf_range c; cf_type := cf_type c;
                             cf_fillColor := color; cf_rule := rule |}
                        else c)
                     (conditionalFormats ws)),
              next_id wb)
        else Throw InvalidArgument
    | None => Throw ItemNotFound
    end).

(** [range.conditionalFormats.clearAll()]: every conditional format that
    is active on the range goes. *)
Definition conditionalFormats_clearAll (address : string) : Act Workbook unit :=
  on_range address (fun a ws =>
    Ok (tt,
        with_conditionalFormats ws
          (filter (fun c => negb (overlaps a (cf_range c))) (conditionalFormats ws)))).

(** Sort order of cell values: numbers, then text, then booleans, then
    blanks. *)
Definition rank (v : Value) : nat :=
  match v with
  | VNum _ => 0
  | VStr "" => 3
  | VStr _ => 1
  | VBool _ => 2
  | _ => 4
  end.

(** Text is compared without regard to case unless the case is to be
    matched. *)
Definition text_leb (matchCase : bool) (x y : string) : bool :=
  if matchCase then String.leb x y
  else String.leb (JsString.ascii_toUpperCase x) (JsString.ascii_toUpperCase y).

Definition value_leb (matchCase : bool) (a b : Value) : bool :=
  if (rank a =? rank b)%nat then
    match a, b with
    | VNum x, VNum y => (x <=? y)%Z
    | VStr x, VStr y => text_leb matchCase x y
    | VBool x, VBool y => implb x y
    | _, _ => true
    end
  else (rank a <? rank b)%nat.

Fixpoint insert_sorted {A} (le : A -> A -> bool) (x : A) (l : list A) : list A :=
  match l with
  | [] => [x]
  | y :: rest => if le x y then x :: l else y :: insert_sorted le x rest
  end.

(** A stable sort. *)
Definition sort_by {A} (le : A -> A -> bool) (l : list A) : list A :=
  fold_right (insert_sorted le) [] l.

(** One entry of the [fields] argument: [{ key, ascending }]. *)
Definition sort_field (w : nat) (f : Value) : option (nat * bool) :=
  match get_prop_opt f "key" with
  | VNum k =>
      if (0 <=? k)%Z && (Z.to_nat k <? w)%nat
      then Some (Z.to_nat k,
                 match get_prop_opt f "ascending" with VBool b => b | _ => true end)
      else None
  | _ => None
  end.

Fixpoint sort_fields (w : nat) (fs : list Value) : option (list (nat * bool)) :=
  match fs with
  | [] => Some []
  | f :: rest =>
      match sort_field w f, sort_fields w rest with
      | Some x, Some xs => Some (x :: xs)
      | _, _ => None
      end
  end.

Definition row_leb (matchCase : bool) (field : nat * bool) (r1 r2 : list Value) : bool :=
  let a := evaluate (nth (fst field) r1 (VStr "")) in
  let b := evaluate (nth (fst field) r2 (VStr "")) in
  if snd field then value_leb matchCase a b else value_leb matchCase b a.

(** The first field is the major key. *)
Definition sort_rows (matchCase : bool) (fields : list (nat * bool))
    (rows : list (list Value)) : list (list Value) :=
  fold_right (fun f rs => sort_by (row_leb matchCase f) rs) rows fields.

(** [range.sort.apply(fields, matchCase)]: the second argument says
    whether the case of text counts.  Whether the range has a header row
    is said by a third argument; without it every row of the range is
    sorted. *)
Definition sort_apply (address : string) (fields matchCase : Value) : Act Workbook unit :=
  on_range address (fun a ws =>
    match fields with
    | VArr fs =>
        match sort_fields (width a) fs with
        | Some keys =>
            let sorted := sort_rows (truthy matchCase) keys (get_grid a (cells ws)) in
            Ok (tt, with_cells ws (put_grid (top a) (left a) sorted (cells ws)))
        | None => Throw InvalidArgument
        end
    | _ => Throw InvalidArgument
    end).

(** [range.autoFilter]: a range has no such member (the auto-filter
    belongs to the worksheet), so the expression is [undefined] and reading
    a member of it throws, before anything is asked of the workbook. *)
Definition no_autoFilter {A} (member : string) : Act Workbook A :=
  throw (TypeError ("Cannot read properties of undefined (reading '" ++ member ++ "')")).

Definition autoFilter_apply (address : string) : Act Workbook unit :=
  no_autoFilter "apply".

Definition autoFilter_apply_column (address : string) (columnIndex filterCriteria : Value)
  : Act Workbook unit :=
  no_autoFilter "filters".

Definition autoFilter_remove (address : string) : Act Workbook unit :=
  no_autoFilter "remove".

(** The column headers of a pivot source: the values of its first row. *)
Definition headers (a : Rect) (ws : Worksheet) : list Value :=
  map (fun c => evaluate (content (cells ws) (top a, c))) (columns_of a).

Definition is_header (field : Value) (a : Rect) (ws : Worksheet) : option string :=
  match field with
  | VStr f => if existsb (value_eqb field) (headers a ws) then Some f else None
  | _ => None
  end.

Definition pivotTables_add (n : Value) (source : string) (destination : Value)
  : Act Workbook Value :=
  on_sheet (fun ws wb =>
    match n, resolve (name ws) source, destination with
    | VStr pn, Some src, VStr d =>
        match resolve (name ws) d with
        | Some dst =>
            if existsb (fun p => String.eqb (pivot_name p) pn) (pivotTables ws)
            then Throw ItemAlreadyExists
            else
              Ok (handle (next_id wb),
                  with_pivotTables ws
                    (pivotTables ws ++
                       [{| pivot_id := next_id wb; pivot_name := pn; pivot_source := src;
                           pivot_destination := dst; rowHierarchies := [];
                           dataHierarchies := [] |}]),
                  S (next_id wb))
        | None => Throw InvalidArgument
        end
    | _, _, _ => Throw InvalidArgument
    end).

Definition on_pivot (h : Value) (f : Worksheet -> PivotTable -> Outcome (option PivotTable))
  : Act Workbook unit :=
  on_sheet (fun ws wb =>
    match as_id h with
    | Some id =>
        match find (fun p => (pivot_id p =? id)%nat) (pivotTables ws) with
        | Some p =>
            match f ws p with
            | Ok p' =>
                Ok (tt,
                    with_pivotTables ws
                      (omap (fun q => if (pivot_id q =? id)%nat then p' else Some q)
                         (pivotTables ws)),
                    next_id wb)
            | Throw e => Throw e
            end
        | None => Throw ItemNotFound
        end
    | None => Throw ItemNotFound
    end).

(** [pivotTable.rowHierarchies.add(pivotTable.hierarchies.getItem(field))] *)
Definition pivot_add_rowHierarchy (h field : Value) : Act Workbook unit :=
  on_pivot h (fun ws p =>
    match is_header field (pivot_source p) ws with
    | Some f =>
        Ok (Some {| pivot_id := pivot_id p; pivot_name := pivot_name p;
                    pivot_source := pivot_source p;
                    pivot_destination := pivot_destination p;
                    rowHierarchies := rowHierarchies p ++ [f];
                    dataHierarchies := dataHierarchies p |})
    | None => Throw ItemNotFound
    end).

Definition pivot_add_dataHierarchy (h field : Value) : Act Workbook unit :=
  on_pivot h (fun ws p =>
    match is_header field (pivot_source p) ws with
    | Some f =>
        Ok (Some {| pivot_id := pivot_id p; pivot_name := pivot_name p;
                    pivot_source := pivot_source p;
                    pivot_destination := pivot_destination p;
                    rowHierarchies := rowHierarchies p;
                    dataHierarchies := dataHierarchies p ++ [f] |})
    | None => Throw ItemNotFound
    end).

(** [pivotTables.getItem(id).delete()] *)
Definition pivot_delete (h : Value) : Act Workbook unit :=
  on_pivot h (fun _ _ => Ok None).

Definition name_taken (n : string) (wb : Workbook) : bool :=
  existsb (fun ws => String.eqb (name ws) n) (worksheets wb).

(** [worksheets.getItem(key).name = n] *)
Definition worksheet_set_name (key n : Value) : Act Workbook unit :=
  fun wb =>
    match getItem key wb, n with
    | None, _ => (Throw ItemNotFound, wb)
    | Some ws, VStr new =>
        if String.eqb new "" then (Throw InvalidArgument, wb)
        else if String.eqb new (name ws) then (Ok tt, wb)
        else if name_taken new wb then (Throw ItemAlreadyExists, wb)
        else (Ok tt, put_sheet (with_name ws new) wb)
    | Some _, _ => (Throw InvalidArgument, wb)
    end.

Fixpoint digits_of (fuel n : nat) (acc : string) : string :=
  match fuel with
  | O => acc
  | S fuel' =>
      let acc' := String (ascii_of_nat (48 + n mod 10)) acc in
      if (n / 10 =? 0)%nat then acc' else digits_of fuel' (n / 10) acc'
  end.
Definition decimal (n : nat) : string := digits_of (S n) n "".

(** The first of "Sheet<k>", "Sheet<k+1>", ... that no worksheet has. *)
Fixpoint free_name (fuel k : nat) (wb : Workbook) : string :=
  match fuel with
  | O => String.append "Sheet" (decimal k)
  | S fuel' =>
      if name_taken (String.append "Sheet" (decimal k)) wb
      then free_name fuel' (S k) wb
      else String.append "Sheet" (decimal k)
  end.

(** [worksheets.add(name)]: without a name the workbook chooses one.  The
    answer is the key of the new worksheet. *)
Definition worksheets_add (n : Value) : Act Workbook Value :=
  fun wb =>
    let create (new : string) :=
      (Ok (VStr new),
       {| worksheets := worksheets wb ++ [blank_sheet (next_id wb) new];
          active := active wb; next_id := S (next_id wb) |}) in
    match n with
    | VUndefined | VNull =>
        create (free_name (length (worksheets wb)) (S (length (worksheets wb))) wb)
    | VStr new =>
        if String.eqb new "" then (Throw InvalidArgument, wb)
        else if name_taken new wb then (Throw ItemAlreadyExists, wb)
        else create new
    | _ => (Throw InvalidArgument, wb)
    end.

Definition worksheet_set_tabColor (key color : Value) : Act Workbook unit :=
  fun wb =>
    match getItem key wb with
    | Some ws => (Ok tt, put_sheet (with_tabColor ws color) wb)
    | None => (Throw ItemNotFound, wb)
    end.

(** [worksheets.getItem(key).delete()]: the last worksheet cannot be
    deleted; when the active one goes, the first remaining one is activated. *)
Definition worksheet_delete (key : Value) : Act Workbook unit :=
  fun wb =>
    match getItem key wb with
    | None => (Throw ItemNotFound, wb)
    | Some ws =>
        match filter (fun ws' => negb (sheet_id ws' =? sheet_id ws)%nat) (worksheets wb) with
        | [] => (Throw InvalidArgument, wb)
        | first :: others =>
            (Ok tt,
             {| worksheets := first :: others;
                active := if (active wb =? sheet_id ws)%nat then sheet_id first else active wb;
                next_id := next_id wb |})
        end
    end.

Definition host : Host Workbook :=
  {| Office.load_values := load_values;
     Office.load_formulas := load_formulas;
     Office.load_font := load_format;
     Office.load_fill := load_format;
     Office.load_borders := load_format;
     Office.set_values := set_content;
     Office.set_formulas := set_content;
     Office.assign_font := assign_font;
     Office.assign_fill := assign_fill;
     Office.assign_borders := assign_borders;
     Office.set_numberFormat := set_numberFormat;
     Office.range_insert := range_insert;
     Office.range_delete := range_delete;
     Office.charts_add := charts_add;
     Office.chart_set_title := chart_set_title;
     Office.chart_set_position := chart_set_position;
     Office.chart_delete := chart_delete;
     Office.ConditionalFormatType := ConditionalFormatType;
     Office.conditionalFormats_add := conditionalFormats_add;
     Office.conditionalFormat_set_cellValue := conditionalFormat_set_cellValue;
     Office.conditionalFormats_clearAll := conditionalFormats_clearAll;
     Office.sort_apply := sort_apply;
     Office.autoFilter_apply := autoFilter_apply;
     Office.autoFilter_apply_column := autoFilter_apply_column;
     Office.autoFilter_remove := autoFilter_remove;
     Office.pivotTables_add := pivotTables_add;
     Office.pivot_add_rowHierarchy := pivot_add_rowHierarchy;
     Office.pivot_add_dataHierarchy := pivot_add_dataHierarchy;
     Office.pivot_delete := pivot_delete;
     Office.worksheet_set_name := worksheet_set_name;
     Office.worksheets_add := worksheets_add;
     Office.worksheet_set_tabColor := worksheet_set_tabColor;
     Office.worksheet_delete := worksheet_delete |}.

End Surface.

(** An engine for literal formulas: a constant is its own value, the
    formula "=<digits>" is that number, and any other formula is left
    unresolved. *)
Definition literal_engine (v : Value) : Value :=
  match v with
  | VStr (String "=" body) =>
      if negb (String.eqb body "") && forallb is_digit (list_ascii_of_string body)
      then VNum (Z.of_nat (row_number (list_ascii_of_string body)))
      else VStr "#NAME?"
  | _ => v
  end.

(** A new workbook: one blank worksheet, active. *)
Definition new_workbook : Workbook :=
  {| worksheets := [blank_sheet 0 "Sheet1"]; active := 0; next_id := 1 |}.

(** [ws] is [ws0] with one more chart, the one with identifier [n]. *)
Definition chart_created (n : nat) (ws0 ws : Worksheet) : Prop :=
  exists c, chart_id c = n /\ charts ws = charts ws0 ++ [c] /\
            pivotTables ws = pivotTables ws0 /\ sheet_id ws = sheet_id ws0.

Definition has_pivot (id : nat) (ws : Worksheet) : bool :=
  existsb (fun p => (pivot_id p =? id)%nat) (pivotTables ws).

(** [ws] is [ws0] with one more pivot table, the one with identifier [n]. *)
Definition pivot_created (n : nat) (ws0 ws : Worksheet) : Prop :=
  exists p, pivot_id p = n /\ pivotTables ws = pivotTables ws0 ++ [p] /\
            charts ws = charts ws0 /\ sheet_id ws = sheet_id ws0.

(** The identifiers of the charts on the active worksheet. *)
Definition chart_ids (wb : Workbook) : list nat :=
  match getActiveWorksheet wb with
  | Some ws => map chart_id (charts ws)
  | None => []
  end.

End Sheet.

(** ** Observations on a run of the batch executor *)
Module Batch.
Import ExcelService.
Section Run.

Context {Doc : Type} (H : Host Doc).

(** The inverses a batch yields, oldest first, as long as its steps
    succeed. *)
Fixpoint collected (operations : list ExcelOperation) (s : State)
  : list (Inverse (Doc := Doc)) :=
  match operations with
  | [] => []
  | operation :: rest =>
      match executeOperation H operation s with
      | (Ok (Some undoOp), s') => undoOp :: collected rest s'
      | (Ok None, s') => collected rest s'
      | (Throw _, _) => []
      end
  end.

(** Every step of the batch succeeds and the inverse it returns, run right
    after the step, brings the document back to where the step found it. *)
Fixpoint Reversible (operations : list ExcelOperation) (s : State (Doc := Doc)) : Prop :=
  match operations with
  | [] => True
  | operation :: rest =>
      match executeOperation H operation s with
      | (Ok (Some undoOp), s') =>
          undoOp (document s') = (Ok tt, document s) /\ Reversible rest s'
      | (Ok None, s') => Reversible rest s'
      | (Throw _, _) => False
      end
  end.



(** Running inverses one after the other, going on after a failure: the
    errors met, in order, and the document left. *)
Fixpoint best_effort (undoOperations : list (Inverse (Doc := Doc))) (d : Doc)
  : list Error * Doc :=
  match undoOperations with
  | [] => ([], d)
  | undoOp :: rest =>
      match undoOp d with
      | (Ok _, d') => best_effort rest d'
      | (Throw e, d') => let '(es, d'') := best_effort rest d' in (e :: es, d'')
      end
  end.

(** The states of the service: it starts with an empty history, batches
    are executed, [undo] is called, and the document is edited by others in
    between. *)
Inductive Reachable : State (Doc := Doc) -> Prop :=
  | reach_new d log :
      Reachable {| document := d; undoStack := []; redoStack := []; console := log |}
  | reach_executeOperations operations s :
      Reachable s -> Reachable (snd (executeOperations H operations s))
  | reach_undo s :
      Reachable s -> Reachable (snd (undo s))
  | reach_edit s d :
      Reachable s -> Reachable (with_document s d).

End Run.


(** The errors that the rollback loop wrote to the console. *)
Definition undo_failures (log : list LogEntry) : list Error :=
  omap (fun entry =>
          match entry with
          | ConsoleError msg err =>
              if String.eqb msg "Failed to undo operation:" then Some err else None
          | _ => None
          end) log.

End Batch.

(** ** The laws of the specification, as stated

    The round-trip law and the partial-failure law speak of the values and
    formulas of the ranges a batch touches; the rollback-error rule says
    that the error a caller receives carries the errors met while rolling
    back. *)
Module Laws.
Import ExcelService Batch.
Section Laws.
Context {Doc : Type} (H : Host Doc).

Definition restored (address : string) (before after : Doc) : Prop :=
  fst (load_values H address after) = fst (load_values H address before) /\
  fst (load_formulas H address after) = fst (load_formulas H address before).


Definition partial_failure_law (operations : list ExcelOperation) (s : State (Doc := Doc)) : Prop :=
  forall before failing after undoOperations s1 error s2,
    operations = before ++ failing :: after ->
    run_operations H before [] s = (Ok tt, undoOperations, s1) ->
    executeOperation H failing s1 = (Throw error, s2) ->
    fst (executeOperations H operations s) = Throw error /\
    undoStack (snd (executeOperations H operations s)) = undoStack s /\
    forall operation, In operation before ->
      restored (target operation) (document s)
        (document (snd (executeOperations H operations s))).

Definition rollback_errors_carried : Prop :=
  exists attached : Outcome unit -> list Error,
    forall operations (s : State (Doc := Doc)),
      console s = [] ->
      attached (fst (executeOperations H operations s))
      = undo_failures (console (snd (executeOperations H operations s))).
End Laws.
End Laws.

(** ** Documents and descriptors to run the service on *)
Module Scenario.
Import ExcelService.

Definition H : Host Sheet.Workbook := Sheet.host Sheet.literal_engine.

Definition start (wb : Sheet.Workbook) : State :=
  {| document := wb; undoStack := []; redoStack := []; console := [] |}.

Definition cell_edit (address : string) (v : Value) : ExcelOperation :=
  {| type := "cell_edit"; target := address; value := v; options := VUndefined |}.

Definition sheet_create : ExcelOperation :=
  {| type := "sheet_create"; target := ""; value := VUndefined; options := VUndefined |}.

Definition insert_row (address : string) (count : Value) : ExcelOperation :=
  {| type := "insert_row"; target := address; value := count; options := VUndefined |}.

Definition unknown : ExcelOperation :=
  {| type := "merge_cells"; target := "A1:B2"; value := VUndefined; options := VUndefined |}.

Definition sheet_of (cs : list (nat * nat * Value)) : Sheet.Workbook :=
  {| Sheet.worksheets :=
       [Sheet.with_cells (Sheet.blank_sheet 0 "Sheet1") (list_to_map cs)];
     Sheet.active := 0; Sheet.next_id := 1 |}.

(** A1 holds the formula [=5]. *)
Definition formula_in_A1 : Sheet.Workbook := sheet_of [((1, 1), VStr "=5")].

(** Row 3 holds 1, 2, 3 in columns A to C. *)
Definition row3 : Sheet.Workbook :=
  sheet_of [((3, 1), VNum 1); ((3, 2), VNum 2); ((3, 3), VNum 3)].



(** A history that is full. *)
Definition full_history : State (Doc := Sheet.Workbook) :=
  {| document := Sheet.new_workbook; undoStack := repeat (ret tt) 50;
     redoStack := []; console := [] |}.

(** A history with one entry, which writes to A1. *)
Definition one_entry : State (Doc := Sheet.Workbook) :=
  {| document := Sheet.new_workbook;
     undoStack := [Office.set_values H "A1" (VArr [VArr [VStr "earlier"]])];
     redoStack := []; console := [] |}.

(** A worksheet that already has a chart. *)
Definition one_chart : Sheet.Workbook :=
  {| Sheet.worksheets :=
       [Sheet.with_charts (Sheet.blank_sheet 0 "Sheet1")
          [{| Sheet.chart_id := 1; Sheet.chart_type := VStr "Line";
              Sheet.chart_source := Sheet.span 1 1 2 2; Sheet.chart_title := VStr "Sales";
              Sheet.chart_position := None |}]];
     Sheet.active := 0; Sheet.next_id := 2 |}.

End Scenario.

(** ** Sessions: several batches, several undos *)
Module Session.
Import ExcelService Batch.
Section Session.

Context {Doc : Type} (H : Host Doc).

(** Successive calls of [executeOperations], one per batch. *)
Definition execute_all (batches : list (list ExcelOperation)) : Act (State (Doc := Doc)) unit :=
  for_each batches (executeOperations H).

(** [n] successive calls of [undo]. *)
Fixpoint undo_times (n : nat) : Act (State (Doc := Doc)) unit :=
  match n with
  | O => ret tt
  | S n' => undo ;; undo_times n'
  end.

(** Every batch, run where the batches before it left the service, applies
    fully, yields an inverse, and each of its inverses exactly reverts its
    step. *)
Fixpoint Undoable (batches : list (list ExcelOperation)) (s : State (Doc := Doc)) : Prop :=
  match batches with
  | [] => True
  | operations :: rest =>
      Reversible H operations s /\
      collected H operations s <> [] /\
      Undoable rest (snd (executeOperations H operations s))
  end.

(** Successive calls of [addToUndoStack], oldest entry first. *)
Definition push_all (undoOperations : list (Inverse (Doc := Doc))) (s : State) : State :=
  fold_left (fun s' undoOperation => snd (addToUndoStack undoOperation s')) undoOperations s.

(** The warnings a batch writes: one for each descriptor of a kind the
    dispatcher does not know, in the order of the batch. *)
Definition warnings (operations : list ExcelOperation) : list LogEntry :=
  map (fun operation => unknown_operation (type operation))
      (List.filter (fun operation => negb (recognized (type operation))) operations).

End Session.
End Session.

(** ** Queries *)
Module Queries.
Import ExcelService.
Section Queries.

Context {Doc : Type} (H : Host Doc).

(** [getRangeData]: the values of the target, loaded in an [Excel.run] of
    its own. *)
Definition getRangeData (target : string) : Act (State (Doc := Doc)) Value :=
  excel_run (load_values H target).

End Queries.
End Queries.

(** ** Observations on a worksheet *)
Module Observe.
Import Sheet.

(** The conditional formats on a worksheet: the identifier and the range of
    each, in their order. *)
Definition placed (ws : Worksheet) : list (nat * Rect) :=
  map (fun c => (cf_id c, cf_range c)) (conditionalFormats ws).

(** The identifiers of the worksheets are ones the workbook has handed
    out. *)
Definition sheets_issued (wb : Workbook) : bool :=
  forallb (fun ws => (sheet_id ws <? next_id wb)%nat) (worksheets wb).

(** The format of a cell of the target after [formatRange] with
    [options]: the properties given for the font, the fill and the borders
    are assigned, and the number format is set when one is given. *)
Definition formatted (options : Value) (f : CellFormat) : CellFormat :=
  let given part := get_prop_opt options part in
  let assigned part bag :=
    if truthy (given part) then assign (own_props (given part)) bag else bag in
  {| font := assigned "font" (font f);
     fill := assigned "fill" (fill f);
     borders := assigned "borders" (borders f);
     numberFormat :=
       if truthy (given "numberFormat") then given "numberFormat" else numberFormat f |}.

(** The identifier and the name of each worksheet, in their order. *)
Definition keys (wb : Workbook) : list (nat * string) :=
  map (fun ws => (sheet_id ws, name ws)) (worksheets wb).

(** Two worksheets that read the same: the same name, the same content in
    every cell, the same charts and pivot tables.  Formats and conditional
    formats are not looked at. *)
Definition alike_sheet (ws ws' : Worksheet) : Prop :=
  sheet_id ws' = sheet_id ws /\ name ws' = name ws /\
  (forall p, content (cells ws') p = content (cells ws) p) /\
  charts ws' = charts ws /\ pivotTables ws' = pivotTables ws.









(** The shift that undoes an insertion. *)
Definition opposite (dir : InsertShiftDirection) : DeleteShiftDirection :=
  match dir with ShiftDown => ShiftUp | ShiftRight => ShiftLeft end.

End Observe.

(** ** The shape of an address, without regular expressions *)
Module Address.

Fixpoint all_chars (p : ascii -> bool) (s : string) : bool :=
  match s with
  | EmptyString => true
  | String c rest => p c && all_chars p rest
  end.

(** One or more characters, all of them in [p]. *)
Definition some_of (p : ascii -> bool) (s : string) : Prop :=
  s <> EmptyString /\ all_chars p s = true.

(** Letters, then digits. *)
Definition cell_shape (letter : ascii -> bool) (s : string) : Prop :=
  exists letters digits,
    s = String.append letters digits /\
    some_of letter letters /\ some_of JsString.is_digit digits.

(** A cell, a cell and a colon, or two cells with a colon between them. *)
Definition range_shape (letter : ascii -> bool) (s : string) : Prop :=
  exists first rest,
    s = String.append first rest /\ cell_shape letter first /\
    (rest = EmptyString \/ rest = ":" \/
     exists second, rest = String ":" second /\ cell_shape letter second).

End Address.

(** ** The formula service

    [formulaService.ts] (class [FormulaEngineService]) takes what
    [getCurrentContext] returns, samples it and infers the types of the
    data. *)
Module FormulaService.
Import RegExp.

(** [ExcelContext], as [excelService.ts] declares it; an absent field is
    [VUndefined]. *)
Record ExcelContext : Type := {
  sheet_name : Value;
  selected_range : Value;
  cell_data : Value;
  workbook_info : Value;
  previous_operations : Value
}.

(** [\d] *)
Definition digit : Regex := Range "0" "9".

(** [/^\d{4}-\d{2}-\d{2}/] *)
Definition datePattern : Regex :=
  Seq digit (Seq digit (Seq digit (Seq digit
    (Seq (Lit "-") (Seq digit (Seq digit
       (Seq (Lit "-") (Seq digit digit)))))))).

(** [/^\$?\d+\.?\d*$/] *)
Definition currencyPattern : Regex :=
  Seq (Opt (Lit "$")) (Seq (Plus digit) (Seq (Opt (Lit ".")) (Star digit))).

(** [s.match(/^r/)] is not [null]: the pattern has no end anchor, so a
    prefix of [s] has to match [r]. *)
Fixpoint test_prefix (r : Regex) (s : string) : bool :=
  if nullable r then true
  else match s with
       | EmptyString => false
       | String c rest => test_prefix (deriv c r) rest
       end.

(** The label that the inner loop of [inferDataTypes] pushes for a value.
    The values of a range are numbers, strings and booleans; a [Date]
    object is not among them. *)
Definition label_of (value : Value) : string :=
  match value with
  | VNum _ => "number"
  | VStr s =>
      if test_prefix datePattern s then "date"
      else if test currencyPattern s then "currency"
      else "text"
  | _ => "unknown"
  end.

(** [set.add(x)] on a [Set] kept in insertion order. *)
Definition add (set : list string) (x : string) : list string :=
  if existsb (String.eqb x) set then set else set ++ [x].

(** [[...new Set(types)]] *)
Definition new_Set (types : list string) : list string :=
  fold_left add types [].

Definition inferDataTypes (values : Value) : list string :=
  match values with
  | VArr rows =>
      new_Set
        (flat_map (fun row =>
                     match row with
                     | VArr items => map label_of (firstn 5 items)
                     | _ => []
                     end)
                  (firstn 5 rows))
  | _ => ["unknown"]
  end.

(** [Array.isArray(v) ? v.slice(0, 5).map(row => Array.isArray(row) ?
    row.slice(0, 5) : row) : v] *)
Definition sample_of (v : Value) : Value :=
  match v with
  | VArr rows =>
      VArr (map (fun row =>
                   match row with
                   | VArr items => VArr (firstn 5 items)
                   | _ => row
                   end)
                (firstn 5 rows))
  | _ => v
  end.

Record RangeInfo : Type := {
  address : Value;
  row_count : nat;
  col_count : nat
}.

(** The object that [extractDataSample] builds. *)
Record DataSample : Type := {
  values : Value;
  formulas : Value;
  data_types : list string;
  range_info : RangeInfo
}.

(** [extractDataSample]; [None] is [null].  The properties of [cell_data]
    are its own properties, as for [get_prop]. *)
Definition extractDataSample (context : ExcelContext) : option DataSample :=
  if negb (truthy (cell_data context)) then None
  else
    let values := get_prop_opt (cell_data context) "values" in
    let formulas := get_prop_opt (cell_data context) "formulas" in
    Some {| values := sample_of values;
            formulas := sample_of formulas;
            data_types := inferDataTypes values;
            range_info :=
              {| address := get_prop_opt (cell_data context) "address";
                 row_count := match values with VArr rows => length rows | _ => 1 end;
                 col_count := match values with
                              | VArr (VArr items :: _) => length items
                              | _ => 1
                              end |} |}.

(** [data_types.includes(x)] *)
Definition includes (x : string) (data_types : list string) : bool :=
  existsb (String.eqb x) data_types.

(** The [suggestions] array of [suggestFormulas]. *)
Definition suggestions_for (data_types : list string) : list string :=
  (if includes "number" data_types
   then ["Calculate sum of selected numbers";
         "Calculate average of selected numbers";
         "Find maximum value in selection";
         "Find minimum value in selection"]
   else []) ++
  (if includes "text" data_types
   then ["Concatenate text values";
         "Convert text to uppercase";
         "Extract first word from text"]
   else []) ++
  (if includes "date" data_types
   then ["Calculate days between dates";
         "Add business days to date";
         "Extract month from date"]
   else []).

Definition failure (explanation : string) : Value :=
  VObj [("success", VBool false); ("explanation", VStr explanation)].

Section Suggest.

(** The world the service runs in: the workbook, the server, the console. *)
Context {World : Type}.

(** [this.excelService.getCurrentContext(targetRange)] *)
Variable getCurrentContext : Value -> Act World ExcelContext.
(** [this.generateFormula(requirement, targetRange)] *)
Variable generateFormula : string -> Value -> Act World Value.
Variable console_warn : string -> Error -> Act World unit.
Variable console_error : string -> Error -> Act World unit.
(** [error.message] *)
Variable message : Error -> string.

(** The loop over [suggestions.slice(0, 3)]; [results] is the array it
    fills. *)
Fixpoint generate (targetRange : Value) (suggestions : list string) (results : list Value)
  : Act World (list Value) :=
  match suggestions with
  | [] => ret results
  | suggestion :: rest =>
      results' <-
        try_catch
          (result <- generateFormula suggestion targetRange ;;
           success <- js (get_prop result "success") ;;
           ret (if truthy success then results ++ [result] else results))
          (fun error =>
             console_warn
               (String.append "Failed to generate formula for suggestion: " suggestion) error ;;
             ret results) ;;
      generate targetRange rest results'
  end.

Definition suggestFormulas (targetRange : Value) : Act World (list Value) :=
  try_catch
    (context <- getCurrentContext targetRange ;;
     match extractDataSample context with
     | None => ret [failure "No data selected to analyze for suggestions"]
     | Some dataSample =>
         if negb (truthy (values dataSample))
         then ret [failure "No data selected to analyze for suggestions"]
         else generate targetRange (firstn 3 (suggestions_for (data_types dataSample))) []
     end)
    (fun error =>
       console_error "Error getting formula suggestions:" error ;;
       ret [failure (String.append "Error generating suggestions: " (message error))]).

End Suggest.

End FormulaService.

(** ** More documents, descriptors and contexts to run the code on *)
Module Example.
Import ExcelService.

Definition H : Host Sheet.Workbook := Scenario.H.

(** A chart descriptor that carries no options. *)
Definition bare_chart : ExcelOperation :=
  {| type := "chart"; target := "A1:B2"; value := VUndefined; options := VUndefined |}.

(** A worksheet with a conditional format on A1:A3. *)
Definition one_rule : Sheet.Workbook :=
  {| Sheet.worksheets :=
       [Sheet.with_conditionalFormats (Sheet.blank_sheet 0 "Sheet1")
          [{| Sheet.cf_id := 1; Sheet.cf_range := Sheet.span 1 1 3 1;
              Sheet.cf_type := "DataBar"; Sheet.cf_fillColor := VUndefined;
              Sheet.cf_rule := VUndefined |}]];
     Sheet.active := 0; Sheet.next_id := 2 |}.

(** A filter on the first column of A1:B3. *)
Definition filter_first_column : ExcelOperation :=
  {| type := "filter"; target := "A1:B3"; value := VUndefined;
     options := VObj [("columnIndex", VNum 0);
                      ("filterCriteria", VObj [("filterOn", VStr "Values")])] |}.

(** Column A holds 3, the formula [=1] and 2. *)
Definition column_A : Sheet.Workbook :=
  Scenario.sheet_of [((1, 1), VNum 3); ((2, 1), VStr "=1"); ((3, 1), VNum 2)].

(** A range of six rows and six columns: the numbers 1 to 6 in each row. *)
Definition six_by_six : Value :=
  VArr (repeat (VArr [VNum 1; VNum 2; VNum 3; VNum 4; VNum 5; VNum 6]) 6).

Definition context_of (values : Value) : FormulaService.ExcelContext :=
  {| FormulaService.sheet_name := VStr "Sheet1";
     FormulaService.selected_range := VStr "Sheet1!A1:F6";
     FormulaService.cell_data :=
       VObj [("address", VStr "Sheet1!A1:F6"); ("values", values); ("formulas", values)];
     FormulaService.workbook_info := VUndefined;
     FormulaService.previous_operations := VArr [] |}.

(** A server that answers every requirement with a formula; the world is
    the list of the requirements it was asked for. *)
Definition answering (requirement : string) (targetRange : Value)
  : Act (list string) Value :=
  fun asked =>
    (Ok (VObj [("success", VBool true); ("formula", VStr "=SUM(A1:F6)")]),
     asked ++ [requirement]).

Definition suggest (values : Value) : Act (list string) (list Value) :=
  FormulaService.suggestFormulas
    (fun _ => ret (context_of values)) answering
    (fun _ _ => ret tt) (fun _ _ => ret tt) (fun _ => "")
    (VStr "A1:F6").

End Example.

(** * Properties *)

Import ExcelService Batch.

Ltac fields :=
  cbn [document undoStack redoStack console fst snd
       with_console with_document with_undoStack] in *.

(** A run on a concrete document does not fail: its outcome is computed,
    the inverse that comes with it is not. *)
Ltac succeeds E :=
  match type of E with
  | ?run = (Throw _, _) =>
      let Hok := fresh "Hok" in
      assert (Hok : match fst run with Ok _ => true | Throw _ => false end = true)
        by (vm_compute; reflexivity);
      rewrite E in Hok; discriminate Hok
  end.

(** ** The batch executor and the undo history, over any document surface *)
Section EngineLaws.

Context {Doc : Type} (H : Host Doc).

Implicit Types (s : State (Doc := Doc)) (u : Inverse (Doc := Doc)).

Lemma excel_run_spec {A} (m : Act Doc A) s :
  excel_run m s = (fst (m (document s)), with_document s (snd (m (document s)))).
Proof. unfold excel_run. destruct (m (document s)); reflexivity. Qed.

Lemma handler_spec (m : Act Doc Inverse) s :
  handler m s =
    match m (document s) with
    | (Ok u, d) => (Ok (Some u), with_document s d)
    | (Throw e, d) => (Throw e, with_document s d)
    end.
Proof.
  unfold handler, bind. rewrite excel_run_spec.
  destruct (m (document s)) as [[u|e] d]; reflexivity.
Qed.

Lemma executeOperation_cases (operation : ExcelOperation) :
  (exists m, executeOperation H operation = handler m) \/
  (recognized (type operation) = false /\
   executeOperation H operation =
     (console_log (unknown_operation (type operation)) ;; ret None)%act).
Proof.
  unfold executeOperation, recognized, operation_types; cbn [existsb].
  repeat match goal with
  | |- context [is_case ?t ?l] =>
      destruct (is_case t l); [left; eexists; reflexivity | ]
  end.
  right. split; reflexivity.
Qed.

Lemma executeOperation_unknown (operation : ExcelOperation) :
  recognized (type operation) = false ->
  executeOperation H operation =
    (console_log (unknown_operation (type operation)) ;; ret None)%act.
Proof.
  destruct (executeOperation_cases operation) as [[m Hm] | [_ Hu]]; [ | intros _; exact Hu].
  unfold executeOperation, recognized, operation_types; cbn [existsb].
  intros Hr.
  repeat match goal with
  | |- context [is_case ?t ?l] =>
      destruct (is_case t l); [discriminate Hr | cbn [orb] in Hr]
  end.
  reflexivity.
Qed.

(** A step of the dispatcher never touches the two stacks. *)
Lemma executeOperation_stacks (operation : ExcelOperation) s r s' :
  executeOperation H operation s = (r, s') ->
  undoStack s' = undoStack s /\ redoStack s' = redoStack s.
Proof.
  destruct (executeOperation_cases operation) as [[m ->] | [_ ->]].
  - rewrite handler_spec. destruct (m (document s)) as [[u|e] d];
      intros [= <- <-]; split; reflexivity.
  - intros [= <- <-]. split; reflexivity.
Qed.

(** A step that yields no inverse leaves the document alone. *)
Lemma executeOperation_None (operation : ExcelOperation) s s' :
  executeOperation H operation s = (Ok None, s') -> document s' = document s.
Proof.
  destruct (executeOperation_cases operation) as [[m ->] | [_ ->]].
  - rewrite handler_spec. destruct (m (document s)) as [[u|e] d]; discriminate.
  - intros [= <-]. reflexivity.
Qed.

Lemma run_operations_app (before after : list ExcelOperation) (acc : list Inverse) s :
  run_operations H (before ++ after) acc s =
    match run_operations H before acc s with
    | (Ok _, undoOperations, s1) => run_operations H after undoOperations s1
    | failure => failure
    end.
Proof.
  revert acc s. induction before as [| op before IH]; intros acc s; cbn.
  - reflexivity.
  - destruct (executeOperation H op s) as [[[u|]|e] s1]; auto.
Qed.

Lemma run_operations_stacks (operations : list ExcelOperation) (acc : list Inverse) s r undoOps s' :
  run_operations H operations acc s = (r, undoOps, s') ->
  undoStack s' = undoStack s /\ redoStack s' = redoStack s.
Proof.
  revert acc s. induction operations as [| op ops IH]; intros acc s; cbn.
  - intros [= _ _ <-]. split; reflexivity.
  - destruct (executeOperation H op s) as [[[u|]|e] s1] eqn:E;
      apply executeOperation_stacks in E as [E1 E2].
    + intros R. apply IH in R as [-> ->]. split; assumption.
    + intros R. apply IH in R as [-> ->]. split; assumption.
    + intros [= _ _ <-]. split; assumption.
Qed.

(** A successful loop hands back the inverses most recent first. *)
Lemma run_operations_collected (operations : list ExcelOperation) (acc : list Inverse) s undoOps s' :
  run_operations H operations acc s = (Ok tt, undoOps, s') ->
  undoOps = rev (collected H operations s) ++ acc.
Proof.
  revert acc s. induction operations as [| op ops IH]; intros acc s; cbn.
  - intros [= <- _]. reflexivity.
  - destruct (executeOperation H op s) as [[[u|]|e] s1] eqn:E.
    + intros R. apply IH in R. rewrite R. cbn. rewrite <- app_assoc. reflexivity.
    + intros R. apply IH in R. exact R.
    + discriminate.
Qed.

Lemma for_each_app {S A} (xs ys : list A) (body : A -> Act S unit) (st : S) :
  for_each (xs ++ ys) body st =
    match for_each xs body st with
    | (Ok _, st') => for_each ys body st'
    | failure => failure
    end.
Proof.
  revert st. induction xs as [| x xs IH]; intros st; cbn.
  - reflexivity.
  - unfold bind. destruct (body x st) as [[[]|e] st']; auto.
Qed.

Lemma best_effort_app (xs ys : list Inverse) (d : Doc) :
  best_effort (xs ++ ys) d =
    (fst (best_effort xs d) ++ fst (best_effort ys (snd (best_effort xs d))),
     snd (best_effort ys (snd (best_effort xs d)))).
Proof.
  revert d. induction xs as [| x xs IH]; intros d; cbn.
  - destruct (best_effort ys d); reflexivity.
  - destruct (x d) as [[[]|e] d']; [apply IH | ].
    rewrite IH. destruct (best_effort xs d') as [es d'']. reflexivity.
Qed.

(** The composite inverse of a reversible batch brings the document back. *)
Lemma composite_restores (operations : list ExcelOperation) (acc : list Inverse) s undoOps s' :
  Reversible H operations s ->
  run_operations H operations acc s = (Ok tt, undoOps, s') ->
  exists rest, undoOps = rest ++ acc /\
    composite rest (document s') = (Ok tt, document s) /\
    snd (best_effort rest (document s')) = document s /\
    (collected H operations s <> [] -> rest <> []).
Proof.
  revert acc s. induction operations as [| op ops IH]; intros acc s; cbn.
  - intros _ [= <- <-]. exists []. repeat split; try reflexivity. congruence.
  - destruct (executeOperation H op s) as [[[u|]|e] s1] eqn:E.
    + intros [Hu Hrev] R. destruct (IH _ _ Hrev R) as (rest & -> & Hc & Hb & _).
      exists (rest ++ [u]). rewrite <- app_assoc. repeat split.
      * unfold composite in *. rewrite for_each_app, Hc. cbn. unfold bind.
        revert Hu. destruct (u (document s1)) as [o d]. intros [= -> ->]. reflexivity.
      * rewrite best_effort_app, Hb. cbn.
        revert Hu. destruct (u (document s1)) as [o d]. intros [= -> ->]. reflexivity.
      * intros _. destruct rest; discriminate.
    + intros Hrev R. destruct (IH _ _ Hrev R) as (rest & -> & Hc & Hb & Hn).
      apply executeOperation_None in E. rewrite <- E.
      exists rest. repeat split; assumption.
    + intros [].
Qed.

Lemma pop_snoc {A} (l : list A) (x : A) : pop (l ++ [x]) = Some (x, l).
Proof. unfold pop. rewrite rev_app_distr. cbn. rewrite rev_involutive. reflexivity. Qed.

Lemma rollback_spec (undoOps : list Inverse) s :
  rollback undoOps s =
    (Ok tt,
     with_console
       (with_document s (snd (best_effort undoOps (document s))))
       (console s ++
          map (ConsoleError "Failed to undo operation:") (fst (best_effort undoOps (document s))))).
Proof.
  revert s. induction undoOps as [| u rest IH]; intros s; cbn.
  - unfold ret, with_console, with_document. cbn. rewrite app_nil_r. destruct s; reflexivity.
  - unfold rollback in *. cbn. unfold bind at 1. unfold try_catch.
    rewrite excel_run_spec.
    destruct (u (document s)) as [[[]|e] d]; cbn.
    + rewrite IH. cbn. reflexivity.
    + rewrite IH. cbn. destruct (best_effort rest d) as [es d']. cbn.
      unfold with_console, with_document; cbn. rewrite <- app_assoc. reflexivity.
Qed.


Lemma addToUndoStack_spec u s :
  addToUndoStack u s =
    (Ok tt,
     {| document := document s;
        undoStack := if (maxUndoSteps <? length (undoStack s ++ [u]))%nat
                     then tl (undoStack s ++ [u]) else undoStack s ++ [u];
        redoStack := []; console := console s |}).
Proof. reflexivity. Qed.

Lemma tl_snoc {A} (l : list A) (x : A) : l <> [] -> tl (l ++ [x]) = tl l ++ [x].
Proof. destruct l; [congruence | reflexivity]. Qed.

(** C4.  Capacity law: a history of at most 50 entries (which it always is,
    see [undo_history_bounded]) holds at most 50 entries after a push; the
    push never fails, the new entry is always accepted and is the one on
    top, and when 50 entries are held the oldest one is dropped. *)
Theorem undo_history_capacity u s :
  (length (undoStack s) <= maxUndoSteps)%nat ->
  exists s',
    addToUndoStack u s = (Ok tt, s') /\
    (length (undoStack s') <= 50)%nat /\
    pop (undoStack s') = Some (u, removelast (undoStack s')) /\
    (length (undoStack s) = 50%nat -> undoStack s' = tl (undoStack s) ++ [u]) /\
    (length (undoStack s) < 50 -> undoStack s' = undoStack s ++ [u])%nat /\
    document s' = document s.
Proof.
  intros Hlen. eexists. split; [apply addToUndoStack_spec | ]. fields.
  unfold maxUndoSteps in *. rewrite length_app. cbn [length].
  destruct (Nat.ltb_spec 50 (length (undoStack s) + 1)) as [Hfull | Hroom].
  - assert (Hne : undoStack s <> []) by (destruct (undoStack s); cbn in *; [lia | congruence]).
    rewrite tl_snoc by assumption.
    assert (length (tl (undoStack s)) = 49)%nat
      by (destruct (undoStack s); cbn in *; [congruence | lia]).
    repeat split.
    + rewrite length_app. cbn [length]. lia.
    + rewrite pop_snoc, removelast_last. reflexivity.
    + lia.
  - repeat split.
    + rewrite length_app. cbn [length]. lia.
    + rewrite pop_snoc, removelast_last. reflexivity.
    + lia.
Qed.

(** The bound is an invariant of the service. *)
Lemma executeOperations_bounded (operations : list ExcelOperation) s :
  (length (undoStack s) <= maxUndoSteps)%nat ->
  (length (undoStack (snd (executeOperations H operations s))) <= maxUndoSteps)%nat.
Proof.
  intros Hlen. unfold executeOperations.
  destruct (run_operations H operations [] s) as [[[[]|e] undoOps] s1] eqn:R;
    apply run_operations_stacks in R as [R1 R2].
  - destruct (0 <? length undoOps)%nat; [ | fields; rewrite R1; exact Hlen].
    rewrite addToUndoStack_spec. fields.
    rewrite R1. unfold maxUndoSteps in *. rewrite length_app. cbn [length].
    destruct (Nat.ltb_spec 50 (length (undoStack s) + 1)).
    + destruct (undoStack s); cbn [length tl app] in *; [lia | rewrite length_app; cbn [length]; lia].
    + rewrite length_app. cbn [length]. lia.
  - unfold bind. cbn [console_log]. rewrite rollback_spec. unfold throw. fields. rewrite R1. exact Hlen.
Qed.

Lemma undo_bounded s :
  (length (undoStack s) <= maxUndoSteps)%nat ->
  (length (undoStack (snd (undo s))) <= maxUndoSteps)%nat.
Proof.
  intros Hlen. unfold undo, pop.
  destruct (rev (undoStack s)) as [| u r] eqn:E; [assumption | ].
  rewrite excel_run_spec. cbn. rewrite length_rev.
  assert (length (rev (undoStack s)) = S (length r)) by (rewrite E; reflexivity).
  rewrite length_rev in *. lia.
Qed.

(** The undo history never holds more than 50 entries. *)
Lemma undo_history_bounded s :
  Reachable H s -> (length (undoStack s) <= maxUndoSteps)%nat.
Proof.
  induction 1 as [d log | operations s _ IH | s _ IH | s d _ IH].
  - cbn. unfold maxUndoSteps. lia.
  - apply executeOperations_bounded, IH.
  - apply undo_bounded, IH.
  - exact IH.
Qed.

(** C5.  No-op law: a descriptor whose kind is none of the labels of the
    dispatcher writes a warning to the console, yields no inverse and
    leaves the loop going: wherever it stands in a batch, the descriptors
    after it are executed with the inverse list it found.  A descriptor
    whose kind is one of the labels is never such a no-op. *)
Theorem unknown_kind_is_a_noop (operation : ExcelOperation) :
  recognized (type operation) = false ->
  let warned s := with_console s (console s ++ [unknown_operation (type operation)]) in
  (forall s, executeOperation H operation s = (Ok None, warned s)) /\
  (forall rest undoOperations s,
     run_operations H (operation :: rest) undoOperations s =
       run_operations H rest undoOperations (warned s)) /\
  (forall before after s,
     run_operations H (before ++ operation :: after) [] s =
       match run_operations H before [] s with
       | (Ok _, undoOperations, s1) => run_operations H after undoOperations (warned s1)
       | failure => failure
       end) /\
  (forall other s,
     recognized (type other) = true -> fst (executeOperation H other s) <> Ok None).
Proof.
  intros Hr warned.
  assert (E : forall s, executeOperation H operation s = (Ok None, warned s)).
  { intros s. rewrite executeOperation_unknown by assumption. reflexivity. }
  split; [exact E | ]. split; [ | split].
  - intros rest acc s. cbn. rewrite E. reflexivity.
  - intros before after s. rewrite run_operations_app.
    destruct (run_operations H before [] s) as [[[[]|e] undoOps] s1]; [ | reflexivity].
    cbn. rewrite E. reflexivity.
  - intros other s Ho.
    destruct (executeOperation_cases other) as [[m ->] | [Hn _]]; [ | congruence].
    rewrite handler_spec. destruct (m (document s)) as [[u|e] d]; discriminate.
Qed.

Lemma run_operations_unknown (operations : list ExcelOperation) (acc : list Inverse) s :
  Forall (fun operation => recognized (type operation) = false) operations ->
  exists s', run_operations H operations acc s = (Ok tt, acc, s') /\
    document s' = document s.
Proof.
  intros Hall. revert s. induction Hall as [| op ops Hop _ IH]; intros s; cbn.
  - eauto.
  - rewrite executeOperation_unknown by assumption. cbn.
    destruct (IH (with_console s (console s ++ [unknown_operation (type op)])))
      as (s' & -> & Hd).
    eauto.
Qed.

(** A loop that ends with the inverse list it started with has left the
    document alone. *)
Lemma run_operations_no_inverse (operations : list ExcelOperation) (acc : list Inverse) s s1 :
  run_operations H operations acc s = (Ok tt, acc, s1) -> document s1 = document s.
Proof.
  revert acc s. induction operations as [| op ops IH]; intros acc s; cbn.
  - intros [= <-]. reflexivity.
  - destruct (executeOperation H op s) as [[[u|]|e] s'] eqn:E.
    + intros R. apply run_operations_collected in R.
      apply (f_equal (@length _)) in R. rewrite length_app in R. cbn in R. lia.
    + intros R. apply IH in R. apply executeOperation_None in E. congruence.
    + discriminate.
Qed.

(** C9.  A batch whose steps yield no inverse (as is an empty batch, or one
    of unrecognized kinds only, see [run_operations_unknown]) pushes
    nothing: the document and both stacks are as they were, and an [undo]
    that follows pops and runs the entry that was on top before the batch,
    or does nothing when there was none. *)
Theorem no_inverse_no_entry (operations : list ExcelOperation) s s1 :
  run_operations H operations [] s = (Ok tt, [], s1) ->
  executeOperations H operations s = (Ok tt, s1) /\
  document s1 = document s /\
  undoStack s1 = undoStack s /\
  redoStack s1 = redoStack s /\
  (forall earlier entry,
     undoStack s = earlier ++ [entry] ->
     undo s1 = excel_run entry (with_undoStack s1 earlier)) /\
  (undoStack s = [] -> undo s1 = (Ok tt, s1)).
Proof.
  intros R. pose proof (run_operations_stacks _ _ _ _ _ _ R) as [Hu Hr].
  pose proof (run_operations_no_inverse _ _ _ _ R) as Hd.
  repeat split; try assumption.
  - unfold executeOperations. rewrite R. reflexivity.
  - intros earlier entry Hs. unfold undo. rewrite Hu, Hs, pop_snoc. reflexivity.
  - intros Hs. unfold undo. rewrite Hu, Hs. reflexivity.
Qed.

(** What the [catch] block makes of a failed loop. *)
Lemma executeOperations_failure (operations : list ExcelOperation) s error undoOperations s1 :
  run_operations H operations [] s = (Throw error, undoOperations, s1) ->
  executeOperations H operations s =
    (Throw error,
     {| document := snd (best_effort undoOperations (document s1));
        undoStack := undoStack s;
        redoStack := redoStack s;
        console :=
          console s1 ++
            ConsoleError "Failed to execute operations:" error ::
            map (ConsoleError "Failed to undo operation:")
                (fst (best_effort undoOperations (document s1))) |}).
Proof.
  intros R. pose proof (run_operations_stacks _ _ _ _ _ _ R) as [Hu Hr].
  unfold executeOperations. rewrite R. unfold bind. cbn [console_log].
  rewrite rollback_spec. unfold throw, with_console, with_document. fields.
  rewrite <- app_assoc, Hu, Hr. reflexivity.
Qed.

(** C3, amended.  When the loop fails with [error] and an inverse fails
    during the rollback, that secondary error is caught and written to the
    console, and the rollback goes on with the inverses that remain; the
    caller receives exactly [error], to which nothing is attached. *)
Theorem rollback_errors_are_logged (operations : list ExcelOperation) s error undoOperations s1 :
  run_operations H operations [] s = (Throw error, undoOperations, s1) ->
  exists s',
    executeOperations H operations s = (Throw error, s') /\
    document s' = snd (best_effort undoOperations (document s1)) /\
    console s' =
      console s1 ++
        ConsoleError "Failed to execute operations:" error ::
        map (ConsoleError "Failed to undo operation:")
            (fst (best_effort undoOperations (document s1))) /\
    undo_failures (console s') =
      undo_failures (console s1) ++ fst (best_effort undoOperations (document s1)).
Proof.
  intros R. eexists. split; [apply executeOperations_failure; exact R | ]. fields.
  repeat split. unfold undo_failures. rewrite omap_app. f_equal. cbn [omap String.eqb].
  cbn. induction (fst (best_effort undoOperations (document s1))) as [| e es IH]; cbn; congruence.
Qed.

(** C2, amended.  When a step of the batch fails, the inverses of the steps
    before it are run most recent first, each on a best-effort basis, the
    error of the failing step is re-raised and nothing is pushed on the
    undo history; the document is the pre-batch document when each of those
    inverses exactly reverts its step and the failing step left the
    document alone. *)
Theorem partial_failure_rolls_back
    (before : list ExcelOperation) (failing : ExcelOperation) (after : list ExcelOperation)
    s undoOperations s1 error s2 :
  run_operations H before [] s = (Ok tt, undoOperations, s1) ->
  executeOperation H failing s1 = (Throw error, s2) ->
  exists s',
    executeOperations H (before ++ failing :: after) s = (Throw error, s') /\
    undoOperations = rev (collected H before s) /\
    document s' = snd (best_effort undoOperations (document s2)) /\
    undoStack s' = undoStack s /\
    redoStack s' = redoStack s /\
    (Reversible H before s -> document s2 = document s1 -> document s' = document s).
Proof.
  intros R F.
  assert (R' : run_operations H (before ++ failing :: after) [] s
               = (Throw error, undoOperations, s2)).
  { rewrite run_operations_app, R. cbn. rewrite F. reflexivity. }
  eexists. split; [apply executeOperations_failure; exact R' | ]. fields.
  repeat split.
  - apply run_operations_collected in R. rewrite app_nil_r in R. exact R.
  - intros Hrev Hdoc.
    destruct (composite_restores _ _ _ _ _ Hrev R) as (rest & Hrest & _ & Hb & _).
    rewrite app_nil_r in Hrest. subst rest. rewrite Hdoc. exact Hb.
Qed.


End EngineLaws.

(** ** Regular expressions: the matcher decides the language *)
Section RegExpLaws.
Import RegExp.

Lemma append_empty (s1 s2 : string) :
  String.append s1 s2 = EmptyString -> s1 = EmptyString /\ s2 = EmptyString.
Proof. destruct s1; cbn; [auto | discriminate]. Qed.

Lemma append_cons (s1 s2 : string) (c : ascii) (s : string) :
  String.append s1 s2 = String c s ->
  (s1 = EmptyString /\ s2 = String c s) \/
  (exists s1', s1 = String c s1' /\ s = String.append s1' s2).
Proof.
  destruct s1 as [| c' s1']; cbn.
  - auto.
  - intros [= -> <-]. right. eauto.
Qed.

Lemma nullable_Matches (r : Regex) : nullable r = true <-> Matches r EmptyString.
Proof.
  split.
  - induction r; cbn; try discriminate.
    + constructor.
    + intros [Hn | Hn]%orb_true_iff; [apply MAltL | apply MAltR]; auto.
    + intros [H1 H2]%andb_true_iff.
      change EmptyString with (String.append EmptyString EmptyString).
      constructor; auto.
    + constructor.
  - intros M. remember EmptyString as w eqn:E.
    induction M; cbn; try discriminate; auto.
    + rewrite IHM by assumption. reflexivity.
    + rewrite IHM by assumption. apply orb_true_r.
    + apply append_empty in E as [-> ->]. rewrite IHM1, IHM2; reflexivity.
Qed.

Lemma deriv_sound (c : ascii) (r : Regex) (s : string) :
  Matches (deriv c r) s -> Matches r (String c s).
Proof.
  revert s. induction r; cbn; intros s M.
  - inversion M.
  - inversion M.
  - destruct (Ascii.eqb_spec c c0); inversion M; subst. constructor.
  - destruct (in_range lo hi c) eqn:E; inversion M; subst. constructor; assumption.
  - inversion M; subst; [apply MAltL | apply MAltR]; auto.
  - destruct (nullable r1) eqn:N.
    + inversion M as [ | | | ? ? ? M1 | ? ? ? M2 | | | ]; subst.
      * inversion M1; subst.
        change (String c (String.append s1 s2)) with (String.append (String c s1) s2).
        constructor; auto.
      * change (String c s) with (String.append EmptyString (String c s)).
        constructor; [apply nullable_Matches; assumption | auto].
    + inversion M; subst.
      change (String c (String.append s1 s2)) with (String.append (String c s1) s2).
      constructor; auto.
  - inversion M; subst.
    change (String c (String.append s1 s2)) with (String.append (String c s1) s2).
    apply MStarS; auto.
Qed.

Lemma deriv_complete (c : ascii) (r : Regex) (s : string) :
  Matches r (String c s) -> Matches (deriv c r) s.
Proof.
  intros M. remember (String c s) as w eqn:E. revert s E.
  induction M; intros t E; cbn; try discriminate.
  - injection E as -> <-. rewrite Ascii.eqb_refl. constructor.
  - injection E as -> <-. rewrite H. constructor.
  - apply MAltL; auto.
  - apply MAltR; auto.
  - apply append_cons in E as [[-> ->] | (s1' & -> & ->)].
    + apply nullable_Matches in M1. rewrite M1. apply MAltR; auto.
    + destruct (nullable r1); [apply MAltL | ]; constructor; auto.
  - apply append_cons in E as [[-> ->] | (s1' & -> & ->)].
    + auto.
    + constructor; auto.
Qed.

Lemma test_Matches (r : Regex) (s : string) : test r s = true <-> Matches r s.
Proof.
  revert r. induction s as [| c s IH]; intros r; cbn.
  - apply nullable_Matches.
  - rewrite IH. split; [apply deriv_sound | apply deriv_complete].
Qed.


Lemma includes_append (c : ascii) (s1 s2 : string) :
  JsString.includes c (String.append s1 s2) = JsString.includes c s1 || JsString.includes c s2.
Proof.
  induction s1 as [| c' s1 IH]; [reflexivity | ].
  change (String c' s1 +:+ s2)%string with (String c' (s1 +:+ s2)).
  cbn [JsString.includes]. rewrite IH. apply orb_assoc.
Qed.

(** A string that matches [r] is made of characters that [r] consumes. *)
Lemma Matches_includes (c : ascii) (r : Regex) (s : string) :
  consumes c r = false -> Matches r s -> JsString.includes c s = false.
Proof.
  intros Hc M. induction M; cbn in *; try reflexivity.
  - rewrite Hc. reflexivity.
  - destruct (Ascii.eqb_spec c c0) as [-> | ]; [congruence | reflexivity].
  - apply orb_false_iff in Hc as [? ?]. auto.
  - apply orb_false_iff in Hc as [? ?]. auto.
  - apply orb_false_iff in Hc as [? ?]. rewrite includes_append, IHM1, IHM2; auto.
  - rewrite includes_append, IHM1, IHM2; auto.
Qed.

Lemma any_char_append (p : ascii -> bool) (s1 s2 : string) :
  JsString.any_char p (String.append s1 s2) = JsString.any_char p s1 || JsString.any_char p s2.
Proof.
  induction s1 as [| c' s1 IH]; [reflexivity | ].
  change (String c' s1 +:+ s2)%string with (String c' (s1 +:+ s2)).
  cbn [JsString.any_char]. rewrite IH. apply orb_assoc.
Qed.

(** An address that the pattern accepts has a row number. *)
Lemma rangePattern_has_digit (s : string) :
  Matches rangePattern s -> JsString.any_char JsString.is_digit s = true.
Proof.
  unfold rangePattern, Plus. intros M.
  inversion M as [ | | | | | ? ? s1 s2 _ M2 | | ]; subst.
  inversion M2 as [ | | | | | ? ? s3 s4 M3 _ | | ]; subst.
  inversion M3 as [ | | | | | ? ? s5 s6 M5 _ | | ]; subst.
  inversion M5; subst.
  rewrite !any_char_append. cbn [JsString.any_char]. unfold JsString.is_digit.
  match goal with Hd : in_range _ _ _ = true |- _ => rewrite Hd end.
  cbn. apply orb_true_r.
Qed.

End RegExpLaws.

Lemma upper_char_digit (c : ascii) :
  JsString.is_digit (JsString.upper_char c) = JsString.is_digit c.
Proof.
  destruct c as [[] [] [] [] [] [] [] []]; reflexivity.
Qed.

Lemma ascii_toUpperCase_digits (s : string) :
  JsString.any_char JsString.is_digit (JsString.ascii_toUpperCase s) =
  JsString.any_char JsString.is_digit s.
Proof.
  induction s as [| c s IH]; [reflexivity | ].
  cbn [JsString.ascii_toUpperCase JsString.any_char].
  rewrite upper_char_digit, IH. reflexivity.
Qed.

Section IsValidRangeLaws.
Import RegExp.

Variable toUpperCase : string -> string.

(** C10.  [isValidRange] always returns, and returns [true] exactly when the
    upper-cased address is in the language of
    [^[A-Z]+[0-9]+(:([A-Z]+[0-9]+)?)?$]: it accepts "a1", "A1:B2" and the
    dangling "A1:", and rejects every address that contains "!" and every
    address without a row number, such as the whole-column "A:B".
    [toUpperCase] is any function that upper-cases the ASCII letters and
    keeps a "!" where there is one. *)
Theorem isValidRange_spec :
  (forall s, JsString.is_ascii s = true -> toUpperCase s = JsString.ascii_toUpperCase s) ->
  (forall s, JsString.includes "!" s = true -> JsString.includes "!" (toUpperCase s) = true) ->
  (forall s, exists b,
      isValidRange toUpperCase s = Ok b /\
      (b = true <-> Matches rangePattern (toUpperCase s))) /\
  isValidRange toUpperCase "a1" = Ok true /\
  isValidRange toUpperCase "A1:B2" = Ok true /\
  isValidRange toUpperCase "A1:" = Ok true /\
  (forall s, JsString.includes "!" s = true -> isValidRange toUpperCase s = Ok false) /\
  (forall s, JsString.is_ascii s = true -> JsString.any_char JsString.is_digit s = false ->
             isValidRange toUpperCase s = Ok false) /\
  isValidRange toUpperCase "A:B" = Ok false.
Proof.
  intros Hascii Hbang. unfold isValidRange.
  repeat split.
  - intros s. eexists. split; [reflexivity | apply test_Matches].
  - rewrite Hascii by reflexivity. reflexivity.
  - rewrite Hascii by reflexivity. reflexivity.
  - rewrite Hascii by reflexivity. reflexivity.
  - intros s Hs. f_equal. apply not_true_is_false. intros Ht.
    apply test_Matches in Ht.
    apply (Matches_includes "!") in Ht; [ | reflexivity].
    rewrite Hbang in Ht by assumption. discriminate.
  - intros s Ha Hd. f_equal. apply not_true_is_false. intros Ht.
    apply test_Matches, rangePattern_has_digit in Ht.
    rewrite Hascii, ascii_toUpperCase_digits in Ht by assumption. congruence.
  - rewrite Hascii by reflexivity. reflexivity.
Qed.

End IsValidRangeLaws.

Lemma ascii_toUpperCase_includes_bang (s : string) :
  JsString.includes "!" s = true ->
  JsString.includes "!" (JsString.ascii_toUpperCase s) = true.
Proof.
  induction s as [| c s IH]; [auto | ].
  cbn [JsString.includes JsString.ascii_toUpperCase].
  intros [Hc | Hs]%orb_true_iff.
  - apply Ascii.eqb_eq in Hc. subst c. reflexivity.
  - rewrite IH by assumption. apply orb_true_r.
Qed.

(** [isValidRange_spec] for the ASCII upper-casing. *)
Lemma isValidRange_spec_witness :
  (forall s, exists b,
      isValidRange JsString.ascii_toUpperCase s = Ok b /\
      (b = true <-> RegExp.Matches rangePattern (JsString.ascii_toUpperCase s))) /\
  isValidRange JsString.ascii_toUpperCase "a1" = Ok true /\
  isValidRange JsString.ascii_toUpperCase "A1:B2" = Ok true /\
  isValidRange JsString.ascii_toUpperCase "A1:" = Ok true /\
  (forall s, JsString.includes "!" s = true ->
             isValidRange JsString.ascii_toUpperCase s = Ok false) /\
  (forall s, JsString.is_ascii s = true -> JsString.any_char JsString.is_digit s = false ->
             isValidRange JsString.ascii_toUpperCase s = Ok false) /\
  isValidRange JsString.ascii_toUpperCase "A:B" = Ok false.
Proof.
  apply (isValidRange_spec JsString.ascii_toUpperCase).
  - intros s _. reflexivity.
  - exact ascii_toUpperCase_includes_bang.
Defined.

(** ** The workbook: ranges *)
Section SheetLaws.
Import Sheet Observe.

Lemma content_put_cell (p q : nat * nat) (v : Value) (m : gmap (nat * nat) Value) :
  content (put_cell p v m) q = if decide (p = q) then v else content m q.
Proof.
  unfold content, put_cell.
  assert (E : forall w, default (VStr "") (<[p := w]> m !! q)
                        = if decide (p = q) then w else default (VStr "") (m !! q)).
  { intros w. rewrite lookup_insert. destruct (decide (p = q)); reflexivity. }
  destruct v as [ | | | | s | | ]; try apply E.
  destruct s as [| c s]; [ | apply E].
  rewrite lookup_delete. destruct (decide (p = q)); reflexivity.
Qed.

Lemma content_put_row (r c : nat) (vs : list Value) (m : gmap (nat * nat) Value) (i j : nat) :
  content (put_row r c vs m) (i, j) =
    if decide (i = r /\ c <= j < c + length vs)
    then nth (j - c) vs (VStr "") else content m (i, j).
Proof.
  revert c m. induction vs as [| v vs IH]; intros c m; cbn [put_row length].
  - destruct (decide _) as [[_ ?] | ]; [lia | reflexivity].
  - rewrite IH, content_put_cell.
    destruct (decide (i = r /\ S c <= j < S c + length vs)) as [[-> Hj] | Hn].
    + destruct (decide _) as [ | Hn']; [ | exfalso; apply Hn'; split; [reflexivity | lia]].
      replace (j - c) with (S (j - S c)) by lia. reflexivity.
    + destruct (decide ((r, c) = (i, j))) as [[= <- <-] | Hne].
      * destruct (decide _) as [ | Hn']; [ | exfalso; apply Hn'; split; [reflexivity | lia]].
        rewrite Nat.sub_diag. reflexivity.
      * destruct (decide _) as [[-> Hj] | ]; [ | reflexivity].
        exfalso. assert (j <> c) by congruence. apply Hn. split; [reflexivity | lia].
Qed.

Lemma content_put_grid_above (r c : nat) (g : list (list Value)) (m : gmap (nat * nat) Value)
    (i j : nat) :
  i < r -> content (put_grid r c g m) (i, j) = content m (i, j).
Proof.
  revert r m. induction g as [| row g IH]; intros r m Hi; cbn [put_grid]; [reflexivity | ].
  rewrite IH by lia. rewrite content_put_row.
  destruct (decide _) as [[-> _] | ]; [lia | reflexivity].
Qed.

(** Reading a range back after writing a grid of its size gives the grid. *)
Lemma get_grid_put_grid (a : Rect) (g : list (list Value)) (m : gmap (nat * nat) Value) :
  length g = height a ->
  Forall (fun row => length row = width a) g ->
  get_grid a (put_grid (top a) (left a) g m) = g.
Proof.
  unfold get_grid, rows_of, columns_of.
  generalize (top a) as r, (height a) as h. intros r h Hlen Hrows.
  revert r h m Hlen. induction Hrows as [| row g Hrow _ IH]; intros r h m Hlen.
  - cbn in Hlen. subst h. reflexivity.
  - cbn in Hlen. subst h. cbn [seq map put_grid]. f_equal.
    + apply nth_ext with (d := VStr "") (d' := VStr "").
      * rewrite length_map, length_seq. symmetry. exact Hrow.
      * intros k Hk. rewrite length_map, length_seq in Hk.
        rewrite (nth_indep _ _ (content (put_grid (S r) (left a) g
                    (put_row r (left a) row m)) (r, 0)))
          by (rewrite length_map, length_seq; exact Hk).
        rewrite (map_nth (fun c => content _ (r, c))), seq_nth by exact Hk.
        rewrite content_put_grid_above by lia. rewrite content_put_row.
        destruct (decide _) as [ | Hn]; [f_equal; lia | ].
        exfalso. apply Hn. split; [reflexivity | lia].
    + apply IH. reflexivity.
Qed.


Lemma get_grid_dims (a : Rect) (m : gmap (nat * nat) Value) :
  length (get_grid a m) = height a /\
  Forall (fun row => length row = width a) (get_grid a m).
Proof.
  unfold get_grid, rows_of, columns_of. split.
  - rewrite length_map, length_seq. reflexivity.
  - apply Forall_map, Forall_forall. intros r _. cbn.
    rewrite length_map, length_seq. reflexivity.
Qed.

Lemma as_rows_of_grid (w : nat) (g : list (list Value)) :
  Forall (fun row => length row = w) g ->
  Forall (fun row => forallb storable row = true) g ->
  as_rows w (map VArr g) = Some g.
Proof.
  induction 1 as [| row g Hrow _ IH]; intros Hs; [reflexivity | ].
  apply Forall_cons in Hs as [Hs1 Hs2]. cbn [map as_rows as_row].
  rewrite Hrow, Nat.eqb_refl, Hs1, IH by assumption. reflexivity.
Qed.

Lemma as_grid_of_grid (a : Rect) (g : list (list Value)) :
  length g = height a ->
  Forall (fun row => length row = width a) g ->
  Forall (fun row => forallb storable row = true) g ->
  as_grid a (of_grid g) = Some g.
Proof.
  intros Hlen Hrows Hs. unfold as_grid, of_grid.
  rewrite length_map, Hlen, Nat.eqb_refl. apply as_rows_of_grid; assumption.
Qed.

Lemma content_storable (ws : Worksheet) (p : nat * nat) :
  cells_storable ws = true -> storable (content (cells ws) p) = true.
Proof.
  unfold cells_storable, content. intros Hs.
  destruct (cells ws !! p) as [v | ] eqn:E; [ | reflexivity].
  rewrite forallb_forall in Hs. apply (Hs (p, v)).
  apply list_elem_of_In, elem_of_map_to_list. exact E.
Qed.

Lemma get_grid_storable (a : Rect) (ws : Worksheet) (f : Value -> Value) :
  (forall v, storable v = true -> storable (f v) = true) ->
  cells_storable ws = true ->
  Forall (fun row => forallb storable row = true) (map (map f) (get_grid a (cells ws))).
Proof.
  intros Hf Hs. unfold get_grid. rewrite map_map.
  apply Forall_map, Forall_forall. intros r _. cbn.
  rewrite map_map. apply forallb_forall. intros v [c [<- _]]%in_map_iff.
  apply Hf, content_storable, Hs.
Qed.

Lemma find_put_sheet (ws ws' : Worksheet) (wb : Workbook) :
  getActiveWorksheet wb = Some ws ->
  sheet_id ws' = sheet_id ws ->
  forall n,
  getActiveWorksheet
    {| worksheets := worksheets (put_sheet ws' wb); active := active wb; next_id := n |}
  = Some ws'.
Proof.
  unfold getActiveWorksheet, put_sheet. cbn [worksheets active]. intros Hf Hid n.
  induction (worksheets wb) as [| w l IH]; [discriminate | ].
  cbn [find map] in *.
  destruct (Nat.eqb_spec (sheet_id w) (active wb)) as [Ea | Ea].
  - injection Hf as ->. rewrite Hid, Nat.eqb_refl, Hid, Ea, Nat.eqb_refl. reflexivity.
  - destruct (Nat.eqb_spec (sheet_id w) (sheet_id ws')) as [Es | Es].
    + apply find_some in Hf as [_ Hf%Nat.eqb_eq]. congruence.
    + apply Nat.eqb_neq in Ea. rewrite Ea. apply IH, Hf.
Qed.

(** A request on the active worksheet that is accepted. *)
Lemma on_sheet_Ok {A} (f : Worksheet -> Workbook -> Outcome (A * Worksheet * nat))
    (wb : Workbook) (ws ws' : Worksheet) (x : A) (n : nat) :
  getActiveWorksheet wb = Some ws ->
  f ws wb = Ok (x, ws', n) ->
  sheet_id ws' = sheet_id ws ->
  exists wb', on_sheet f wb = (Ok x, wb') /\ getActiveWorksheet wb' = Some ws' /\
              next_id wb' = n.
Proof.
  intros Ha Hf Hid. unfold on_sheet. rewrite Ha, Hf. eexists. split; [reflexivity | ].
  split; [ | reflexivity]. eapply find_put_sheet; eassumption.
Qed.

Lemma on_range_Ok {A} (address : string) (f : Rect -> Worksheet -> Outcome (A * Worksheet))
    (wb : Workbook) (a : Rect) (ws ws' : Worksheet) (x : A) :
  getActiveWorksheet wb = Some ws ->
  resolve (name ws) address = Some a ->
  f a ws = Ok (x, ws') ->
  sheet_id ws' = sheet_id ws ->
  exists wb', on_range address f wb = (Ok x, wb') /\ getActiveWorksheet wb' = Some ws'.
Proof.
  intros Ha Hp Hf Hid. unfold on_range.
  destruct (on_sheet_Ok
              (fun ws0 wb0 =>
                 match resolve (name ws0) address with
                 | Some a0 =>
                     match f a0 ws0 with
                     | Ok (x0, ws'0) => Ok (x0, ws'0, next_id wb0)
                     | Throw e => Throw e
                     end
                 | None => Throw InvalidArgument
                 end) wb ws ws' x (next_id wb) Ha) as (wb' & E & Hw & _).
  - rewrite Hp, Hf. reflexivity.
  - exact Hid.
  - eauto.
Qed.

Lemma inside_spec (a : Rect) (i j : nat) :
  inside a (i, j) = true <->
  top a <= i < top a + height a /\ left a <= j < left a + width a.
Proof.
  unfold inside. cbn [fst snd].
  rewrite !andb_true_iff, !Nat.leb_le, !Nat.ltb_lt. lia.
Qed.

(** What a cell holds after a grid of rows of width [w] is written. *)
Lemma content_put_grid (r c w : nat) (g : list (list Value)) (m : gmap (nat * nat) Value)
    (i j : nat) :
  Forall (fun row => length row = w) g ->
  content (put_grid r c g m) (i, j) =
    if decide (r <= i < r + length g /\ c <= j < c + w)
    then nth (j - c) (nth (i - r) g []) (VStr "") else content m (i, j).
Proof.
  intros Hw. revert r m. induction Hw as [| row g Hrow _ IH]; intros r m; cbn [put_grid length].
  - destruct (decide _) as [[? _] | ]; [lia | reflexivity].
  - rewrite IH, content_put_row, Hrow.
    destruct (decide (S r <= i < S r + length g /\ c <= j < c + w)) as [[Hi Hj] | Hn].
    + destruct (decide (r <= i < r + S (length g) /\ c <= j < c + w)) as [_ | Hn'];
        [ | exfalso; apply Hn'; lia].
      replace (i - r) with (S (i - S r)) by lia. reflexivity.
    + destruct (decide (i = r /\ c <= j < c + w)) as [[-> Hj] | Hn2].
      * destruct (decide (r <= r < r + S (length g) /\ c <= j < c + w)) as [_ | Hn'];
          [ | exfalso; apply Hn'; lia].
        rewrite Nat.sub_diag. reflexivity.
      * destruct (decide (r <= i < r + S (length g) /\ c <= j < c + w)) as [[Hi Hj] | ];
          [ | reflexivity].
        exfalso. destruct (decide (i = r)); [apply Hn2 | apply Hn]; lia.
Qed.

(** A grid of the size of the range touches the cells of the range only. *)
Lemma content_put_grid_outside (a : Rect) (g : list (list Value)) (m : gmap (nat * nat) Value)
    (p : nat * nat) :
  length g = height a ->
  Forall (fun row => length row = width a) g ->
  inside a p = false ->
  content (put_grid (top a) (left a) g m) p = content m p.
Proof.
  intros Hl Hw Hout. destruct p as [i j].
  rewrite (content_put_grid _ _ (width a)) by assumption. rewrite Hl.
  destruct (decide _) as [Hin | ]; [ | reflexivity].
  apply inside_spec in Hin. congruence.
Qed.

Lemma nth_map_seq {A} (F : nat -> A) (start len k : nat) (d : A) :
  k < len -> nth k (map F (seq start len)) d = F (start + k).
Proof.
  intros Hk. rewrite (nth_indep _ _ (F 0)) by (rewrite length_map, length_seq; exact Hk).
  rewrite (map_nth F), seq_nth by exact Hk. reflexivity.
Qed.

(** Writing back what a range held, each cell through [f]. *)
Lemma content_put_get (a : Rect) (f : Value -> Value) (m0 m : gmap (nat * nat) Value)
    (p : nat * nat) :
  content (put_grid (top a) (left a) (map (map f) (get_grid a m0)) m) p =
    if inside a p then f (content m0 p) else content m p.
Proof.
  destruct p as [i j].
  destruct (get_grid_dims a m0) as [Hl Hw].
  rewrite (content_put_grid _ _ (width a)).
  2:{ apply Forall_map. eapply Forall_impl; [exact Hw | ].
      intros row Hrow. cbn. rewrite length_map. exact Hrow. }
  rewrite length_map, Hl.
  destruct (decide _) as [Hin | Hout].
  - rewrite (proj2 (inside_spec a i j) Hin).
    unfold get_grid, rows_of, columns_of. rewrite map_map.
    rewrite nth_map_seq by lia. rewrite map_map. rewrite nth_map_seq by lia.
    do 2 f_equal. f_equal; lia.
  - destruct (inside a (i, j)) eqn:E; [ | reflexivity].
    apply inside_spec in E. contradiction.
Qed.

(** Two maps that hold the same in every cell read the same. *)
Lemma get_grid_ext (a : Rect) (m1 m2 : gmap (nat * nat) Value) (f : Value -> Value) :
  (forall p, f (content m1 p) = f (content m2 p)) ->
  map (map f) (get_grid a m1) = map (map f) (get_grid a m2).
Proof.
  intros E. unfold get_grid. rewrite !map_map. apply map_ext. intros r.
  rewrite !map_map. apply map_ext. intros c. apply E.
Qed.

Lemma get_grid_same (a : Rect) (m1 m2 : gmap (nat * nat) Value) :
  (forall p, content m1 p = content m2 p) -> get_grid a m1 = get_grid a m2.
Proof.
  intros E. unfold get_grid. apply map_ext. intros r. apply map_ext. intros c. apply E.
Qed.

Lemma as_rows_inv (w : nat) (vs : list Value) (g : list (list Value)) :
  as_rows w vs = Some g ->
  vs = map VArr g /\
  Forall (fun row => length row = w) g /\
  Forall (fun row => forallb storable row = true) g.
Proof.
  revert g. induction vs as [| v vs IH]; intros g; cbn [as_rows].
  - intros [= <-]. repeat split; constructor.
  - destruct v as [ | | | | | items | ]; cbn [as_row]; try discriminate.
    destruct (Nat.eqb_spec (length items) w) as [Hlen | ]; cbn [andb]; [ | discriminate].
    destruct (forallb storable items) eqn:Hs; [ | discriminate].
    destruct (as_rows w vs) as [rows | ]; [ | discriminate].
    intros [= <-]. destruct (IH rows eq_refl) as (-> & Hw & Hst).
    repeat split; constructor; assumption.
Qed.

(** What a range accepts: a grid of its size. *)
Lemma as_grid_inv (a : Rect) (v : Value) (g : list (list Value)) :
  as_grid a v = Some g ->
  v = of_grid g /\
  length g = height a /\
  Forall (fun row => length row = width a) g /\
  Forall (fun row => forallb storable row = true) g.
Proof.
  unfold as_grid. destruct v as [ | | | | | rows | ]; try discriminate.
  destruct (Nat.eqb_spec (length rows) (height a)) as [Hlen | ]; [ | discriminate].
  intros Hr. apply as_rows_inv in Hr as (-> & Hw & Hs).
  rewrite length_map in Hlen. repeat split; assumption.
Qed.

Lemma set_content_inv (address : string) (v : Value) (wb wb1 : Workbook) (ws : Worksheet) :
  getActiveWorksheet wb = Some ws ->
  set_content address v wb = (Ok tt, wb1) ->
  exists a g,
    resolve (name ws) address = Some a /\
    as_grid a v = Some g /\
    getActiveWorksheet wb1 = Some (with_cells ws (put_grid (top a) (left a) g (cells ws))).
Proof.
  intros Ha. unfold set_content, on_range, on_sheet. rewrite Ha.
  destruct (resolve (name ws) address) as [a | ]; [ | discriminate].
  destruct (as_grid a v) as [g | ] eqn:Hg; [ | discriminate].
  intros [= <-]. exists a, g. split; [reflexivity | ]. split; [exact Hg | ].
  apply (find_put_sheet ws (with_cells ws (put_grid (top a) (left a) g (cells ws))) wb Ha eq_refl).
Qed.

Lemma read_range_fst {A} (address : string) (f g : Rect -> Worksheet -> A)
    (wb wb' : Workbook) (ws ws' : Worksheet) :
  getActiveWorksheet wb = Some ws ->
  getActiveWorksheet wb' = Some ws' ->
  name ws' = name ws ->
  (forall a, resolve (name ws) address = Some a -> f a ws = g a ws') ->
  fst (read_range address f wb) = fst (read_range address g wb').
Proof.
  intros Ha Ha' Hn E. unfold read_range. rewrite Ha, Ha', Hn.
  destruct (resolve (name ws) address) as [a | ]; [ | reflexivity].
  cbn [fst]. rewrite (E a eq_refl). reflexivity.
Qed.

Lemma NoDup_omap_keys {A} (f : nat * nat -> option (nat * nat)) (l : list (nat * nat * A)) :
  (forall p p' q', f p = Some q' -> f p' = Some q' -> p = p') ->
  NoDup (l.*1) ->
  NoDup ((omap (fun kv : nat * nat * A => (fun k => (k, snd kv)) <$> f (fst kv)) l).*1).
Proof.
  intros Hinj. induction l as [| [k x] l IH]; intros Hl; [constructor | ].
  apply NoDup_cons in Hl as [Hk Hl]. simpl.
  destruct (f k) as [q' | ] eqn:Fk; simpl; [ | apply IH, Hl].
  apply NoDup_cons. split; [ | apply IH, Hl].
  intros Hin. apply list_elem_of_fmap in Hin as ([q'' y] & Eq & Hin). simpl in Eq. subst q''.
  apply list_elem_of_omap in Hin as ([k' x'] & Hin & Hg). simpl in Hg.
  destruct (f k') as [q'' | ] eqn:Fk'; [ | discriminate]. simpl in Hg. injection Hg as -> _.
  assert (k = k') by (eapply Hinj; eassumption). subst k'.
  apply Hk. apply list_elem_of_fmap. exists (k, x'). split; [reflexivity | exact Hin].
Qed.

(** Where the cells of a map go when they are moved by a one-to-one [f]. *)
Lemma lookup_rekey {A} (f : nat * nat -> option (nat * nat)) (m : gmap (nat * nat) A)
    (q : nat * nat) (v : A) :
  (forall p p' q', f p = Some q' -> f p' = Some q' -> p = p') ->
  rekey f m !! q = Some v <-> exists p, f p = Some q /\ m !! p = Some v.
Proof.
  intros Hinj. unfold rekey.
  rewrite <- elem_of_list_to_map by (apply NoDup_omap_keys; [exact Hinj | apply NoDup_fst_map_to_list]).
  rewrite list_elem_of_omap. split.
  - intros ([p x] & Hin & Hg). apply elem_of_map_to_list in Hin. simpl in Hg.
    destruct (f p) as [q' | ] eqn:Fp; [ | discriminate]. simpl in Hg. injection Hg as -> ->.
    exists p. split; assumption.
  - intros (p & Fp & Hm). exists (p, v). split; [apply elem_of_map_to_list, Hm | ].
    simpl. rewrite Fp. reflexivity.
Qed.

(** Moving by [f] and then by [g], where [g] undoes [f], leaves the map as
    it was. *)
Lemma rekey_round_trip {A} (f g : nat * nat -> option (nat * nat)) (m : gmap (nat * nat) A) :
  (forall p p' q, f p = Some q -> f p' = Some q -> p = p') ->
  (forall p p' q, g p = Some q -> g p' = Some q -> p = p') ->
  (forall p, exists p', f p = Some p' /\ g p' = Some p) ->
  rekey g (rekey f m) = m.
Proof.
  intros Hf Hg Hgf. apply map_eq. intros q. apply option_eq. intros v.
  rewrite (lookup_rekey g _ q v Hg). split.
  - intros (p' & Gp' & Hm). apply (lookup_rekey f _ p' v Hf) in Hm as (p & Fp & Hm).
    destruct (Hgf p) as (p'' & Fp' & Gp''). rewrite Fp in Fp'. injection Fp' as <-.
    rewrite Gp' in Gp''. injection Gp'' as ->. exact Hm.
  - intros Hm. destruct (Hgf q) as (p' & Fq & Gp'). exists p'. split; [exact Gp' | ].
    apply (lookup_rekey f _ p' v Hf). exists q. split; assumption.
Qed.

Ltac shift_cases :=
  repeat match goal with
  | |- context [(?x <=? ?y)%nat] => destruct (Nat.leb_spec x y)
  | |- context [(?x <? ?y)%nat] => destruct (Nat.ltb_spec x y)
  | H : context [(?x <=? ?y)%nat] |- _ => destruct (Nat.leb_spec x y)
  | H : context [(?x <? ?y)%nat] |- _ => destruct (Nat.ltb_spec x y)
  end; cbn [andb negb] in *.

Lemma shift_insert_inj (dir : InsertShiftDirection) (a : Rect) (p p' q : nat * nat) :
  shift_insert dir a p = Some q -> shift_insert dir a p' = Some q -> p = p'.
Proof.
  destruct p as [i j], p' as [i' j'], q as [r c].
  unfold shift_insert, in_columns, in_rows. cbn [fst snd].
  destruct dir; shift_cases; intros [= <- <-] [= E1 E2]; f_equal; lia.
Qed.

Lemma shift_delete_inj (dir : DeleteShiftDirection) (a : Rect) (p p' q : nat * nat) :
  shift_delete dir a p = Some q -> shift_delete dir a p' = Some q -> p = p'.
Proof.
  destruct p as [i j], p' as [i' j'], q as [r c].
  unfold shift_delete, inside, in_columns, in_rows. cbn [fst snd].
  destruct dir; shift_cases; try discriminate; intros [= <- <-] [= E1 E2]; f_equal; lia.
Qed.

Lemma shift_delete_insert (dir : InsertShiftDirection) (a : Rect) (p : nat * nat) :
  exists p', shift_insert dir a p = Some p' /\ shift_delete (opposite dir) a p' = Some p.
Proof.
  destruct p as [i j].
  unfold shift_insert, shift_delete, inside, in_columns, in_rows, opposite. cbn [fst snd].
  destruct dir; shift_cases; eexists; (split; [reflexivity | ]); cbn [fst snd];
    shift_cases; try lia; f_equal; f_equal; lia.
Qed.

(** The addresses that a worksheet resolves. *)
Lemma resolve_parse (sheet address : string) (a : Rect) :
  resolve sheet address = Some a -> parse_address address = Some a.
Proof.
  unfold resolve. destruct (qualifier address) as [q | ]; [ | auto].
  destruct (String.eqb q sheet); [auto | discriminate].
Qed.

Lemma span_overlaps (r1 c1 r2 c2 : nat) :
  overlaps (span r1 c1 r2 c2) (span r1 c1 r2 c2) = true.
Proof.
  unfold overlaps, span. cbn [top left height width].
  rewrite !andb_true_iff, !Nat.ltb_lt. lia.
Qed.

Lemma between_overlaps (e1 e2 : option nat * option nat) (a : Rect) :
  between e1 e2 = Some a -> overlaps a a = true.
Proof.
  unfold between. destruct e1 as [[c1 | ] [r1 | ]], e2 as [[c2 | ] [r2 | ]];
    try discriminate; destruct (_ && _); try discriminate;
    intros [= <-]; apply span_overlaps.
Qed.

(** A range that an address means has a cell. *)
Lemma parse_address_overlaps (address : string) (a : Rect) :
  parse_address address = Some a -> overlaps a a = true.
Proof.
  unfold parse_address.
  destruct (parse_end (reference address)) as [[c1 r1] rest].
  destruct rest as [| ch rest].
  - destruct c1, r1; try discriminate. apply between_overlaps.
  - assert (E : forall b : option Rect,
             (if Ascii.eqb ch ":" then
                match parse_end rest with
                | (c2, r2, []) => between (c1, r1) (c2, r2)
                | _ => None
                end
              else None) = b ->
             b = Some a -> overlaps a a = true).
    { intros b <-. destruct (Ascii.eqb ch ":"); [ | discriminate].
      destruct (parse_end rest) as [[c2 r2] [| ? ?]]; [ | discriminate].
      apply between_overlaps. }
    intros Hp. eapply E; [ | exact Hp].
    destruct ch as [[] [] [] [] [] [] [] []]; destruct c1, r1; reflexivity.
Qed.

Lemma resolve_overlaps (sheet address : string) (a : Rect) :
  resolve sheet address = Some a -> overlaps a a = true.
Proof. intros Hp. eapply parse_address_overlaps, resolve_parse, Hp. Qed.









Section Delete.

Variable evaluate : Value -> Value.

Lemma load_formulas_spec (address : string) (wb : Workbook) (ws : Worksheet) (a : Rect) :
  getActiveWorksheet wb = Some ws ->
  resolve (name ws) address = Some a ->
  Sheet.load_formulas address wb = (Ok (of_grid (get_grid a (cells ws))), wb).
Proof. intros Ha Hp. unfold Sheet.load_formulas, read_range. rewrite Ha, Hp. reflexivity. Qed.

Lemma load_values_spec (address : string) (wb : Workbook) (ws : Worksheet) (a : Rect) :
  getActiveWorksheet wb = Some ws ->
  resolve (name ws) address = Some a ->
  Sheet.load_values evaluate address wb
    = (Ok (of_grid (map (map evaluate) (get_grid a (cells ws)))), wb).
Proof. intros Ha Hp. unfold Sheet.load_values, read_range. rewrite Ha, Hp. reflexivity. Qed.

Lemma set_content_Ok (address : string) (g : list (list Value))
    (wb : Workbook) (ws : Worksheet) (a : Rect) :
  getActiveWorksheet wb = Some ws ->
  resolve (name ws) address = Some a ->
  length g = height a ->
  Forall (fun row => length row = width a) g ->
  Forall (fun row => forallb storable row = true) g ->
  exists wb',
    set_content address (of_grid g) wb = (Ok tt, wb') /\
    getActiveWorksheet wb'
      = Some (with_cells ws (put_grid (top a) (left a) g (cells ws))).
Proof.
  intros Ha Hp Hl Hw Hs. unfold set_content.
  eapply on_range_Ok; try eassumption.
  - rewrite as_grid_of_grid by assumption. reflexivity.
  - reflexivity.
Qed.

Lemma range_insert_Ok (address : string) (dir : InsertShiftDirection)
    (wb : Workbook) (ws : Worksheet) (a : Rect) :
  getActiveWorksheet wb = Some ws ->
  resolve (name ws) address = Some a ->
  exists wb',
    Sheet.range_insert address dir wb = (Ok tt, wb') /\
    getActiveWorksheet wb'
      = Some (with_formats (with_cells ws (rekey (shift_insert dir a) (cells ws)))
                (rekey (shift_insert dir a) (formats ws))).
Proof.
  intros Ha Hp. unfold Sheet.range_insert.
  eapply on_range_Ok; try eassumption; reflexivity.
Qed.

Lemma range_delete_Ok (address : string) (dir : DeleteShiftDirection)
    (wb : Workbook) (ws : Worksheet) (a : Rect) :
  getActiveWorksheet wb = Some ws ->
  resolve (name ws) address = Some a ->
  exists wb',
    Sheet.range_delete address dir wb = (Ok tt, wb') /\
    getActiveWorksheet wb'
      = Some (with_formats (with_cells ws (rekey (shift_delete dir a) (cells ws)))
                (rekey (shift_delete dir a) (formats ws))).
Proof.
  intros Ha Hp. unfold Sheet.range_delete.
  eapply on_range_Ok; try eassumption; reflexivity.
Qed.





End Delete.

End SheetLaws.

(** ** The workbook: charts and pivot tables *)
Section ObjectLaws.
Import Sheet.

Lemma as_id_handle (n : nat) : as_id (handle n) = Some n.
Proof.
  unfold as_id, handle. destruct (Z.leb_spec 0 (Z.of_nat n)); [ | lia].
  rewrite Nat2Z.id. reflexivity.
Qed.

Lemma getActiveWorksheet_In (wb : Workbook) (ws : Worksheet) :
  getActiveWorksheet wb = Some ws -> In ws (worksheets wb).
Proof. unfold getActiveWorksheet. intros Hf. apply find_some in Hf as [Hin _]. exact Hin. Qed.

Lemma ids_issued_charts (wb : Workbook) (ws : Worksheet) :
  ids_issued wb = true -> getActiveWorksheet wb = Some ws ->
  Forall (fun c => chart_id c <> next_id wb) (charts ws).
Proof.
  unfold ids_issued. intros Hi Ha. apply getActiveWorksheet_In in Ha.
  rewrite forallb_forall in Hi. specialize (Hi ws Ha).
  apply andb_true_iff in Hi as [Hc _]. rewrite forallb_forall in Hc.
  apply Forall_forall. intros c Hin%list_elem_of_In. specialize (Hc c Hin).
  apply Nat.ltb_lt in Hc. lia.
Qed.

Lemma ids_issued_pivots (wb : Workbook) (ws : Worksheet) :
  ids_issued wb = true -> getActiveWorksheet wb = Some ws ->
  Forall (fun p => pivot_id p <> next_id wb) (pivotTables ws).
Proof.
  unfold ids_issued. intros Hi Ha. apply getActiveWorksheet_In in Ha.
  rewrite forallb_forall in Hi. specialize (Hi ws Ha).
  apply andb_true_iff in Hi as [_ Hc]. rewrite forallb_forall in Hc.
  apply Forall_forall. intros c Hin%list_elem_of_In. specialize (Hc c Hin).
  apply Nat.ltb_lt in Hc. lia.
Qed.

(** Editing or deleting by identifier leaves the objects with another
    identifier as they are. *)
Lemma omap_by_id {A} (id : A -> nat) (n : nat) (f : A -> option A) (l : list A) :
  Forall (fun x => id x <> n) l ->
  omap (fun x => if (id x =? n)%nat then f x else Some x) l = l.
Proof.
  induction 1 as [| x l Hx _ IH]; [reflexivity | ].
  apply Nat.eqb_neq in Hx. cbn. rewrite Hx. f_equal. exact IH.
Qed.

Lemma omap_delete_filter {A} (id : A -> nat) (n : nat) (l : list A) :
  omap (fun x => if (id x =? n)%nat then None else Some x) l
  = List.filter (fun x => negb (id x =? n)%nat) l.
Proof.
  induction l as [| x l IH]; [reflexivity | ].
  cbn. destruct (id x =? n)%nat; cbn; [exact IH | f_equal; exact IH].
Qed.

Lemma omap_snoc {A B} (f : A -> option B) (l : list A) (x : A) :
  omap f (l ++ [x]) = omap f l ++ match f x with Some y => [y] | None => [] end.
Proof. rewrite omap_app. cbn. destruct (f x); reflexivity. Qed.

(** *** Charts *)

Lemma has_chart_created (n : nat) (ws0 ws : Worksheet) :
  chart_created n ws0 ws -> has_chart n ws = true.
Proof.
  intros (c & Hc & Hl & _). unfold has_chart. rewrite Hl, existsb_app. cbn.
  rewrite Hc, Nat.eqb_refl. apply orb_true_r.
Qed.

Lemma on_chart_created (n : nat) (f : Chart -> option Chart)
    (wb : Workbook) (ws0 ws : Worksheet) :
  getActiveWorksheet wb = Some ws ->
  chart_created n ws0 ws ->
  Forall (fun c => chart_id c <> n) (charts ws0) ->
  (forall c, exists c', f c = Some c' /\ chart_id c' = chart_id c) ->
  exists wb' ws',
    on_chart (handle n) f wb = (Ok tt, wb') /\
    getActiveWorksheet wb' = Some ws' /\ chart_created n ws0 ws'.
Proof.
  intros Ha Hc Hfresh Hf. pose proof (has_chart_created _ _ _ Hc) as Hh.
  destruct Hc as (c & Hid & Hl & Hp & Hs).
  destruct (Hf c) as (c' & Hfc & Hid').
  unfold on_chart.
  match goal with
  | |- context [on_sheet ?F wb] =>
      destruct (on_sheet_Ok F wb ws
                  (with_charts ws
                     (omap (fun c => if (chart_id c =? n)%nat then f c else Some c) (charts ws)))
                  tt (next_id wb) Ha) as (wb' & E & Hw & _)
  end.
  - rewrite as_id_handle, Hh. reflexivity.
  - reflexivity.
  - exists wb'. eexists. split; [exact E | ]. split; [exact Hw | ].
    exists c'. cbn [charts pivotTables sheet_id with_charts].
    rewrite Hl, omap_snoc, omap_by_id by assumption.
    rewrite Hid, Nat.eqb_refl, Hfc. repeat split; congruence.
Qed.

Lemma chart_delete_by_id (n : nat) (wb : Workbook) (ws : Worksheet) :
  getActiveWorksheet wb = Some ws ->
  has_chart n ws = true ->
  exists wb',
    Sheet.chart_delete (handle n) wb = (Ok tt, wb') /\
    getActiveWorksheet wb'
      = Some (with_charts ws (List.filter (fun c => negb (chart_id c =? n)%nat) (charts ws))).
Proof.
  intros Ha Hh. unfold Sheet.chart_delete, on_chart.
  match goal with
  | |- context [on_sheet ?F wb] =>
      destruct (on_sheet_Ok F wb ws
                  (with_charts ws
                     (omap (fun c => if (chart_id c =? n)%nat then None else Some c) (charts ws)))
                  tt (next_id wb) Ha) as (wb' & E & Hw & _)
  end.
  - rewrite as_id_handle, Hh. reflexivity.
  - reflexivity.
  - exists wb'. split; [exact E | ]. rewrite Hw, omap_delete_filter. reflexivity.
Qed.

Lemma filter_created {A} (id : A -> nat) (n : nat) (l : list A) (x : A) :
  Forall (fun y => id y <> n) l -> id x = n ->
  List.filter (fun y => negb (id y =? n)%nat) (l ++ [x]) = l.
Proof.
  intros Hl Hx. rewrite List.filter_app. cbn. rewrite Hx, Nat.eqb_refl. cbn.
  rewrite app_nil_r. induction Hl as [| y l Hy _ IH]; [reflexivity | ].
  cbn. apply Nat.eqb_neq in Hy. rewrite Hy. cbn. f_equal. exact IH.
Qed.

(** *** Pivot tables *)

Lemma find_created (n : nat) (l : list PivotTable) (p : PivotTable) :
  Forall (fun q => pivot_id q <> n) l -> pivot_id p = n ->
  find (fun q => (pivot_id q =? n)%nat) (l ++ [p]) = Some p.
Proof.
  intros Hl Hp. induction Hl as [| q l Hq _ IH]; cbn.
  - rewrite Hp, Nat.eqb_refl. reflexivity.
  - apply Nat.eqb_neq in Hq. rewrite Hq. exact IH.
Qed.

(** An accepted edit of the created pivot table leaves it the created
    pivot table. *)
Lemma on_pivot_created (n : nat)
    (f : Worksheet -> PivotTable -> Outcome (option PivotTable))
    (wb wb' : Workbook) (ws0 ws : Worksheet) :
  getActiveWorksheet wb = Some ws ->
  pivot_created n ws0 ws ->
  Forall (fun p => pivot_id p <> n) (pivotTables ws0) ->
  (forall w p r, f w p = Ok r -> exists p', r = Some p' /\ pivot_id p' = pivot_id p) ->
  on_pivot (handle n) f wb = (Ok tt, wb') ->
  exists ws', getActiveWorksheet wb' = Some ws' /\ pivot_created n ws0 ws'.
Proof.
  intros Ha (p & Hid & Hl & Hc & Hs) Hfresh Hf. unfold on_pivot, on_sheet.
  rewrite Ha, as_id_handle, Hl, find_created by assumption.
  destruct (f ws p) as [r | e] eqn:Ef; [ | discriminate].
  destruct (Hf _ _ _ Ef) as (p' & -> & Hid').
  intros [= <-]. eexists. split.
  { apply (find_put_sheet ws (with_pivotTables ws _) wb Ha eq_refl). }
  exists p'. cbn [charts pivotTables sheet_id with_pivotTables].
  rewrite omap_snoc, omap_by_id by assumption.
  rewrite Hid, Nat.eqb_refl. repeat split; congruence.
Qed.

Lemma for_each_created (n : nat) (fields : list Value)
    (body : Value -> Worksheet -> PivotTable -> Outcome (option PivotTable))
    (wb wb' : Workbook) (ws0 ws : Worksheet) :
  getActiveWorksheet wb = Some ws ->
  pivot_created n ws0 ws ->
  Forall (fun p => pivot_id p <> n) (pivotTables ws0) ->
  (forall field w p r, body field w p = Ok r ->
     exists p', r = Some p' /\ pivot_id p' = pivot_id p) ->
  for_each fields (fun field => on_pivot (handle n) (body field)) wb = (Ok tt, wb') ->
  exists ws', getActiveWorksheet wb' = Some ws' /\ pivot_created n ws0 ws'.
Proof.
  intros Ha Hc Hfresh Hb. revert wb ws Ha Hc.
  induction fields as [| field fields IH]; intros wb ws Ha Hc; cbn [for_each].
  - intros [= <-]. eauto.
  - unfold bind.
    destruct (on_pivot (handle n) (body field) wb) as [[[] | e] wb_a] eqn:E; [ | discriminate].
    destruct (on_pivot_created n (body field) wb wb_a ws0 ws Ha Hc Hfresh (Hb field) E)
      as (ws_a & Ha_a & Hc_a).
    eapply IH; eassumption.
Qed.

Lemma has_pivot_created (n : nat) (ws0 ws : Worksheet) :
  pivot_created n ws0 ws -> has_pivot n ws = true.
Proof.
  intros (c & Hc & Hl & _). unfold has_pivot. rewrite Hl, existsb_app. cbn.
  rewrite Hc, Nat.eqb_refl. apply orb_true_r.
Qed.

Lemma pivot_delete_by_id (n : nat) (wb : Workbook) (ws : Worksheet) :
  getActiveWorksheet wb = Some ws ->
  has_pivot n ws = true ->
  exists wb',
    Sheet.pivot_delete (handle n) wb = (Ok tt, wb') /\
    getActiveWorksheet wb'
      = Some (with_pivotTables ws
                (List.filter (fun p => negb (pivot_id p =? n)%nat) (pivotTables ws))).
Proof.
  intros Ha Hh. unfold Sheet.pivot_delete, on_pivot.
  match goal with
  | |- context [on_sheet ?F wb] =>
      destruct (on_sheet_Ok F wb ws
                  (with_pivotTables ws
                     (omap (fun p => if (pivot_id p =? n)%nat then None else Some p)
                        (pivotTables ws)))
                  tt (next_id wb) Ha) as (wb' & E & Hw & _)
  end.
  - rewrite as_id_handle. unfold has_pivot in Hh.
    apply existsb_exists in Hh as (p & Hin & Hp).
    destruct (find (fun p0 => (pivot_id p0 =? n)%nat) (pivotTables ws)) as [q | ] eqn:Ef.
    + reflexivity.
    + eapply find_none in Ef; [ | exact Hin]. congruence.
  - reflexivity.
  - exists wb'. split; [exact E | ]. rewrite Hw, omap_delete_filter. reflexivity.
Qed.

Section Objects.
Variable evaluate : Value -> Value.

Lemma createPivotTable_creates (address : string) (options : Value)
    (wb wb1 : Workbook) (ws : Worksheet) (inverse : Inverse) :
  Forall (fun p => pivot_id p <> next_id wb) (pivotTables ws) ->
  getActiveWorksheet wb = Some ws ->
  createPivotTable (Sheet.host evaluate) address options wb = (Ok inverse, wb1) ->
  inverse = Sheet.pivot_delete (handle (next_id wb)) /\
  exists ws1, getActiveWorksheet wb1 = Some ws1 /\ pivot_created (next_id wb) ws ws1.
Proof.
  intros Hfresh Ha. unfold createPivotTable.
  cbn [Office.pivotTables_add Office.pivot_add_rowHierarchy Office.pivot_add_dataHierarchy
       Office.pivot_delete Sheet.host].
  unfold js. unfold bind at 1.
  destruct (get_prop options "name") as [o_name | e]; [ | discriminate].
  unfold bind at 1.
  destruct (forEach_items (get_prop_opt options "rowFields")) as [rowFields | e];
    [ | discriminate].
  unfold bind at 1.
  destruct (forEach_items (get_prop_opt options "dataFields")) as [dataFields | e];
    [ | discriminate].
  unfold bind at 1. unfold Sheet.pivotTables_add at 1, on_sheet at 1. rewrite Ha.
  destruct (js_or o_name (VStr "ManicePivotTable")) as [ | | | | pn | | ]; try discriminate.
  destruct (resolve (name ws) address) as [src | ]; [ | discriminate].
  destruct (js_or (get_prop_opt options "destination") (VStr "H1")) as [ | | | | d | | ];
    try discriminate.
  destruct (resolve (name ws) d) as [dst | ]; [ | discriminate].
  destruct (existsb _ (pivotTables ws)); [discriminate | ].
  set (p0 := {| pivot_id := next_id wb; pivot_name := pn; pivot_source := src;
                pivot_destination := dst; rowHierarchies := []; dataHierarchies := [] |}).
  set (wb_a := {| worksheets :=
                    worksheets (put_sheet (with_pivotTables ws (pivotTables ws ++ [p0])) wb);
                  active := active wb; next_id := S (next_id wb) |}).
  assert (Ha_a : getActiveWorksheet wb_a = Some (with_pivotTables ws (pivotTables ws ++ [p0])))
    by (eapply find_put_sheet; [exact Ha | reflexivity]).
  assert (Hc_a : pivot_created (next_id wb) ws (with_pivotTables ws (pivotTables ws ++ [p0])))
    by (exists p0; repeat split).
  unfold bind at 1.
  destruct (for_each rowFields _ wb_a) as [[[] | e] wb_b] eqn:Eb; [ | discriminate].
  unfold Sheet.pivot_add_rowHierarchy in Eb.
  eapply for_each_created in Eb as (ws_b & Ha_b & Hc_b);
    [ | exact Ha_a | exact Hc_a | exact Hfresh | ].
  2:{ intros field w p r. cbn beta.
      destruct (is_header evaluate field (pivot_source p) w); [ | discriminate].
      intros [= <-]. eexists. split; reflexivity. }
  unfold bind at 1.
  destruct (for_each dataFields _ wb_b) as [[[] | e] wb_c] eqn:Ec; [ | discriminate].
  unfold Sheet.pivot_add_dataHierarchy in Ec.
  eapply for_each_created in Ec as (ws_c & Ha_c & Hc_c);
    [ | exact Ha_b | exact Hc_b | exact Hfresh | ].
  2:{ intros field w p r. cbn beta.
      destruct (is_header evaluate field (pivot_source p) w); [ | discriminate].
      intros [= <-]. eexists. split; reflexivity. }
  unfold ret. intros [= <- <-]. split; [reflexivity | eauto].
Qed.

Lemma createChart_creates (address : string) (options : Value)
    (wb wb1 : Workbook) (ws : Worksheet) (inverse : Inverse) :
  Forall (fun c => chart_id c <> next_id wb) (charts ws) ->
  getActiveWorksheet wb = Some ws ->
  createChart (Sheet.host evaluate) address options wb = (Ok inverse, wb1) ->
  inverse = Sheet.chart_delete (handle (next_id wb)) /\
  exists ws1, getActiveWorksheet wb1 = Some ws1 /\ chart_created (next_id wb) ws ws1.
Proof.
  intros Hfresh Ha. unfold createChart.
  cbn [Office.charts_add Office.chart_set_title Office.chart_set_position
       Office.chart_delete Sheet.host].
  unfold js. unfold bind at 1.
  destruct (get_prop options "type") as [o_type | e] eqn:Et; [ | discriminate].
  assert (Ho : forall p, get_prop options p = Ok (get_prop_opt options p)).
  { destruct options; try discriminate; reflexivity. }
  rewrite !Ho.
  unfold bind at 1. unfold Sheet.charts_add at 1, on_sheet at 1. rewrite Ha.
  destruct (js_or o_type (VStr "ColumnClustered")) as [ | | | | ty | | ] eqn:Ety;
    try discriminate.
  destruct (resolve (name ws) address) as [a | ] eqn:Hp; [ | discriminate].
  set (c0 := {| chart_id := next_id wb; chart_type := VStr ty; chart_source := a;
                chart_title := VUndefined; chart_position := None |}).
  set (wb_a := {| worksheets := worksheets (put_sheet (with_charts ws (charts ws ++ [c0])) wb);
                  active := active wb; next_id := S (next_id wb) |}).
  assert (Ha_a : getActiveWorksheet wb_a = Some (with_charts ws (charts ws ++ [c0])))
    by (eapply find_put_sheet; [exact Ha | reflexivity]).
  assert (Hc_a : chart_created (next_id wb) ws (with_charts ws (charts ws ++ [c0])))
    by (exists c0; repeat split).
  (* the title *)
  assert (Htitle : exists wb_b ws_b,
            when (truthy (get_prop_opt options "title"))
              (Sheet.chart_set_title (handle (next_id wb)) (get_prop_opt options "title")) wb_a
            = (Ok tt, wb_b) /\
            getActiveWorksheet wb_b = Some ws_b /\ chart_created (next_id wb) ws ws_b).
  { unfold when. destruct (truthy (get_prop_opt options "title")).
    - eapply on_chart_created; try eassumption.
      intros c. eexists. split; reflexivity.
    - eauto. }
  destruct Htitle as (wb_b & ws_b & Eb & Ha_b & Hc_b).
  unfold bind at 1. unfold bind at 1. rewrite Eb.
  unfold bind at 1.
  (* the position *)
  match goal with
  | |- context [when ?c ?m] =>
      assert (Hpos : exists wb_c ws_c,
                when c m wb_b = (Ok tt, wb_c) /\
                getActiveWorksheet wb_c = Some ws_c /\ chart_created (next_id wb) ws ws_c)
  end.
  { unfold when. destruct (truthy (get_prop_opt options "position")).
    - eapply on_chart_created; try eassumption.
      intros c. eexists. split; reflexivity.
    - eauto. }
  destruct Hpos as (wb_c & ws_c & Ec & Ha_c & Hc_c).
  unfold bind at 1. rewrite Ec. unfold ret.
  intros [= <- <-]. split; [reflexivity | eauto].
Qed.


(** C8.  A chart creation ([createChart]; [createPivotTable] when [pivot])
    that succeeds has added one object, whose identifier is the one the
    workbook generated for it; the inverse is the deletion by that
    identifier.  Replayed on any later state of the worksheet that still
    has the object, it removes the objects with that identifier and leaves
    every other chart and pivot table as it is; replayed right after the
    creation, it leaves the charts and pivot tables that were there
    before. *)
Theorem created_object_is_deleted_by_id
    (pivot : bool) (address : string) (options : Value)
    (wb wb1 : Workbook) (ws : Worksheet) (inverse : Inverse) :
  let H := Sheet.host evaluate in
  let id := next_id wb in
  ids_issued wb = true ->
  getActiveWorksheet wb = Some ws ->
  (if pivot then createPivotTable H else createChart H) address options wb = (Ok inverse, wb1) ->
  inverse = (if pivot then Office.pivot_delete H else Office.chart_delete H) (handle id) /\
  (exists ws1, getActiveWorksheet wb1 = Some ws1 /\
     if pivot then pivot_created id ws ws1 else chart_created id ws ws1) /\
  (forall wb' ws',
     getActiveWorksheet wb' = Some ws' ->
     (if pivot then has_pivot id ws' else has_chart id ws') = true ->
     exists wb2 ws2,
       inverse wb' = (Ok tt, wb2) /\ getActiveWorksheet wb2 = Some ws2 /\
       charts ws2 =
         (if pivot then charts ws'
          else List.filter (fun c => negb (chart_id c =? id)%nat) (charts ws')) /\
       pivotTables ws2 =
         (if pivot then List.filter (fun p => negb (pivot_id p =? id)%nat) (pivotTables ws')
          else pivotTables ws')) /\
  (exists wb2 ws2,
     inverse wb1 = (Ok tt, wb2) /\ getActiveWorksheet wb2 = Some ws2 /\
     charts ws2 = charts ws /\ pivotTables ws2 = pivotTables ws).
Proof.
  intros H id Hi Ha Hrun. subst H id. destruct pivot.
  - destruct (createPivotTable_creates _ _ _ _ _ _ (ids_issued_pivots _ _ Hi Ha) Ha Hrun) as (-> & ws1 & Ha1 & Hc1).
    cbn [Office.pivot_delete Sheet.host].
    split; [reflexivity | ]. split; [eauto | ]. split.
    + intros wb' ws' Ha' Hh.
      destruct (pivot_delete_by_id _ _ _ Ha' Hh) as (wb2 & E & Ha2).
      exists wb2. eexists. split; [exact E | ]. split; [exact Ha2 | ]. split; reflexivity.
    + destruct (pivot_delete_by_id _ _ _ Ha1 (has_pivot_created _ _ _ Hc1)) as (wb2 & E & Ha2).
      exists wb2. eexists. split; [exact E | ]. split; [exact Ha2 | ].
      destruct Hc1 as (p & Hid & Hl & Hc & _).
      cbn [charts pivotTables with_pivotTables]. split; [exact Hc | ].
      rewrite Hl. apply filter_created; [ | exact Hid].
      apply ids_issued_pivots; assumption.
  - destruct (createChart_creates _ _ _ _ _ _ (ids_issued_charts _ _ Hi Ha) Ha Hrun) as (-> & ws1 & Ha1 & Hc1).
    cbn [Office.chart_delete Sheet.host].
    split; [reflexivity | ]. split; [eauto | ]. split.
    + intros wb' ws' Ha' Hh.
      destruct (chart_delete_by_id _ _ _ Ha' Hh) as (wb2 & E & Ha2).
      exists wb2. eexists. split; [exact E | ]. split; [exact Ha2 | ]. split; reflexivity.
    + destruct (chart_delete_by_id _ _ _ Ha1 (has_chart_created _ _ _ Hc1)) as (wb2 & E & Ha2).
      exists wb2. eexists. split; [exact E | ]. split; [exact Ha2 | ].
      destruct Hc1 as (p & Hid & Hl & Hc & _).
      cbn [charts pivotTables with_charts]. split; [ | exact Hc].
      rewrite Hl. apply filter_created; [ | exact Hid].
      apply ids_issued_charts; assumption.
Qed.

End Objects.
End ObjectLaws.

(** ** The service on concrete workbooks *)
Section Scenarios.
Import Laws Scenario.


(** C2, counterexample.  A1 holds the formula [=5]; the second step of the
    batch fails on its address; the rollback of the first step leaves the
    constant 5 in A1, not the formula.  The partial-failure law fails on
    this batch. *)
Lemma rollback_loses_formula :
  let batch := [cell_edit "A1" (VNum 1); cell_edit "bad address" (VNum 2)] in
  let s := start formula_in_A1 in
  let failed := executeOperations H batch s in
  fst failed = Throw Sheet.InvalidArgument /\
  fst (load_formulas H "A1" (document s)) = Ok (VArr [VArr [VStr "=5"]]) /\
  fst (load_formulas H "A1" (document (snd failed))) = Ok (VArr [VArr [VNum 5]]) /\
  ~ partial_failure_law H batch s.
Proof.
  split; [vm_compute; reflexivity | ].
  split; [vm_compute; reflexivity | ].
  split; [vm_compute; reflexivity | ].
  intros L.
  edestruct (L [cell_edit "A1" (VNum 1)] (cell_edit "bad address" (VNum 2)) [])
    as (_ & _ & Hr).
  - reflexivity.
  - vm_compute. reflexivity.
  - vm_compute. reflexivity.
  - destruct (Hr _ (or_introl eq_refl)) as [_ Hf]. vm_compute in Hf. discriminate Hf.
Qed.

(** C3, counterexample.  A [sheet_create] without a name is rolled back by
    [getItem(undefined).delete()], which fails.  The batch that has this
    secondary failure and the batch that has none hand the caller the same
    error: the error carries no trace of the secondary failure, which is in
    the console only. *)
Lemma rollback_error_not_carried :
  let clean := executeOperations H [cell_edit "bad address" (VNum 2)]
                 (start Sheet.new_workbook) in
  let failing := executeOperations H [sheet_create; cell_edit "bad address" (VNum 2)]
                   (start Sheet.new_workbook) in
  fst clean = Throw Sheet.InvalidArgument /\
  undo_failures (console (snd clean)) = [] /\
  fst failing = Throw Sheet.InvalidArgument /\
  undo_failures (console (snd failing)) = [Sheet.ItemNotFound] /\
  ~ rollback_errors_carried H.
Proof.
  split; [vm_compute; reflexivity | ].
  split; [vm_compute; reflexivity | ].
  split; [vm_compute; reflexivity | ].
  split; [vm_compute; reflexivity | ].
  intros [attached Ha].
  pose proof (Ha [cell_edit "bad address" (VNum 2)] (start Sheet.new_workbook) eq_refl) as A1.
  pose proof (Ha [sheet_create; cell_edit "bad address" (VNum 2)]
                (start Sheet.new_workbook) eq_refl) as A2.
  vm_compute in A1, A2. congruence.
Qed.

(** [formatRange] keeps [{...range.format.font}] for its inverse, which
    copies none of the loaded properties, and keeps nothing of the number
    format: the inverse assigns nothing.  After the batch and [undo], A1 is
    still bold and still formatted ["0.00"]. *)
Lemma undo_keeps_format :
  let batch :=
    [{| type := "format"; target := "A1"; value := VUndefined;
        options := VObj [("font", VObj [("bold", VBool true)]);
                         ("numberFormat", VStr "0.00")] |}] in
  let s := start Sheet.new_workbook in
  let undone := undo (snd (executeOperations H batch s)) in
  let A1 wb :=
    option_map (fun ws => Sheet.format_at (Sheet.formats ws) (1, 1))
      (Sheet.getActiveWorksheet wb) in
  let bold f := assoc "bold" (Sheet.font f) in
  fst (executeOperations H batch s) = Ok tt /\
  fst undone = Ok tt /\
  option_map bold (A1 (document s)) = Some (VBool false) /\
  option_map bold (A1 (document (snd undone))) = Some (VBool true) /\
  option_map Sheet.numberFormat (A1 (document s)) = Some (VStr "General") /\
  option_map Sheet.numberFormat (A1 (document (snd undone))) = Some (VStr "0.00").
Proof. repeat split; vm_compute; reflexivity. Qed.

(** [insertRows] and [insertColumns] do not depend on [count]. *)
Lemma insert_count_unused {Doc : Type} (H : Host Doc) (address : string) (n m : Value) :
  insertRows H address n = insertRows H address m /\
  insertColumns H address n = insertColumns H address m.
Proof. split; reflexivity. Qed.

(** C6, at the failing input.  Row 3 holds 1, 2, 3.  [insert_row] at A3:C3
    with value 3 does what it does with any other value: one row is
    inserted (the content is in row 4, rows 5 and 6 are blank).  Without a
    value, at the two-row target A3:C4, two rows are inserted. *)
Lemma insert_row_ignores_count :
  let s := start row3 in
  let after operation := document (snd (executeOperations H [operation] s)) in
  (forall n, executeOperations H [insert_row "A3:C3" (VNum n)] s
             = executeOperations H [insert_row "A3:C3" (VNum 3)] s) /\
  fst (load_values H "A3:C6" (after (insert_row "A3:C3" (VNum 3))))
  = Ok (VArr [VArr [VStr ""; VStr ""; VStr ""];
              VArr [VNum 1; VNum 2; VNum 3];
              VArr [VStr ""; VStr ""; VStr ""];
              VArr [VStr ""; VStr ""; VStr ""]]) /\
  fst (load_values H "A3:C6" (after (insert_row "A3:C4" VUndefined)))
  = Ok (VArr [VArr [VStr ""; VStr ""; VStr ""];
              VArr [VStr ""; VStr ""; VStr ""];
              VArr [VNum 1; VNum 2; VNum 3];
              VArr [VStr ""; VStr ""; VStr ""]]).
Proof.
  split; [ | split].
  - intros n. reflexivity.
  - vm_compute. reflexivity.
  - vm_compute. reflexivity.
Qed.

(** Scenario B: the second address is bad; A1 is blank again, the error is
    the one of the second step and the history is empty. *)
Lemma partial_failure_rolls_back_witness :
  exists s',
    executeOperations H [cell_edit "A1" (VNum 1); cell_edit "bad address" (VNum 2)]
      (start Sheet.new_workbook) = (Throw Sheet.InvalidArgument, s') /\
    document s' = Sheet.new_workbook /\
    undoStack s' = [].
Proof.
  edestruct (partial_failure_rolls_back H [cell_edit "A1" (VNum 1)]
               (cell_edit "bad address" (VNum 2)) [] (start Sheet.new_workbook))
    as (s' & E & _ & _ & Hu & _ & Hd).
  - vm_compute. reflexivity.
  - vm_compute. reflexivity.
  - exists s'. split; [exact E | ]. split; [ | exact Hu].
    apply Hd.
    + vm_compute. split; reflexivity.
    + vm_compute. reflexivity.
Defined.

(** The failed deletion of the unnamed worksheet is in the console. *)
Lemma rollback_errors_are_logged_witness :
  exists s',
    executeOperations H [sheet_create; cell_edit "bad address" (VNum 2)]
      (start Sheet.new_workbook) = (Throw Sheet.InvalidArgument, s') /\
    undo_failures (console s') = [Sheet.ItemNotFound].
Proof.
  edestruct (rollback_errors_are_logged H [sheet_create; cell_edit "bad address" (VNum 2)]
               (start Sheet.new_workbook)) as (s' & E & _ & _ & Hf).
  - vm_compute. reflexivity.
  - exists s'. split; [exact E | ]. rewrite Hf. vm_compute. reflexivity.
Defined.

(** The 51st push drops the oldest entry. *)
Lemma undo_history_capacity_witness :
  length (undoStack full_history) = 50 /\
  exists s',
    addToUndoStack (throw Sheet.ItemNotFound) full_history = (Ok tt, s') /\
    length (undoStack s') = 50 /\
    undoStack s' = repeat (ret tt) 49 ++ [throw Sheet.ItemNotFound].
Proof.
  split; [reflexivity | ].
  destruct (undo_history_capacity (throw Sheet.ItemNotFound) full_history)
    as (s' & E & Hle & _ & Hfull & _).
  - vm_compute. lia.
  - exists s'. split; [exact E | ]. rewrite Hfull by reflexivity. split; reflexivity.
Defined.

(** A batch with an unknown kind in the middle does what the batch without
    it does, and warns. *)
Lemma unknown_kind_is_a_noop_witness :
  executeOperations H [cell_edit "A1" (VNum 5); unknown; cell_edit "B1" (VNum 6)]
    (start Sheet.new_workbook)
  = (let '(r, s) :=
       executeOperations H [cell_edit "A1" (VNum 5); cell_edit "B1" (VNum 6)]
         (start Sheet.new_workbook) in
     (r, with_console s [ConsoleWarn "Unknown operation type: merge_cells"])).
Proof.
  destruct (unknown_kind_is_a_noop H unknown eq_refl) as (_ & _ & Hmid & _).
  unfold executeOperations.
  rewrite (Hmid [cell_edit "A1" (VNum 5)] [cell_edit "B1" (VNum 6)]).
  vm_compute. reflexivity.
Defined.

(** Two unknown kinds push nothing; [undo] then runs the earlier entry. *)
Lemma no_inverse_no_entry_witness :
  exists s1,
    executeOperations H [unknown; unknown] one_entry = (Ok tt, s1) /\
    undoStack s1 = undoStack one_entry /\
    fst (load_values H "A1" (document (snd (undo s1)))) = Ok (VArr [VArr [VStr "earlier"]]).
Proof.
  eexists.
  edestruct (no_inverse_no_entry H [unknown; unknown] one_entry)
    as (E & _ & Hu & _ & Hundo & _).
  - vm_compute. reflexivity.
  - split; [exact E | ]. split; [exact Hu | ].
    rewrite (Hundo [] _ eq_refl). vm_compute. reflexivity.
Defined.

Lemma literal_engine_storable (v : Value) :
  Sheet.storable v = true -> Sheet.storable (Sheet.literal_engine v) = true.
Proof.
  destruct v as [ | | | | s | | ]; try (intros; assumption). intros _. cbn.
  destruct s as [| c s]; [reflexivity | ].
  destruct c as [[] [] [] [] [] [] [] []]; try reflexivity.
  destruct (_ && _); reflexivity.
Qed.


(** Scenario D: the inverse of the second chart leaves the first. *)
Lemma created_object_is_deleted_by_id_witness :
  exists inverse wb1 wb2,
    createChart H "A1:B5" (VObj [("type", VStr "Pie")]) one_chart = (Ok inverse, wb1) /\
    Sheet.chart_ids wb1 = [1; 2] /\
    inverse wb1 = (Ok tt, wb2) /\
    Sheet.chart_ids wb2 = [1].
Proof.
  destruct (createChart H "A1:B5" (VObj [("type", VStr "Pie")]) one_chart)
    as [[inverse | e] wb1] eqn:E; [ | succeeds E].
  destruct (created_object_is_deleted_by_id Sheet.literal_engine false "A1:B5"
              (VObj [("type", VStr "Pie")]) one_chart wb1
              (Sheet.with_charts (Sheet.blank_sheet 0 "Sheet1")
                 [{| Sheet.chart_id := 1; Sheet.chart_type := VStr "Line";
                     Sheet.chart_source := Sheet.span 1 1 2 2;
                     Sheet.chart_title := VStr "Sales"; Sheet.chart_position := None |}])
              inverse)
    as (_ & (ws1 & Ha1 & c & Hid & Hl & _) & _ & (wb2 & ws2 & Ei & Ha2 & Hc & _)).
  - vm_compute. reflexivity.
  - vm_compute. reflexivity.
  - exact E.
  - exists inverse, wb1, wb2. split; [reflexivity | ].
    unfold Sheet.chart_ids. rewrite Ha1, Ha2, Hl, Hc, map_app. cbn [map]. rewrite Hid.
    repeat split. exact Ei.
Defined.

End Scenarios.

(** ** Sessions over any document surface *)
Section SessionLaws.
Import Session.

Context {Doc : Type} (H : Host Doc).

Implicit Types (s : State (Doc := Doc)) (u : Inverse (Doc := Doc)).

(** What the history is after a push, as a suffix. *)
Lemma limited_skipn {A} (l : list A) (x : A) :
  (length l <= maxUndoSteps)%nat ->
  (if (maxUndoSteps <? length (l ++ [x]))%nat then tl (l ++ [x]) else l ++ [x])
  = skipn (length l + 1 - maxUndoSteps) (l ++ [x]).
Proof.
  intros Hlen. rewrite length_app. cbn [length]. unfold maxUndoSteps in *.
  destruct (Nat.ltb_spec 50 (length l + 1)).
  - replace (length l + 1 - 50)%nat with 1%nat by lia. reflexivity.
  - replace (length l + 1 - 50)%nat with 0%nat by lia. reflexivity.
Qed.

Lemma Reversible_runs (operations : list ExcelOperation) (acc : list Inverse) s :
  Reversible H operations s ->
  exists undoOps s', run_operations H operations acc s = (Ok tt, undoOps, s').
Proof.
  revert acc s. induction operations as [| op ops IH]; intros acc s; cbn.
  - eauto.
  - destruct (executeOperation H op s) as [[[u|]|e] s'].
    + intros [_ Hr]. apply IH, Hr.
    + intros Hr. apply IH, Hr.
    + intros [].
Qed.

(** A reversible batch that yields an inverse: what [executeOperations]
    leaves. *)
Lemma executeOperations_reversible (operations : list ExcelOperation) s :
  Reversible H operations s ->
  collected H operations s <> [] ->
  exists entry d log,
    executeOperations H operations s =
      (Ok tt,
       {| document := d;
          undoStack := if (maxUndoSteps <? length (undoStack s ++ [entry]))%nat
                       then tl (undoStack s ++ [entry]) else undoStack s ++ [entry];
          redoStack := []; console := log |}) /\
    entry d = (Ok tt, document s).
Proof.
  intros Hrev Hne.
  destruct (Reversible_runs operations [] s Hrev) as (undoOps & s1 & R).
  pose proof (run_operations_stacks _ _ _ _ _ _ _ R) as [Hu Hr].
  destruct (composite_restores _ _ _ _ _ _ Hrev R) as (rest & Hrest & Hc & _ & Hn).
  rewrite app_nil_r in Hrest. subst rest. specialize (Hn Hne).
  exists (composite undoOps), (document s1), (console s1). split; [ | exact Hc].
  unfold executeOperations. rewrite R.
  assert ((0 <? length undoOps)%nat = true) as ->
    by (apply Nat.ltb_lt; destruct undoOps; cbn; [congruence | lia]).
  rewrite addToUndoStack_spec, Hu. reflexivity.
Qed.

Lemma undo_times_succ (n : nat) s :
  undo_times (S n) s = (undo_times n ;; undo)%act s.
Proof.
  revert s. induction n as [| n IH]; intros s.
  - cbn. unfold bind, ret. destruct (undo s) as [[[]|e] s']; reflexivity.
  - change (undo_times (S (S n)) s) with ((undo ;; undo_times (S n))%act s).
    unfold bind at 1. destruct (undo s) as [[[]|e] s'] eqn:E.
    + rewrite IH. cbn [undo_times]. unfold bind. rewrite E. reflexivity.
    + cbn [undo_times]. unfold bind. rewrite E. reflexivity.
Qed.

(** X1.  last in, first out.  After up to 50 batches, each reversible and
    yielding an inverse, as many calls of [undo] all succeed and bring the
    document back to where the first batch found it; the history is the
    earlier one, less the oldest entries that the pushes pushed out. *)
Theorem undo_is_last_in_first_out (batches : list (list ExcelOperation)) s :
  Undoable H batches s ->
  (length batches <= maxUndoSteps)%nat ->
  (length (undoStack s) <= maxUndoSteps)%nat ->
  exists s',
    (execute_all H batches ;; undo_times (length batches))%act s = (Ok tt, s') /\
    document s' = document s /\
    undoStack s' =
      skipn (length (undoStack s) + length batches - maxUndoSteps) (undoStack s).
Proof.
  revert s. induction batches as [| operations rest IH]; intros s Hall Hn Hlen.
  - exists s. cbn. rewrite Nat.add_0_r.
    replace (length (undoStack s) - maxUndoSteps)%nat with 0%nat by lia.
    repeat split.
  - destruct Hall as (Hrev & Hne & Hrest).
    destruct (executeOperations_reversible operations s Hrev Hne) as (entry & d & log & E & Hentry).
    rewrite E in Hrest. cbn [snd] in Hrest.
    rewrite limited_skipn in E, Hrest by assumption.
    set (s1 := {| document := d;
                  undoStack := skipn (length (undoStack s) + 1 - maxUndoSteps)
                                 (undoStack s ++ [entry]);
                  redoStack := []; console := log |}) in *.
    cbn [length] in Hn.
    assert (Hlen1 : (length (undoStack s1) <= maxUndoSteps)%nat).
    { subst s1. cbn [undoStack]. rewrite length_skipn, length_app. cbn [length]. lia. }
    destruct (IH s1 Hrest ltac:(lia) Hlen1) as (s1' & Erest & Hd & Hst).
    assert (Hst' : undoStack s1' =
                   skipn (length (undoStack s) + S (length rest) - maxUndoSteps) (undoStack s)
                     ++ [entry]).
    { rewrite Hst. subst s1. cbn [undoStack].
      rewrite length_skipn, length_app. cbn [length].
      rewrite skipn_skipn, skipn_app. unfold maxUndoSteps in *.
      replace (length (undoStack s) + 1 - (length (undoStack s) + 1 - 50) + length rest - 50 +
               (length (undoStack s) + 1 - 50) - length (undoStack s))%nat with 0%nat by lia.
      cbn [skipn]. f_equal. f_equal. lia. }
    eexists. split; [ | split].
    + change (length (operations :: rest)) with (S (length rest)).
      unfold execute_all in *. cbn [for_each]. unfold bind in Erest |- *.
      rewrite E.
      destruct (for_each rest (executeOperations H) s1) as [[[]|e] s2]; [ | discriminate Erest].
      rewrite undo_times_succ. unfold bind. rewrite Erest.
      unfold undo. rewrite Hst', pop_snoc. rewrite excel_run_spec. fields.
      rewrite Hd. subst s1. fields. rewrite Hentry. reflexivity.
    + reflexivity.
    + reflexivity.
Qed.


(** X2.  the redo stack is never used.  Whatever batches are executed and
    undone, nothing is ever recorded for redo: [undo] discards the entry it
    pops. *)
Theorem redo_stack_stays_empty s :
  Reachable H s -> redoStack s = [].
Proof.
  induction 1 as [d log | operations s _ IH | s _ IH | s d _ IH].
  - reflexivity.
  - destruct (run_operations H operations [] s) as [[[[]|e] undoOps] s1] eqn:R.
    + unfold executeOperations. rewrite R.
      destruct (0 <? length undoOps)%nat; [reflexivity | ].
      apply run_operations_stacks in R as [_ R2]. fields. congruence.
    + rewrite (executeOperations_failure H _ _ _ _ _ R). exact IH.
  - unfold undo. destruct (pop (undoStack s)) as [[u rest] | ]; [ | exact IH].
    rewrite excel_run_spec. exact IH.
  - exact IH.
Qed.

Lemma push_all_app (us vs : list Inverse) s :
  push_all (us ++ vs) s = push_all vs (push_all us s).
Proof. apply fold_left_app. Qed.

(** X3.  the history is the most recent 50.  After any number of pushes the
    history holds the last 50 of the entries it held and the ones pushed,
    in the order they were pushed. *)
Theorem history_keeps_most_recent (us : list Inverse) s :
  (length (undoStack s) <= maxUndoSteps)%nat ->
  undoStack (push_all us s) =
    skipn (length (undoStack s ++ us) - maxUndoSteps) (undoStack s ++ us).
Proof.
  revert s. induction us as [| u us IH]; intros s Hlen.
  - cbn. rewrite app_nil_r.
    replace (length (undoStack s) - maxUndoSteps)%nat with 0%nat by lia. reflexivity.
  - cbn [push_all fold_left]. fold (push_all us (snd (addToUndoStack u s))).
    rewrite addToUndoStack_spec. cbn [snd].
    rewrite limited_skipn by assumption.
    rewrite IH; cbn [undoStack].
    + assert (E : skipn (length (undoStack s) + 1 - maxUndoSteps) (undoStack s ++ [u]) ++ us
                  = skipn (length (undoStack s) + 1 - maxUndoSteps) (undoStack s ++ u :: us)).
      { replace (undoStack s ++ u :: us) with ((undoStack s ++ [u]) ++ us)
          by (rewrite <- app_assoc; reflexivity).
        rewrite (skipn_app (length (undoStack s) + 1 - maxUndoSteps) (undoStack s ++ [u])).
        rewrite length_app. cbn [length].
        replace (length (undoStack s) + 1 - maxUndoSteps - (length (undoStack s) + 1))%nat
          with 0%nat by lia.
        reflexivity. }
      rewrite E, skipn_skipn. f_equal.
      rewrite length_skipn, !length_app. cbn [length]. unfold maxUndoSteps in *. lia.
    + rewrite length_skipn, length_app. cbn [length]. lia.
Qed.

Lemma pop_limited {A} (l : list A) (x : A) :
  pop (if (maxUndoSteps <? length (l ++ [x]))%nat then tl (l ++ [x]) else l ++ [x])
  = Some (x, if (length l <? maxUndoSteps)%nat then l else tl l).
Proof.
  rewrite length_app. cbn [length]. unfold maxUndoSteps.
  destruct (Nat.ltb_spec 50 (length l + 1)); destruct (Nat.ltb_spec (length l) 50); try lia.
  - rewrite tl_snoc by (destruct l; cbn in *; [lia | congruence]). apply pop_snoc.
  - apply pop_snoc.
Qed.

(** X4.  [undo] stops at the first inverse that fails, and the entry is
    spent.  After a batch that succeeded, [undo] runs the inverses of the
    batch most recent first; when one of them fails, its error reaches the
    caller, the inverses of the earlier steps are not run (the document is
    as the failing inverse left it), and the entry has left the history, so
    the rest of the batch can no longer be undone. *)
Theorem undo_stops_at_first_failure
    (operations : list ExcelOperation) s (undoOperations : list Inverse) s1
    (done : list Inverse) (failing : Inverse) (skipped : list Inverse)
    (error : Error) (d1 d2 : Doc) :
  run_operations H operations [] s = (Ok tt, undoOperations, s1) ->
  undoOperations = done ++ failing :: skipped ->
  composite done (document s1) = (Ok tt, d1) ->
  failing d1 = (Throw error, d2) ->
  exists s2 s3,
    executeOperations H operations s = (Ok tt, s2) /\
    undo s2 = (Throw error, s3) /\
    document s3 = d2 /\
    undoStack s3 =
      (if (length (undoStack s) <? maxUndoSteps)%nat then undoStack s else tl (undoStack s)) /\
    redoStack s3 = [] /\
    console s3 = console s2.
Proof.
  intros R Hshape Hdone Hfail.
  pose proof (run_operations_stacks _ _ _ _ _ _ _ R) as [Hu Hr].
  unfold executeOperations. rewrite R.
  assert ((0 <? length undoOperations)%nat = true) as ->.
  { subst undoOperations. rewrite length_app. cbn [length]. apply Nat.ltb_lt. lia. }
  rewrite addToUndoStack_spec. do 2 eexists. split; [reflexivity | ].
  unfold undo. fields. rewrite Hu, pop_limited, excel_run_spec. fields.
  assert (Hrun : composite undoOperations (document s1) = (Throw error, d2)).
  { subst undoOperations. unfold composite in *. rewrite for_each_app, Hdone.
    cbn [for_each]. unfold bind. rewrite Hfail. reflexivity. }
  rewrite Hrun. fields. repeat split.
Qed.

Lemma recognized_handler (operation : ExcelOperation) :
  recognized (type operation) = true ->
  exists m, executeOperation H operation = handler m.
Proof.
  intros Hr. destruct (executeOperation_cases H operation) as [Hm | [Hn _]];
    [exact Hm | congruence].
Qed.

(** A step of the dispatcher reads the document only: from a state with
    the same document it has the same outcome, leaves the same document and
    writes the same lines. *)
Lemma executeOperation_frame (operation : ExcelOperation) s t r s' :
  document s = document t ->
  executeOperation H operation s = (r, s') ->
  console s' = console s ++ warnings [operation] /\
  executeOperation H operation t =
    (r, {| document := document s'; undoStack := undoStack t;
           redoStack := redoStack t; console := console t ++ warnings [operation] |}).
Proof.
  intros Hd. unfold warnings. cbn [List.filter].
  destruct (recognized (type operation)) eqn:Hr; cbn [negb map].
  - destruct (recognized_handler operation Hr) as [m ->].
    rewrite !handler_spec, <- Hd.
    destruct (m (document s)) as [[u|e] d]; intros [= <- <-]; fields;
      rewrite !app_nil_r; split; reflexivity.
  - rewrite (executeOperation_unknown H operation Hr). cbn. unfold bind, ret. cbn.
    intros [= <- <-]. fields. rewrite Hd. split; reflexivity.
Qed.

Lemma warnings_cons (operation : ExcelOperation) (operations : list ExcelOperation) :
  warnings (operation :: operations) = warnings [operation] ++ warnings operations.
Proof.
  unfold warnings. cbn [List.filter].
  destruct (negb (recognized (type operation))); reflexivity.
Qed.

Lemma warnings_app (before after : list ExcelOperation) :
  warnings (before ++ after) = warnings before ++ warnings after.
Proof.
  unfold warnings. rewrite List.filter_app, map_app. reflexivity.
Qed.

(** The loop reads the document only. *)
Lemma run_operations_frame (operations : list ExcelOperation) (acc acc' : list Inverse)
    s t r undoOps s' :
  document s = document t ->
  run_operations H operations acc s = (r, undoOps, s') ->
  exists new lines,
    undoOps = new ++ acc /\
    console s' = console s ++ lines /\
    run_operations H operations acc' t =
      (r, new ++ acc',
       {| document := document s'; undoStack := undoStack t; redoStack := redoStack t;
          console := console t ++ lines |}).
Proof.
  revert acc acc' s t. induction operations as [| op ops IH]; intros acc acc' s t Hd; cbn.
  - intros [= <- <- <-]. exists [], []. rewrite !app_nil_r, Hd.
    repeat split. destruct t; reflexivity.
  - destruct (executeOperation H op s) as [o s1] eqn:E.
    destruct (executeOperation_frame op s t o s1 Hd E) as [Hc ->].
    set (t1 := {| document := document s1; undoStack := undoStack t;
                  redoStack := redoStack t; console := console t ++ warnings [op] |}).
    destruct o as [[u|]|e].
    + intros R.
      destruct (IH (u :: acc) (u :: acc') s1 t1 eq_refl R) as (new & lines & -> & Hl & ->).
      exists (new ++ [u]), (warnings [op] ++ lines). subst t1. fields.
      rewrite <- !app_assoc. split; [reflexivity | ]. split; [ | reflexivity].
      rewrite Hl, Hc, <- app_assoc. reflexivity.
    + intros R.
      destruct (IH acc acc' s1 t1 eq_refl R) as (new & lines & -> & Hl & ->).
      exists new, (warnings [op] ++ lines). subst t1. fields.
      rewrite <- !app_assoc. split; [reflexivity | ]. split; [ | reflexivity].
      rewrite Hl, Hc, <- app_assoc. reflexivity.
    + intros [= <- <- <-]. exists [], (warnings [op]). repeat split. exact Hc.
Qed.

(** A loop that succeeds has written the warnings of its batch. *)
Lemma run_operations_warnings (operations : list ExcelOperation) (acc : list Inverse)
    s undoOps s' :
  run_operations H operations acc s = (Ok tt, undoOps, s') ->
  console s' = console s ++ warnings operations.
Proof.
  revert acc s. induction operations as [| op ops IH]; intros acc s; cbn [run_operations].
  - intros [= _ <-]. symmetry. apply app_nil_r.
  - rewrite warnings_cons.
    destruct (executeOperation H op s) as [o s1] eqn:E.
    destruct (executeOperation_frame op s s o s1 eq_refl E) as [Hc _].
    destruct o as [[u|]|e]; [ | | discriminate];
      intros R; apply IH in R; rewrite R, Hc, <- app_assoc; reflexivity.
Qed.

(** What a call of [executeOperations] that succeeds has done. *)
Lemma executeOperations_Ok (operations : list ExcelOperation) s s' :
  executeOperations H operations s = (Ok tt, s') ->
  exists undoOps s0,
    run_operations H operations [] s = (Ok tt, undoOps, s0) /\
    document s' = document s0 /\ console s' = console s0.
Proof.
  unfold executeOperations.
  destruct (run_operations H operations [] s) as [[[[]|e] undoOps] s0] eqn:R.
  - destruct (0 <? length undoOps)%nat.
    + rewrite addToUndoStack_spec. intros [= <-]. eauto.
    + intros [= <-]. eauto.
  - unfold bind. cbn [console_log]. rewrite rollback_spec. unfold throw. discriminate.
Qed.

Lemma run_operations_executeOperations (operations : list ExcelOperation) s undoOps s0 :
  run_operations H operations [] s = (Ok tt, undoOps, s0) ->
  exists s', executeOperations H operations s = (Ok tt, s') /\
    document s' = document s0 /\ console s' = console s0.
Proof.
  intros R. unfold executeOperations. rewrite R.
  destruct (0 <? length undoOps)%nat.
  - rewrite addToUndoStack_spec. eauto.
  - eauto.
Qed.

(** X5.  the diagnostics of a batch.  A batch that succeeds writes to the
    console one warning for each descriptor of an unrecognized kind, in the
    order of the batch, and nothing else. *)
Theorem successful_batch_console (operations : list ExcelOperation) s s' :
  executeOperations H operations s = (Ok tt, s') ->
  console s' = console s ++ warnings operations.
Proof.
  intros E. destruct (executeOperations_Ok _ _ _ E) as (undoOps & s0 & R & _ & ->).
  eapply run_operations_warnings, R.
Qed.

(** X6.  batching decides what one [undo] reverts, not what is done.  A batch
    [before ++ after] succeeds exactly when [before] and then [after],
    executed as two batches, both succeed, and the document and the console
    are then the same. *)
Theorem batch_can_be_split (before after : list ExcelOperation) s :
  (forall s', executeOperations H (before ++ after) s = (Ok tt, s') ->
     exists s1 s2,
       executeOperations H before s = (Ok tt, s1) /\
       executeOperations H after s1 = (Ok tt, s2) /\
       document s2 = document s' /\ console s2 = console s') /\
  (forall s1 s2,
     executeOperations H before s = (Ok tt, s1) ->
     executeOperations H after s1 = (Ok tt, s2) ->
     exists s',
       executeOperations H (before ++ after) s = (Ok tt, s') /\
       document s' = document s2 /\ console s' = console s2).
Proof.
  split.
  - intros s' E. destruct (executeOperations_Ok _ _ _ E) as (undoOps & s0 & R & Hd & Hc).
    rewrite run_operations_app in R.
    destruct (run_operations H before [] s) as [[[[]|e] u1] sa] eqn:Ra; [ | discriminate R].
    destruct (run_operations_executeOperations _ _ _ _ Ra) as (s1 & E1 & Hd1 & Hc1).
    destruct (run_operations_frame after u1 [] sa s1 _ _ _ (eq_sym Hd1) R)
      as (new & lines & _ & Hl & Rb).
    destruct (run_operations_executeOperations _ _ _ _ Rb) as (s2 & E2 & Hd2 & Hc2).
    exists s1, s2. repeat split; try assumption.
    + rewrite Hd2, Hd. reflexivity.
    + rewrite Hc2, Hc, Hl, Hc1. reflexivity.
  - intros s1 s2 E1 E2.
    destruct (executeOperations_Ok _ _ _ E1) as (u1 & sa & Ra & Hd1 & Hc1).
    destruct (executeOperations_Ok _ _ _ E2) as (u2 & sb & Rb & Hd2 & Hc2).
    destruct (run_operations_frame after [] u1 s1 sa _ _ _ Hd1 Rb)
      as (new & lines & _ & Hl & Rb').
    assert (R : run_operations H (before ++ after) [] s = (Ok tt, new ++ u1,
                {| document := document sb; undoStack := undoStack sa;
                   redoStack := redoStack sa; console := console sa ++ lines |})).
    { rewrite run_operations_app, Ra. exact Rb'. }
    destruct (run_operations_executeOperations _ _ _ _ R) as (s' & E & Hd & Hc).
    exists s'. repeat split; try assumption.
    + rewrite Hd, Hd2. reflexivity.
    + rewrite Hc, Hc2, Hl, Hc1. reflexivity.
Qed.

Lemma handler_ext (m m' : Act Doc Inverse) s :
  m (document s) = m' (document s) -> handler m s = handler m' s.
Proof. intros E. rewrite !handler_spec, E. reflexivity. Qed.

(** X7.  descriptors without [options].  When [options] is absent (or
    [null]), a chart, conditional-format, filter or pivot-table descriptor
    fails with a [TypeError] before any request reaches the document; a
    format or sort descriptor fails with a [TypeError] once it has loaded
    the target, and writes nothing; a sheet_create descriptor does not need
    its options. *)
Theorem options_are_required (operation : ExcelOperation) s :
  options operation = VUndefined \/ options operation = VNull ->
  (In (type operation) ["chart"; "conditional_format"; "filter"; "pivot_table"] ->
     exists msg, executeOperation H operation s = (Throw (TypeError msg), s)) /\
  (type operation = "format" ->
     exists msg,
       executeOperation H operation s =
         handler (load_font H (target operation) ;;
                  load_fill H (target operation) ;;
                  load_borders H (target operation) ;;
                  throw (TypeError msg)) s) /\
  (type operation = "sort" ->
     exists msg,
       executeOperation H operation s =
         handler (load_values H (target operation) ;; throw (TypeError msg)) s) /\
  (type operation = "sheet_create" ->
     executeOperation H operation s =
       handler (worksheets_add H (value operation) ;;
                ret (worksheet_delete H (value operation))) s).
Proof.
  destruct operation as [ty tgt val opts]. cbn [type target value options].
  intros Hopts.
  assert (Hthrow : forall p, exists msg, get_prop opts p = Throw (TypeError msg)).
  { intros p. destruct Hopts as [-> | ->]; eexists; reflexivity. }
  assert (Hopt : forall p, get_prop_opt opts p = VUndefined).
  { intros p. destruct Hopts as [-> | ->]; reflexivity. }
  assert (Hs : with_document s (document s) = s) by (destruct s; reflexivity).
  split; [ | split; [ | split]].
  - intros Hin. cbn [In] in Hin.
    destruct Hin as [<- | [<- | [<- | [<- | []]]]];
      unfold executeOperation; cbn [type target value options]; cbv [is_case];
      cbn [String.eqb Ascii.eqb Bool.eqb]; rewrite handler_spec.
    + destruct (Hthrow "type") as [msg E]. exists msg.
      unfold createChart, bind, js. rewrite E, Hs. reflexivity.
    + destruct (Hthrow "type") as [msg E]. exists msg.
      unfold addConditionalFormatting, bind, js. rewrite E, Hs. reflexivity.
    + destruct (Hthrow "columnIndex") as [msg E]. exists msg.
      unfold applyFilter, bind, js. rewrite E, Hs. reflexivity.
    + destruct (Hthrow "name") as [msg E]. exists msg.
      unfold createPivotTable, bind, js. rewrite E, Hs. reflexivity.
  - intros ->. destruct (Hthrow "font") as [msg E]. exists msg.
    unfold executeOperation; cbn [type target value options]; cbv [is_case];
      cbn [String.eqb Ascii.eqb Bool.eqb].
    apply handler_ext. unfold formatRange, bind, js, throw. rewrite E.
    destruct (load_font H tgt (document s)) as [[v1|e1] d1]; [ | reflexivity].
    destruct (load_fill H tgt d1) as [[v2|e2] d2]; [ | reflexivity].
    destruct (load_borders H tgt d2) as [[v3|e3] d3]; reflexivity.
  - intros ->. destruct (Hthrow "fields") as [msg E]. exists msg.
    unfold executeOperation; cbn [type target value options]; cbv [is_case];
      cbn [String.eqb Ascii.eqb Bool.eqb].
    apply handler_ext. unfold sortRange, bind, js, throw. rewrite E.
    destruct (load_values H tgt (document s)) as [[v1|e1] d1]; reflexivity.
  - intros ->.
    unfold executeOperation; cbn [type target value options]; cbv [is_case];
      cbn [String.eqb Ascii.eqb Bool.eqb].
    apply handler_ext. unfold createSheet, bind. rewrite Hopt.
    destruct (worksheets_add H val (document s)) as [[v1|e1] d1]; reflexivity.
Qed.

End SessionLaws.

(** ** The workbook: writing a range and writing it back *)
Section RangeLaws.
Import Sheet Observe.

Section RoundTrips.

Variable evaluate : Value -> Value.

Let H : Host Workbook := Sheet.host evaluate.

(** X9.  the inverse of [setFormula] is exact.  When [setFormula] succeeds on
    a worksheet whose cells hold storable values, its inverse succeeds, and
    every range of the worksheet then reads, formulas and values, as it did
    before the formula was set. *)
Theorem setFormula_inverse_is_exact
    (address : string) (formula options : Value) (wb wb1 : Workbook) (ws : Worksheet)
    (inverse : Inverse) :
  getActiveWorksheet wb = Some ws ->
  cells_storable ws = true ->
  setFormula H address formula options wb = (Ok inverse, wb1) ->
  exists wb2,
    inverse wb1 = (Ok tt, wb2) /\
    forall other,
      fst (Office.load_formulas H other wb2) = fst (Office.load_formulas H other wb) /\
      fst (Office.load_values H other wb2) = fst (Office.load_values H other wb).
Proof.
  intros Ha Hs. unfold setFormula. subst H.
  cbn [Office.load_formulas Office.set_formulas Office.load_values Sheet.host].
  unfold bind at 1.
  destruct (resolve (name ws) address) as [a | ] eqn:Hp.
  2:{ unfold Sheet.load_formulas, read_range. rewrite Ha, Hp. discriminate. }
  rewrite (load_formulas_spec address wb ws a Ha Hp).
  unfold bind. destruct (set_content address (VArr [VArr [formula]]) wb) as [[[]|e] wb1'] eqn:E;
    [ | discriminate].
  unfold ret. intros [= <- <-].
  destruct (set_content_inv _ _ _ _ _ Ha E) as (a' & g & Hp' & Hg & Ha1).
  rewrite Hp in Hp'. injection Hp' as <-.
  apply as_grid_inv in Hg as (_ & Hgl & Hgw & _).
  destruct (get_grid_dims a (cells ws)) as [Hl Hw].
  destruct (set_content_Ok address (get_grid a (cells ws)) wb1' _ a Ha1 Hp Hl Hw)
    as (wb2 & E2 & Ha2).
  { pose proof (get_grid_storable a ws (fun v => v) (fun v Hv => Hv) Hs) as G.
    rewrite map_ext with (g := id) in G by (intros; apply map_id).
    rewrite map_id in G. exact G. }
  exists wb2. split; [exact E2 | ].
  assert (Hc : forall p,
    content (put_grid (top a) (left a) (get_grid a (cells ws))
               (put_grid (top a) (left a) g (cells ws))) p = content (cells ws) p).
  { intros p.
    pose proof (content_put_get a (fun v => v) (cells ws)
                  (put_grid (top a) (left a) g (cells ws)) p) as C.
    rewrite map_ext with (g := id) in C by (intros; apply map_id).
    rewrite map_id in C. rewrite C.
    destruct (inside a p) eqn:I; [reflexivity | ].
    apply content_put_grid_outside; assumption. }
  intros other. split.
  - unfold Sheet.load_formulas. eapply read_range_fst; try eassumption; [reflexivity | ].
    intros b _. cbn [cells with_cells]. f_equal.
    apply get_grid_same. exact Hc.
  - unfold Sheet.load_values. eapply read_range_fst; try eassumption; [reflexivity | ].
    intros b _. cbn [cells with_cells]. f_equal.
    apply get_grid_ext. intros p. rewrite Hc. reflexivity.
Qed.

(** X10.  undoing [setCellValue] restores values, not formulas.  When
    [setCellValue] succeeds, its inverse succeeds and leaves in the target
    the values the target had: where a cell held a formula it now holds the
    value of that formula.  With an engine that gives a value its own
    value, every range of the worksheet has the values it had. *)
Theorem setCellValue_inverse_restores_values
    (address : string) (value options : Value) (wb wb1 : Workbook) (ws : Worksheet)
    (inverse : Inverse) :
  (forall v, storable v = true -> storable (evaluate v) = true) ->
  getActiveWorksheet wb = Some ws ->
  cells_storable ws = true ->
  setCellValue H address value options wb = (Ok inverse, wb1) ->
  exists wb2,
    inverse wb1 = (Ok tt, wb2) /\
    fst (Office.load_formulas H address wb2) = fst (Office.load_values H address wb) /\
    ((forall v, evaluate (evaluate v) = evaluate v) ->
     forall other,
       fst (Office.load_values H other wb2) = fst (Office.load_values H other wb)).
Proof.
  intros Hev Ha Hs. unfold setCellValue. subst H.
  cbn [Office.load_formulas Office.set_values Office.load_values Sheet.host].
  unfold bind at 1.
  destruct (resolve (name ws) address) as [a | ] eqn:Hp.
  2:{ unfold Sheet.load_values, read_range. rewrite Ha, Hp. discriminate. }
  rewrite (load_values_spec evaluate address wb ws a Ha Hp).
  unfold bind.
  destruct (set_content address (if isArray value then value else VArr [VArr [value]]) wb)
    as [[[]|e] wb1'] eqn:E; [ | discriminate].
  unfold ret. intros [= <- <-].
  destruct (set_content_inv _ _ _ _ _ Ha E) as (a' & g & Hp' & Hg & Ha1).
  rewrite Hp in Hp'. injection Hp' as <-.
  apply as_grid_inv in Hg as (_ & Hgl & Hgw & _).
  destruct (get_grid_dims a (cells ws)) as [Hl Hw].
  destruct (set_content_Ok address (map (map evaluate) (get_grid a (cells ws))) wb1' _ a Ha1 Hp)
    as (wb2 & E2 & Ha2).
  { rewrite length_map. exact Hl. }
  { apply Forall_map. eapply Forall_impl; [exact Hw | ].
    intros row Hrow. cbn. rewrite length_map. exact Hrow. }
  { apply get_grid_storable; assumption. }
  exists wb2. split; [exact E2 | ].
  assert (Hc : forall p,
    content (put_grid (top a) (left a) (map (map evaluate) (get_grid a (cells ws)))
               (put_grid (top a) (left a) g (cells ws))) p
    = if inside a p then evaluate (content (cells ws) p) else content (cells ws) p).
  { intros p. rewrite content_put_get.
    destruct (inside a p) eqn:I; [reflexivity | ].
    apply content_put_grid_outside; assumption. }
  split.
  - rewrite (load_formulas_spec address wb2 _ a Ha2 Hp). cbn [fst cells with_cells].
    rewrite get_grid_put_grid; [reflexivity | rewrite length_map; exact Hl | ].
    apply Forall_map. eapply Forall_impl; [exact Hw | ].
    intros row Hrow. cbn. rewrite length_map. exact Hrow.
  - intros Hidem other. unfold Sheet.load_values. eapply read_range_fst; try eassumption; [reflexivity | ].
    intros b _. cbn [cells with_cells]. f_equal.
    apply get_grid_ext. intros p. rewrite Hc.
    destruct (inside a p); [apply Hidem | reflexivity].
Qed.

(** X11.  what [getRangeData] gives after a [setCellValue].  The grid that
    [setCellValue] wrote (the value itself when it is an array, the value
    as a one-cell grid otherwise) is what [getRangeData] returns for the
    target, each cell as the engine evaluates it; the call leaves the
    service as it is. *)
Theorem getRangeData_after_setCellValue
    (address : string) (value options : Value) (wb wb1 : Workbook) (ws : Worksheet)
    (inverse : Inverse) :
  getActiveWorksheet wb = Some ws ->
  setCellValue H address value options wb = (Ok inverse, wb1) ->
  exists g,
    (if isArray value then value else VArr [VArr [value]]) = of_grid g /\
    forall s, document s = wb1 ->
      Queries.getRangeData H address s = (Ok (of_grid (map (map evaluate) g)), s).
Proof.
  intros Ha. unfold setCellValue. subst H.
  cbn [Office.load_formulas Office.set_values Office.load_values Sheet.host].
  unfold bind at 1.
  destruct (resolve (name ws) address) as [a | ] eqn:Hp.
  2:{ unfold Sheet.load_values, read_range. rewrite Ha, Hp. discriminate. }
  rewrite (load_values_spec evaluate address wb ws a Ha Hp).
  unfold bind.
  destruct (set_content address (if isArray value then value else VArr [VArr [value]]) wb)
    as [[[]|e] wb1'] eqn:E; [ | discriminate].
  unfold ret. intros [= <- <-].
  destruct (set_content_inv _ _ _ _ _ Ha E) as (a' & g & Hp' & Hg & Ha1).
  rewrite Hp in Hp'. injection Hp' as <-.
  apply as_grid_inv in Hg as (Hv & Hgl & Hgw & _).
  exists g. split; [exact Hv | ].
  intros s Hd. unfold Queries.getRangeData. rewrite excel_run_spec, Hd.
  cbn [Office.load_values Sheet.host].
  rewrite (load_values_spec evaluate address wb1' _ a Ha1 Hp). cbn [fst snd cells with_cells].
  rewrite get_grid_put_grid by assumption.
  rewrite <- Hd. destruct s; reflexivity.
Qed.

Lemma find_snoc {A} (f : A -> bool) (l : list A) (x : A) :
  f x = true -> exists y, find f (l ++ [x]) = Some y.
Proof.
  intros Hx. induction l as [| z l IH]; cbn.
  - rewrite Hx. eauto.
  - destruct (f z); eauto.
Qed.

(** X12.  a worksheet created without a name stays.  [createSheet] without a
    name always succeeds, the workbook choosing the name; the inverse it
    returns looks the worksheet up by the name it was given, which is none,
    and fails on every workbook: neither [undo] nor a rollback removes the
    worksheet. *)
Theorem unnamed_sheet_is_never_removed (name options : Value) (wb : Workbook) :
  name = VUndefined \/ name = VNull ->
  exists inverse wb1,
    createSheet H name options wb = (Ok inverse, wb1) /\
    length (worksheets wb1) = S (length (worksheets wb)) /\
    forall wb', inverse wb' = (Throw ItemNotFound, wb').
Proof.
  intros Hname. unfold createSheet. subst H.
  cbn [Office.worksheets_add Office.worksheet_set_tabColor Office.worksheet_delete Sheet.host].
  set (new := free_name (length (worksheets wb)) (S (length (worksheets wb))) wb).
  set (wb' := {| worksheets := worksheets wb ++ [blank_sheet (next_id wb) new];
                 active := active wb; next_id := S (next_id wb) |}).
  assert (Eadd : worksheets_add name wb = (Ok (VStr new), wb')).
  { destruct Hname as [-> | ->]; reflexivity. }
  assert (Edel : forall w, worksheet_delete name w = (Throw ItemNotFound, w)).
  { intros w. destruct Hname as [-> | ->]; reflexivity. }
  unfold bind at 1. rewrite Eadd. unfold bind, when, ret.
  destruct (truthy (get_prop_opt options "tabColor")).
  - unfold worksheet_set_tabColor, getItem. subst wb'. cbn [worksheets].
    destruct (find_snoc (fun ws => String.eqb (Sheet.name ws) new) (worksheets wb)
                (blank_sheet (next_id wb) new)) as [ws1 ->].
    { cbn. apply String.eqb_refl. }
    do 2 eexists. split; [reflexivity | ]. split; [ | exact Edel].
    unfold put_sheet. cbn [worksheets]. rewrite length_map, length_app. cbn. lia.
  - do 2 eexists. split; [reflexivity | ]. split; [ | exact Edel].
    subst wb'. cbn [worksheets]. rewrite length_app. cbn. lia.
Qed.

Lemma filter_Is_true {A} (f : A -> bool) (l : list A) :
  filter (fun x => Is_true (f x)) l = List.filter f l.
Proof.
  induction l as [| x l IH]; [reflexivity | ].
  rewrite filter_cons. cbn [List.filter]. rewrite IH.
  destruct (f x); reflexivity.
Qed.

(** A request on the active worksheet that was accepted. *)
Lemma on_sheet_inv {A} (f : Worksheet -> Workbook -> Outcome (A * Worksheet * nat))
    (wb wb1 : Workbook) (ws : Worksheet) (x : A) :
  getActiveWorksheet wb = Some ws ->
  on_sheet f wb = (Ok x, wb1) ->
  exists ws' n,
    f ws wb = Ok (x, ws', n) /\
    (sheet_id ws' = sheet_id ws -> getActiveWorksheet wb1 = Some ws').
Proof.
  intros Ha. unfold on_sheet. rewrite Ha.
  destruct (f ws wb) as [[[x' ws'] n] | e]; [ | discriminate].
  intros [= <- <-]. exists ws', n. split; [reflexivity | ].
  intros Hid. apply (find_put_sheet ws ws' wb Ha Hid).
Qed.

(** X13.  undoing a conditional format clears the range.  The inverse of
    [addConditionalFormatting] succeeds and removes every conditional
    format that overlaps the target: the one that was added, and the ones
    that were there before.  The conditional formats that do not overlap the
    target stay, in their order. *)
Theorem conditional_format_inverse_clears_the_range
    (address : string) (options : Value) (wb wb1 : Workbook) (ws : Worksheet)
    (inverse : Inverse) :
  getActiveWorksheet wb = Some ws ->
  addConditionalFormatting H address options wb = (Ok inverse, wb1) ->
  exists a wb2 ws2,
    parse_address address = Some a /\
    inverse wb1 = (Ok tt, wb2) /\
    getActiveWorksheet wb2 = Some ws2 /\
    placed ws2 =
      List.filter (fun c => negb (overlaps a (snd c))) (placed ws).
Proof.
  intros Ha. unfold addConditionalFormatting. subst H.
  cbn [Office.conditionalFormats_add Office.ConditionalFormatType
       Office.conditionalFormat_set_cellValue Office.conditionalFormats_clearAll Sheet.host].
  unfold bind at 1. unfold js at 1.
  destruct (get_prop options "type") as [o_type | e]; [ | discriminate].
  unfold bind at 1.
  destruct (conditionalFormats_add address (Sheet.ConditionalFormatType o_type) wb)
    as [[h | e] wb_a] eqn:Eadd; [ | discriminate].
  destruct (on_sheet_inv _ _ _ _ _ Ha Eadd) as (ws_a & n & Hf & Ha_a).
  destruct (Sheet.ConditionalFormatType o_type) as [ | | | | t | | ]; try discriminate.
  destruct (resolve (name ws) address) as [a | ] eqn:Hp; [ | discriminate].
  injection Hf as <- <- <-. specialize (Ha_a eq_refl).
  set (P := fun c : nat * Rect => negb (overlaps a (snd c))).
  assert (Hnew : forall l c, cf_range c = a ->
            List.filter P (map (fun c => (cf_id c, cf_range c)) (l ++ [c]))
            = List.filter P (map (fun c => (cf_id c, cf_range c)) l)).
  { intros l c Hc. rewrite map_app, List.filter_app. cbn. subst P. cbn [snd].
    rewrite Hc, (resolve_overlaps _ address a Hp). cbn. apply app_nil_r. }
  assert (Hclear : forall wb1 ws1,
            getActiveWorksheet wb1 = Some ws1 ->
            name ws1 = name ws ->
            exists wb2 ws2,
              conditionalFormats_clearAll address wb1 = (Ok tt, wb2) /\
              getActiveWorksheet wb2 = Some ws2 /\
              placed ws2 = List.filter P (placed ws1)).
  { intros wb1' ws1 Ha1 Hn. rewrite <- Hn in Hp.
    destruct (on_range_Ok address
                (fun a ws => Ok (tt, with_conditionalFormats ws
                   (filter (fun c => negb (overlaps a (cf_range c))) (conditionalFormats ws))))
                wb1' a ws1
                (with_conditionalFormats ws1
                   (filter (fun c => negb (overlaps a (cf_range c))) (conditionalFormats ws1)))
                tt Ha1 Hp eq_refl eq_refl) as (wb2 & E2 & Ha2).
    eexists wb2, _. split; [exact E2 | ]. split; [exact Ha2 | ].
    unfold placed. cbn [conditionalFormats with_conditionalFormats].
    rewrite filter_Is_true. subst P. clear.
    induction (conditionalFormats ws1) as [| c l IH]; [reflexivity | ].
    cbn [List.filter map snd]. destruct (negb (overlaps a (cf_range c))); cbn [map]; congruence. }
  unfold bind, when, ret.
  destruct (is_cellValue o_type).
  - destruct (conditionalFormat_set_cellValue (handle (next_id wb))
                (js_or (get_prop_opt options "fillColor") (VStr "red"))
                (get_prop_opt options "rule") wb_a) as [[[] | e] wb_b] eqn:Eset; [ | discriminate].
    intros [= <- <-].
    destruct (on_sheet_inv _ _ _ _ _ Ha_a Eset) as (ws_b & n & Hf & Ha_b).
    destruct (as_id (handle (next_id wb))) as [id | ]; [ | discriminate].
    destruct (existsb _ _); [ | discriminate].
    injection Hf as <- <-. specialize (Ha_b eq_refl).
    destruct (Hclear _ _ Ha_b eq_refl) as (wb2 & ws2 & E2 & Ha2 & Hpl).
    exists a, wb2, ws2. split; [exact (resolve_parse _ _ _ Hp) | ].
    repeat split; try assumption.
    rewrite Hpl. unfold placed. cbn [conditionalFormats with_conditionalFormats].
    rewrite map_map.
    rewrite (map_ext _ (fun c => (cf_id c, cf_range c)))
      by (intros c; destruct (cf_id c =? id)%nat; reflexivity).
    apply Hnew. reflexivity.
  - intros [= <- <-].
    destruct (Hclear _ _ Ha_a eq_refl) as (wb2 & ws2 & E2 & Ha2 & Hpl).
    exists a, wb2, ws2. split; [exact (resolve_parse _ _ _ Hp) | ].
    repeat split; try assumption.
    rewrite Hpl. unfold placed. cbn [conditionalFormats with_conditionalFormats].
    apply Hnew. reflexivity.
Qed.

End RoundTrips.

End RangeLaws.

(** ** The workbook: moving cells *)
Section ShiftLaws.
Import Sheet Observe.

Section Insert.

Variable evaluate : Value -> Value.

Let H : Host Workbook := Sheet.host evaluate.

(** X18.  the inverse of an insertion is exact.  When [insertRows] (or
    [insertColumns]) succeeds, the inverse it returns succeeds and the
    active worksheet is exactly what it was before the insertion: cells,
    formats and everything else. *)
Theorem insert_inverse_is_exact
    (rows : bool) (address : string) (count : Value) (wb wb1 : Workbook) (ws : Worksheet)
    (inverse : Inverse) :
  getActiveWorksheet wb = Some ws ->
  (if rows then insertRows H address count wb else insertColumns H address count wb)
    = (Ok inverse, wb1) ->
  exists wb2,
    inverse wb1 = (Ok tt, wb2) /\
    getActiveWorksheet wb2 = Some ws.
Proof.
  intros Ha Hrun.
  set (dir := if rows then ShiftDown else ShiftRight).
  assert (Hrun' : (Office.range_insert H address dir ;;
                   ret (Office.range_delete H address (opposite dir)))%act wb
                  = (Ok inverse, wb1)).
  { subst dir. destruct rows; exact Hrun. }
  clear Hrun. subst H. cbn [Office.range_insert Office.range_delete Sheet.host] in Hrun'.
  destruct (resolve (name ws) address) as [a | ] eqn:Hp.
  2:{ unfold bind, Sheet.range_insert, on_range, on_sheet in Hrun'.
      rewrite Ha, Hp in Hrun'. discriminate. }
  destruct (range_insert_Ok address dir wb ws a Ha Hp) as (wb1' & E1 & Ha1).
  unfold bind, ret in Hrun'. rewrite E1 in Hrun'. injection Hrun' as <- <-.
  destruct (range_delete_Ok address (opposite dir) wb1' _ a Ha1 Hp) as (wb2 & E2 & Ha2).
  exists wb2. split; [exact E2 | ]. rewrite Ha2. f_equal.
  cbn [cells formats with_cells with_formats].
  rewrite !rekey_round_trip;
    try (intros; eapply shift_insert_inj; eassumption);
    try (intros; eapply shift_delete_inj; eassumption);
    try apply shift_delete_insert.
  destruct ws; reflexivity.
Qed.

End Insert.

End ShiftLaws.

(** ** The workbook: formats *)
Section FormatLaws.
Import Sheet Observe.

Lemma format_at_insert (q p : nat * nat) (x : CellFormat) (m : gmap (nat * nat) CellFormat) :
  format_at (<[q := x]> m) p = if decide (q = p) then x else format_at m p.
Proof.
  unfold format_at. rewrite lookup_insert. destruct (decide (q = p)); reflexivity.
Qed.

Lemma cells_of_inside (a : Rect) (p : nat * nat) :
  In p (cells_of a) <-> inside a p = true.
Proof.
  destruct p as [i j]. rewrite inside_spec. unfold cells_of, rows_of, columns_of.
  rewrite in_flat_map. split.
  - intros (r & Hr & Hc). apply in_seq in Hr. apply in_map_iff in Hc as (c & [= <- <-] & Hc).
    apply in_seq in Hc. lia.
  - intros [Hi Hj]. exists i. split; [apply in_seq; lia | ].
    apply in_map_iff. exists j. split; [reflexivity | apply in_seq; lia].
Qed.

Lemma NoDup_pairs (rs cs : list nat) :
  List.NoDup rs -> List.NoDup cs ->
  List.NoDup (flat_map (fun r => map (fun c => (r, c)) cs) rs).
Proof.
  intros Hrs Hcs. induction Hrs as [| r rs Hr _ IH]; cbn [flat_map]; [constructor | ].
  apply List.NoDup_app; [ | exact IH | ].
  - clear -Hcs. induction Hcs as [| c cs Hc _ IH]; cbn [map]; constructor; [ | exact IH].
    intros [c' [[= ->] Hin]]%in_map_iff. contradiction.
  - intros [i j] Hin Hin'.
    apply in_map_iff in Hin as (c & [= <- <-] & _).
    apply in_flat_map in Hin' as (r' & Hr' & Hin').
    apply in_map_iff in Hin' as (c' & [= <- <-] & _). contradiction.
Qed.

Lemma NoDup_cells_of (a : Rect) : List.NoDup (cells_of a).
Proof. apply NoDup_pairs; apply seq_NoDup. Qed.

(** The format of a cell after the formats of a range were updated. *)
Lemma update_formats_spec (f : CellFormat -> CellFormat) (a : Rect)
    (m : gmap (nat * nat) CellFormat) (p : nat * nat) :
  format_at (update_formats a f m) p =
    if inside a p then f (format_at m p) else format_at m p.
Proof.
  unfold update_formats.
  assert (Hout : forall l m, ~ In p l ->
            format_at (fold_left (fun m p => <[p := f (format_at m p)]> m) l m) p
            = format_at m p).
  { induction l as [| q l IH]; intros m' Hn; cbn [fold_left]; [reflexivity | ].
    rewrite IH by (intros Hl; apply Hn; right; exact Hl).
    rewrite format_at_insert. destruct (decide (q = p)) as [-> | ]; [ | reflexivity].
    exfalso. apply Hn. left. reflexivity. }
  assert (Hin : forall l m, List.NoDup l -> In p l ->
            format_at (fold_left (fun m p => <[p := f (format_at m p)]> m) l m) p
            = f (format_at m p)).
  { induction l as [| q l IH]; intros m' Hnd Hl; cbn [fold_left]; [contradiction | ].
    apply List.NoDup_cons_iff in Hnd as [Hq Hnd].
    destruct (decide (q = p)) as [-> | Hne].
    - rewrite Hout by exact Hq. rewrite format_at_insert.
      destruct (decide (p = p)); [reflexivity | congruence].
    - destruct Hl as [-> | Hl]; [congruence | ].
      rewrite IH by assumption. rewrite format_at_insert.
      destruct (decide (q = p)); [congruence | reflexivity]. }
  destruct (inside a p) eqn:I.
  - apply Hin; [apply NoDup_cells_of | apply cells_of_inside, I].
  - apply Hout. intros Hl%cells_of_inside. congruence.
Qed.

Lemma set_format_Ok (address : string) (f : CellFormat -> CellFormat)
    (wb : Workbook) (ws : Worksheet) (a : Rect) :
  getActiveWorksheet wb = Some ws ->
  resolve (name ws) address = Some a ->
  exists wb',
    set_format address f wb = (Ok tt, wb') /\
    getActiveWorksheet wb' = Some (with_formats ws (update_formats a f (formats ws))).
Proof.
  intros Ha Hp. unfold set_format. eapply on_range_Ok; try eassumption; reflexivity.
Qed.

Lemma set_format_inv (address : string) (f : CellFormat -> CellFormat)
    (wb wb' : Workbook) (ws : Worksheet) :
  getActiveWorksheet wb = Some ws ->
  set_format address f wb = (Ok tt, wb') ->
  exists a,
    resolve (name ws) address = Some a /\
    getActiveWorksheet wb' = Some (with_formats ws (update_formats a f (formats ws))).
Proof.
  intros Ha E. destruct (resolve (name ws) address) as [a | ] eqn:Hp.
  - destruct (set_format_Ok address f wb ws a Ha Hp) as (wb'' & E' & Ha').
    rewrite E in E'. injection E' as <-. eauto.
  - unfold set_format, on_range, on_sheet in E. rewrite Ha, Hp in E. discriminate.
Qed.

(** A change of format that was accepted: [changed] says whether a request
    was sent. *)
Lemma set_format_step (changed : bool) (address : string)
    (f : CellFormat -> CellFormat) (a : Rect) (wb wb' : Workbook) (ws : Worksheet) :
  getActiveWorksheet wb = Some ws ->
  resolve (name ws) address = Some a ->
  (if changed then set_format address f else ret tt) wb = (Ok tt, wb') ->
  exists ws',
    getActiveWorksheet wb' = Some ws' /\
    name ws' = name ws /\ cells ws' = cells ws /\
    forall p, format_at (formats ws') p =
      if inside a p && changed then f (format_at (formats ws) p)
      else format_at (formats ws) p.
Proof.
  intros Ha Hp. destruct changed.
  - intros E. destruct (set_format_inv _ _ _ _ _ Ha E) as (a' & Hp' & Ha').
    rewrite Hp in Hp'. injection Hp' as <-.
    eexists. split; [exact Ha' | ]. cbn [name cells formats with_formats].
    repeat split. intros p. rewrite update_formats_spec, andb_true_r. reflexivity.
  - intros [= <-]. exists ws. repeat split; [exact Ha | ].
    intros p. rewrite andb_false_r. reflexivity.
Qed.

Lemma read_range_inv {A} (address : string) (f : Rect -> Worksheet -> A)
    (wb wb' : Workbook) (x : A) :
  read_range address f wb = (Ok x, wb') ->
  wb' = wb /\ exists ws a, getActiveWorksheet wb = Some ws /\
    resolve (name ws) address = Some a /\ x = f a ws.
Proof.
  unfold read_range. destruct (getActiveWorksheet wb) as [ws | ]; [ | discriminate].
  destruct (resolve (name ws) address) as [a | ] eqn:Hp; [ | discriminate].
  intros [= <- <-]. split; [reflexivity | ]. exists ws, a. repeat split. exact Hp.
Qed.

(** Assigning the properties of a bag: a request when there is one to
    assign. *)
Lemma assign_format_when (c : bool) (address : string) (props : list (string * Value))
    (f : CellFormat -> CellFormat) :
  when c (assign_format address props f)
  = if c && negb (match props with [] => true | _ => false end)
    then set_format address f else ret tt.
Proof. destruct c, props; reflexivity. Qed.

Lemma assign_nil (bag : list (string * Value)) : assign [] bag = bag.
Proof. reflexivity. Qed.

Section Format.

Variable evaluate : Value -> Value.

Let H : Host Workbook := Sheet.host evaluate.

(** What [formatRange] does to the workbook, and what it returns. *)
Lemma formatRange_spec (address : string) (options : Value)
    (wb wb1 : Workbook) (ws : Worksheet) (inverse : Inverse) :
  getActiveWorksheet wb = Some ws ->
  formatRange H address options wb = (Ok inverse, wb1) ->
  exists a ws1,
    resolve (name ws) address = Some a /\
    getActiveWorksheet wb1 = Some ws1 /\
    name ws1 = name ws /\ cells ws1 = cells ws /\
    (forall p, format_at (formats ws1) p =
       if inside a p then formatted options (format_at (formats ws) p)
       else format_at (formats ws) p) /\
    inverse = (Sheet.assign_font address [] ;; Sheet.assign_fill address [] ;;
               Sheet.assign_borders address [])%act.
Proof.
  intros Ha. unfold formatRange. subst H.
  cbn [Office.load_font Office.load_fill Office.load_borders Office.assign_font
       Office.assign_fill Office.assign_borders Office.set_numberFormat Sheet.host].
  unfold bind at 1.
  destruct (load_format address wb) as [[vfont | e] w1] eqn:L1; [ | discriminate].
  apply read_range_inv in L1 as (-> & ws' & a & Ha' & Hp & ->).
  rewrite Ha in Ha'. injection Ha' as <-.
  unfold bind at 1. unfold load_format at 1, read_range at 1. rewrite Ha, Hp.
  unfold bind at 1. unfold load_format at 1, read_range at 1. rewrite Ha, Hp.
  cbn [own_props proxy].
  unfold js, bind.
  assert (Ho : forall part v, get_prop options part = Ok v -> v = get_prop_opt options part).
  { intros part v. destruct options; cbn; congruence. }
  destruct (get_prop options "font") as [o_font | e] eqn:Ofont; [ | discriminate].
  apply Ho in Ofont as ->.
  destruct (when _ (assign_font address _) wb) as [[[] | e] wbA] eqn:EA; [ | discriminate].
  destruct (get_prop options "fill") as [o_fill | e] eqn:Ofill; [ | discriminate].
  apply Ho in Ofill as ->.
  destruct (when _ (assign_fill address _) wbA) as [[[] | e] wbB] eqn:EB; [ | discriminate].
  destruct (get_prop options "borders") as [o_borders | e] eqn:Oborders; [ | discriminate].
  apply Ho in Oborders as ->.
  destruct (when _ (assign_borders address _) wbB) as [[[] | e] wbC] eqn:EC; [ | discriminate].
  destruct (get_prop options "numberFormat") as [o_nf | e] eqn:Onf; [ | discriminate].
  apply Ho in Onf as ->.
  destruct (when _ (set_numberFormat address _) wbC) as [[[] | e] wbD] eqn:ED; [ | discriminate].
  unfold ret. intros [= <- <-].
  unfold assign_font in EA. unfold assign_fill in EB. unfold assign_borders in EC.
  rewrite assign_format_when in EA, EB, EC.
  destruct (set_format_step _ address _ a wb wbA ws Ha Hp EA)
    as (wsA & HaA & HnA & HcA & HfA).
  rewrite <- HnA in Hp.
  destruct (set_format_step _ address _ a wbA wbB wsA HaA Hp EB)
    as (wsB & HaB & HnB & HcB & HfB).
  rewrite <- HnB in Hp.
  destruct (set_format_step _ address _ a wbB wbC wsB HaB Hp EC)
    as (wsC & HaC & HnC & HcC & HfC).
  rewrite <- HnC in Hp.
  assert (ED' : (if truthy (get_prop_opt options "numberFormat")
                 then set_format address (fun f =>
                        {| font := font f; fill := fill f; borders := borders f;
                           numberFormat := get_prop_opt options "numberFormat" |})
                 else ret tt) wbC = (Ok tt, wbD)).
  { revert ED. unfold when, set_numberFormat.
    destruct (truthy (get_prop_opt options "numberFormat")); [ | auto].
    destruct (get_prop_opt options "numberFormat"); try discriminate. auto. }
  destruct (set_format_step _ address _ a wbC wbD wsC HaC Hp ED')
    as (wsD & HaD & HnD & HcD & HfD).
  exists a, wsD. split; [reflexivity | ]. split; [exact HaD | ].
  split; [congruence | ]. split; [congruence | ]. split; [ | reflexivity].
  intros p. rewrite HfD, HfC, HfB, HfA. unfold formatted.
  destruct (inside a p); cbn [andb]; [ | reflexivity].
  destruct (format_at (formats ws) p) as [fo fi bo nf].
  destruct (truthy (get_prop_opt options "font"));
    destruct (truthy (get_prop_opt options "fill"));
    destruct (truthy (get_prop_opt options "borders"));
    destruct (truthy (get_prop_opt options "numberFormat"));
    cbn [andb negb font fill borders numberFormat];
    destruct (own_props (get_prop_opt options "font"));
    destruct (own_props (get_prop_opt options "fill"));
    destruct (own_props (get_prop_opt options "borders"));
    reflexivity.
Qed.

(** X19.  undoing a format brings nothing back.  When [formatRange]
    succeeds, every cell of the target has the format that the options
    make of the one it had, and the inverse that [formatRange] returns
    does nothing: on every workbook it succeeds and leaves the workbook
    as it is.  After [undo] the target has the font, the fill, the
    borders and the number format that [formatRange] gave it. *)
Theorem formatRange_inverse_restores_nothing
    (address : string) (options : Value)
    (wb wb1 : Workbook) (ws : Worksheet) (inverse : Inverse) :
  getActiveWorksheet wb = Some ws ->
  formatRange H address options wb = (Ok inverse, wb1) ->
  (forall d, inverse d = (Ok tt, d)) /\
  exists a ws1,
    parse_address address = Some a /\
    getActiveWorksheet wb1 = Some ws1 /\
    forall p, format_at (formats ws1) p =
      if inside a p then formatted options (format_at (formats ws) p)
      else format_at (formats ws) p.
Proof.
  intros Ha Hrun.
  destruct (formatRange_spec _ _ _ _ _ _ Ha Hrun) as (a & ws1 & Hp & Ha1 & _ & _ & Hf & ->).
  split; [intros d; reflexivity | ].
  exists a, ws1. split; [exact (resolve_parse _ _ _ Hp) | ]. split; assumption.
Qed.

End Format.

End FormatLaws.

(** ** The workbook: worksheets and filters *)
Section SheetsLaws.
Import Sheet Observe.

Lemma find_app_last {A} (f : A -> bool) (l : list A) (x : A) :
  forallb (fun y => negb (f y)) l = true ->
  find f (l ++ [x]) = if f x then Some x else None.
Proof.
  induction l as [| y l IH]; cbn; [reflexivity | ].
  intros [Hy Hl]%andb_true_iff. destruct (f y); [discriminate | apply IH, Hl].
Qed.

Lemma name_taken_forallb (n : string) (wb : Workbook) :
  name_taken n wb = false ->
  forallb (fun ws => negb (String.eqb (name ws) n)) (worksheets wb) = true.
Proof.
  unfold name_taken. induction (worksheets wb) as [| ws l IH]; cbn; [reflexivity | ].
  intros [-> Hl]%orb_false_iff. cbn. apply IH, Hl.
Qed.

Lemma map_keep_issued (n : nat) (new : Worksheet) (l : list Worksheet) :
  forallb (fun ws => (sheet_id ws <? n)%nat) l = true ->
  map (fun ws => if (sheet_id ws =? n)%nat then new else ws) l = l.
Proof.
  induction l as [| ws l IH]; cbn; [reflexivity | ].
  intros [Hws Hl]%andb_true_iff. apply Nat.ltb_lt in Hws.
  destruct (Nat.eqb_spec (sheet_id ws) n); [lia | ]. rewrite IH by assumption. reflexivity.
Qed.

Lemma filter_keep_issued (n : nat) (l : list Worksheet) :
  forallb (fun ws => (sheet_id ws <? n)%nat) l = true ->
  List.filter (fun ws => negb (sheet_id ws =? n)%nat) l = l.
Proof.
  induction l as [| ws l IH]; cbn; [reflexivity | ].
  intros [Hws Hl]%andb_true_iff. apply Nat.ltb_lt in Hws.
  destruct (Nat.eqb_spec (sheet_id ws) n); [lia | ]. cbn. rewrite IH by assumption. reflexivity.
Qed.

Section Sheets.

Variable evaluate : Value -> Value.

Let H : Host Workbook := Sheet.host evaluate.

(** X20.  a worksheet created with a name is removed by the inverse.  When
    [createSheet] succeeds with a name, in a workbook whose worksheets have
    identifiers the workbook has handed out, the inverse it returns
    succeeds and the worksheets and the active worksheet are the ones from
    before the creation. *)
Theorem named_sheet_is_removed
    (n : string) (options : Value) (wb wb1 : Workbook) (ws : Worksheet) (inverse : Inverse) :
  getActiveWorksheet wb = Some ws ->
  sheets_issued wb = true ->
  createSheet H (VStr n) options wb = (Ok inverse, wb1) ->
  exists wb2,
    inverse wb1 = (Ok tt, wb2) /\
    worksheets wb2 = worksheets wb /\
    active wb2 = active wb.
Proof.
  intros Ha Hissued. unfold createSheet. subst H.
  cbn [Office.worksheets_add Office.worksheet_set_tabColor Office.worksheet_delete Sheet.host].
  unfold bind at 1. unfold worksheets_add.
  destruct (String.eqb n "") eqn:Hn; [discriminate | ].
  destruct (name_taken n wb) eqn:Htaken; [discriminate | ].
  pose proof (name_taken_forallb n wb Htaken) as Hfresh.
  set (new := blank_sheet (next_id wb) n).
  assert (Hlast : forall new' : Worksheet, name new' = n ->
            find (fun ws => String.eqb (name ws) n) (worksheets wb ++ [new']) = Some new').
  { intros new' Hname. rewrite find_app_last by exact Hfresh.
    rewrite Hname, String.eqb_refl. reflexivity. }
  assert (Hne : worksheets wb <> []).
  { unfold getActiveWorksheet in Ha. destruct (worksheets wb); [discriminate | congruence]. }
  assert (Hactive : (active wb =? next_id wb)%nat = false).
  { unfold getActiveWorksheet in Ha. apply find_some in Ha as [Hin Hid].
    apply Nat.eqb_eq in Hid. unfold sheets_issued in Hissued.
    rewrite forallb_forall in Hissued. apply Hissued, Nat.ltb_lt in Hin.
    apply Nat.eqb_neq. lia. }
  assert (Hdelete : forall (new' : Worksheet) (k : nat),
            name new' = n -> sheet_id new' = next_id wb ->
            exists wb2,
              worksheet_delete (VStr n)
                {| worksheets := worksheets wb ++ [new']; active := active wb; next_id := k |}
              = (Ok tt, wb2) /\
              worksheets wb2 = worksheets wb /\ active wb2 = active wb).
  { intros new' k Hname Hid. unfold worksheet_delete, getItem. cbn [worksheets active next_id].
    rewrite (Hlast new' Hname), Hid, filter_Is_true, List.filter_app.
    rewrite (filter_keep_issued _ _ Hissued). cbn [List.filter].
    rewrite Hid, Nat.eqb_refl. cbn [negb]. rewrite app_nil_r.
    destruct (worksheets wb) as [| first others] eqn:Ews; [congruence | ].
    eexists. split; [reflexivity | ]. cbn [worksheets active]. rewrite Hactive. split; reflexivity. }
  unfold bind, when, ret.
  destruct (truthy (get_prop_opt options "tabColor")).
  - unfold worksheet_set_tabColor, getItem. cbn [worksheets].
    rewrite (Hlast new eq_refl). intros [= <- <-].
    unfold put_sheet. cbn [worksheets active next_id sheet_id with_tabColor].
    rewrite map_app, (map_keep_issued _ _ _ Hissued). cbn [map sheet_id blank_sheet new].
    rewrite Nat.eqb_refl. apply Hdelete; reflexivity.
  - intros [= <- <-]. apply Hdelete; reflexivity.
Qed.

(** [applyFilter] reads [range.autoFilter], which a range does not have:
    it throws whatever its arguments are and asks nothing of the
    workbook. *)
Lemma applyFilter_throws (address : string) (options : Value) (wb : Workbook) :
  exists msg, applyFilter H address options wb = (Throw (TypeError msg), wb).
Proof.
  unfold applyFilter, js, bind. subst H. cbn [Office.autoFilter_apply Sheet.host].
  destruct options; cbn [get_prop]; eexists; reflexivity.
Qed.

Lemma executeOperation_filter (operation : ExcelOperation) s :
  type operation = "filter" ->
  exists msg, executeOperation H operation s = (Throw (TypeError msg), s).
Proof.
  intros Ht. unfold executeOperation. rewrite Ht. cbn [is_case String.eqb Ascii.eqb Bool.eqb].
  rewrite handler_spec.
  destruct (applyFilter_throws (target operation) (options operation) (document s)) as (msg & ->).
  exists msg. destruct s; reflexivity.
Qed.

Lemma run_operations_filter (operations : list ExcelOperation) (acc : list Inverse) s :
  (exists operation, In operation operations /\ type operation = "filter") ->
  exists error undoOperations s1,
    run_operations H operations acc s = (Throw error, undoOperations, s1).
Proof.
  revert acc s. induction operations as [| op ops IH]; intros acc s (f & Hin & Ht).
  - contradiction.
  - cbn [run_operations].
    destruct (executeOperation H op s) as [[[u | ] | e] s'] eqn:E; [ | | eauto].
    + destruct Hin as [-> | Hin]; [ | apply IH; eauto].
      destruct (executeOperation_filter f s Ht) as (msg & E'). congruence.
    + destruct Hin as [-> | Hin]; [ | apply IH; eauto].
      destruct (executeOperation_filter f s Ht) as (msg & E'). congruence.
Qed.

(** X21.  a filter descriptor never applies.  [applyFilter] calls a method
    of [range.autoFilter], which a range does not have: whatever the target
    and the options, it throws a [TypeError] and leaves the workbook as it
    is.  A batch that holds a filter descriptor therefore always fails: the
    steps before the failure are rolled back, the error is thrown to the
    caller and nothing is pushed on the undo history. *)
Theorem filter_descriptor_fails_the_batch
    (operations : list ExcelOperation) (operation : ExcelOperation) s :
  In operation operations ->
  type operation = "filter" ->
  (forall wb, exists msg,
     applyFilter H (target operation) (options operation) wb = (Throw (TypeError msg), wb)) /\
  exists error undoOperations s1,
    run_operations H operations [] s = (Throw error, undoOperations, s1) /\
    executeOperations H operations s =
      (Throw error,
       {| document := snd (best_effort undoOperations (document s1));
          undoStack := undoStack s;
          redoStack := redoStack s;
          console :=
            console s1 ++
              ConsoleError "Failed to execute operations:" error ::
              map (ConsoleError "Failed to undo operation:")
                  (fst (best_effort undoOperations (document s1))) |}).
Proof.
  intros Hin Ht. split; [intros wb; apply applyFilter_throws | ].
  destruct (run_operations_filter operations [] s) as (error & undoOps & s1 & R); [eauto | ].
  exists error, undoOps, s1. split; [exact R | ].
  apply executeOperations_failure, R.
Qed.

End Sheets.

End SheetsLaws.

(** ** The workbook: sorting *)
Section SortLaws.
Import Sheet.

Lemma insert_sorted_Permutation {A} (le : A -> A -> bool) (x : A) (l : list A) :
  Permutation (insert_sorted le x l) (x :: l).
Proof.
  induction l as [| y l IH]; cbn; [reflexivity | ].
  destruct (le x y); [reflexivity | ].
  rewrite IH. apply perm_swap.
Qed.

Lemma sort_by_Permutation {A} (le : A -> A -> bool) (l : list A) :
  Permutation (sort_by le l) l.
Proof.
  unfold sort_by. induction l as [| x l IH]; cbn; [reflexivity | ].
  rewrite insert_sorted_Permutation, IH. reflexivity.
Qed.

Lemma sort_rows_Permutation (evaluate : Value -> Value) (matchCase : bool)
    (keys : list (nat * bool)) (rows : list (list Value)) :
  Permutation (sort_rows evaluate matchCase keys rows) rows.
Proof.
  unfold sort_rows. induction keys as [| k keys IH]; cbn; [reflexivity | ].
  rewrite sort_by_Permutation. exact IH.
Qed.

Section Sort.

Variable evaluate : Value -> Value.

Let H : Host Workbook := Sheet.host evaluate.

(** Writing the values of a range back over a grid that was written to
    it. *)
Lemma values_written_back (address : string) (a : Rect) (g : list (list Value))
    (wb wb1 : Workbook) (ws : Worksheet) :
  (forall v, storable v = true -> storable (evaluate v) = true) ->
  resolve (name ws) address = Some a ->
  getActiveWorksheet wb = Some ws ->
  cells_storable ws = true ->
  getActiveWorksheet wb1 = Some (with_cells ws (put_grid (top a) (left a) g (cells ws))) ->
  length g = height a ->
  Forall (fun row => length row = width a) g ->
  exists wb2,
    set_content address (of_grid (map (map evaluate) (get_grid a (cells ws)))) wb1
      = (Ok tt, wb2) /\
    fst (Sheet.load_formulas address wb2) = fst (Sheet.load_values evaluate address wb) /\
    ((forall v, evaluate (evaluate v) = evaluate v) ->
     forall other,
       fst (Sheet.load_values evaluate other wb2) = fst (Sheet.load_values evaluate other wb)).
Proof.
  intros Hev Hp Ha Hs Ha1 Hgl Hgw.
  destruct (get_grid_dims a (cells ws)) as [Hl Hw].
  assert (Hw' : Forall (fun row => length row = width a)
                  (map (map evaluate) (get_grid a (cells ws)))).
  { apply Forall_map. eapply Forall_impl; [exact Hw | ].
    intros row Hrow. cbn. rewrite length_map. exact Hrow. }
  destruct (set_content_Ok address (map (map evaluate) (get_grid a (cells ws))) wb1 _ a Ha1 Hp)
    as (wb2 & E2 & Ha2).
  { rewrite length_map. exact Hl. }
  { exact Hw'. }
  { apply get_grid_storable; assumption. }
  exists wb2. split; [exact E2 | ].
  assert (Hc : forall p,
    content (put_grid (top a) (left a) (map (map evaluate) (get_grid a (cells ws)))
               (put_grid (top a) (left a) g (cells ws))) p
    = if inside a p then evaluate (content (cells ws) p) else content (cells ws) p).
  { intros p. rewrite content_put_get.
    destruct (inside a p) eqn:I; [reflexivity | ].
    apply content_put_grid_outside; assumption. }
  split.
  - rewrite (load_formulas_spec address wb2 _ a Ha2 Hp).
    rewrite (load_values_spec evaluate address wb ws a Ha Hp). cbn [fst cells with_cells].
    rewrite get_grid_put_grid; [reflexivity | rewrite length_map; exact Hl | exact Hw'].
  - intros Hidem other. unfold Sheet.load_values. eapply read_range_fst; try eassumption; [reflexivity | ].
    intros b _. cbn [cells with_cells]. f_equal.
    apply get_grid_ext. intros p. rewrite Hc.
    destruct (inside a p); [apply Hidem | reflexivity].
Qed.

(** X22.  undoing a sort restores values, not formulas.  When [sortRange]
    succeeds, the inverse it returns succeeds and leaves in the target the
    values the target had before the sort, as constants; with an engine
    that gives a value its own value, every range of the worksheet has the
    values it had. *)
Theorem sortRange_inverse_restores_values
    (address : string) (options : Value) (wb wb1 : Workbook) (ws : Worksheet)
    (inverse : Inverse) :
  (forall v, storable v = true -> storable (evaluate v) = true) ->
  getActiveWorksheet wb = Some ws ->
  cells_storable ws = true ->
  sortRange H address options wb = (Ok inverse, wb1) ->
  exists wb2,
    inverse wb1 = (Ok tt, wb2) /\
    fst (Office.load_formulas H address wb2) = fst (Office.load_values H address wb) /\
    ((forall v, evaluate (evaluate v) = evaluate v) ->
     forall other,
       fst (Office.load_values H other wb2) = fst (Office.load_values H other wb)).
Proof.
  intros Hev Ha Hs Hrun. unfold sortRange in Hrun. subst H.
  cbn [Office.load_formulas Office.set_values Office.load_values Office.sort_apply Sheet.host]
    in *.
  destruct (resolve (name ws) address) as [a | ] eqn:Hp.
  2:{ unfold bind at 1 in Hrun. unfold Sheet.load_values, read_range in Hrun.
      rewrite Ha, Hp in Hrun. discriminate. }
  unfold js, bind in Hrun. rewrite (load_values_spec evaluate address wb ws a Ha Hp) in Hrun.
  destruct (get_prop options "fields") as [o_fields | e]; [ | discriminate].
  destruct (sort_apply evaluate address _ _ wb) as [[[] | e] wb1'] eqn:E; [ | discriminate].
  unfold ret in Hrun. injection Hrun as <- <-.
  unfold sort_apply, on_range in E.
  destruct (on_sheet_inv _ _ _ _ _ Ha E) as (ws1 & k & Hf & Ha1).
  rewrite Hp in Hf.
  destruct (js_or o_fields _) as [ | | | | | fs | ]; try discriminate.
  destruct (sort_fields (width a) fs) as [keys | ]; [ | discriminate].
  injection Hf as <- _. specialize (Ha1 eq_refl).
  destruct (get_grid_dims a (cells ws)) as [Hl Hw].
  eapply values_written_back; try eassumption.
  - rewrite (Permutation_length (sort_rows_Permutation _ _ _ _)). exact Hl.
  - eapply Permutation_Forall; [symmetry; apply sort_rows_Permutation | exact Hw].
Qed.

End Sort.

End SortLaws.

(** ** The workbook: renaming a worksheet *)
Section RenameLaws.
Import Sheet.

Lemma NoDup_map_In {A B} (f : A -> B) (l : list A) (x y : A) :
  List.NoDup (map f l) -> In x l -> In y l -> f x = f y -> x = y.
Proof.
  induction l as [| z l IH]; cbn; [contradiction | ].
  intros Hnd. apply List.NoDup_cons_iff in Hnd as [Hz Hnd].
  intros [-> | Hx] [-> | Hy] E; auto.
  - exfalso. apply Hz. rewrite E. apply in_map, Hy.
  - exfalso. apply Hz. rewrite <- E. apply in_map, Hx.
Qed.

Lemma getItem_In (n : string) (wb : Workbook) (ws : Worksheet) :
  getItem (VStr n) wb = Some ws -> In ws (worksheets wb) /\ name ws = n.
Proof.
  unfold getItem. intros [Hin Hn]%find_some. apply String.eqb_eq in Hn. auto.
Qed.

Lemma name_taken_false (n : string) (wb : Workbook) (ws : Worksheet) :
  name_taken n wb = false -> In ws (worksheets wb) -> name ws <> n.
Proof.
  unfold name_taken. intros Hn Hin E.
  assert (existsb (fun ws => String.eqb (name ws) n) (worksheets wb) = true).
  { apply existsb_exists. exists ws. split; [exact Hin | apply String.eqb_eq, E]. }
  congruence.
Qed.

Section Rename.

Variable evaluate : Value -> Value.

Let H : Host Workbook := Sheet.host evaluate.

(** X23.  the inverse of [renameSheet] is exact.  In a workbook whose
    worksheets have distinct identifiers and distinct names, when
    [renameSheet] succeeds on a worksheet with a name, the inverse it
    returns succeeds and the workbook is exactly what it was. *)
Theorem renameSheet_inverse_is_exact
    (currentName : string) (newName : Value) (wb wb1 : Workbook) (inverse : Inverse) :
  List.NoDup (map sheet_id (worksheets wb)) ->
  List.NoDup (map name (worksheets wb)) ->
  currentName <> "" ->
  renameSheet H currentName newName wb = (Ok inverse, wb1) ->
  inverse wb1 = (Ok tt, wb).
Proof.
  intros Hids Hnames Hcur Hrun. unfold renameSheet in Hrun. subst H.
  cbn [Office.worksheet_set_name Sheet.host] in Hrun.
  unfold bind, ret in Hrun.
  destruct (worksheet_set_name (VStr currentName) newName wb) as [[[] | e] wb1'] eqn:E;
    [ | discriminate].
  injection Hrun as <- <-.
  unfold worksheet_set_name in E.
  destruct (getItem (VStr currentName) wb) as [ws | ] eqn:Hget; [ | discriminate].
  destruct (getItem_In _ _ _ Hget) as [Hin Hname].
  destruct newName as [ | | | | new | | ]; try discriminate.
  destruct (String.eqb_spec new "") as [ | Hnew]; [discriminate | ].
  assert (Hcur' : String.eqb currentName "" = false) by (apply String.eqb_neq, Hcur).
  destruct (String.eqb_spec new (name ws)) as [Hsame | Hdiff].
  - (* the same name: nothing was done, nothing is undone *)
    injection E as <-. subst new. rewrite Hname in *.
    unfold worksheet_set_name. rewrite Hget, Hcur', Hname, String.eqb_refl. reflexivity.
  - destruct (name_taken new wb) eqn:Htaken; [discriminate | ]. injection E as <-.
    set (ws' := with_name ws new).
    set (r := fun w : Worksheet => if (sheet_id w =? sheet_id ws')%nat then ws' else w).
    assert (Hfind : find (fun w => String.eqb (name w) new) (map r (worksheets wb)) = Some ws').
    { clear Hget Hids Hnames.
      assert (Hfresh : forall w, In w (worksheets wb) -> name w <> new)
        by (intros w Hw; eapply name_taken_false; eassumption).
      induction (worksheets wb) as [| w l IH]; [contradiction | ].
      cbn [map find].
      destruct (Nat.eqb_spec (sheet_id w) (sheet_id ws')) as [Eid | Nid].
      - assert (Er : r w = ws') by (unfold r; rewrite Eid, Nat.eqb_refl; reflexivity).
        rewrite Er. cbn [name ws' with_name]. rewrite String.eqb_refl. reflexivity.
      - assert (Er : r w = w).
        { unfold r. destruct (Nat.eqb_spec (sheet_id w) (sheet_id ws'));
            [contradiction | reflexivity]. }
        rewrite Er.
        destruct (String.eqb_spec (name w) new) as [En | _].
        + exfalso. apply (Hfresh w); [left; reflexivity | exact En].
        + destruct Hin as [-> | Hin]; [exfalso; apply Nid; reflexivity | ].
          apply IH; [exact Hin | intros v Hv; apply Hfresh; right; exact Hv]. }
    assert (Hfree : name_taken currentName (put_sheet ws' wb) = false).
    { unfold name_taken, put_sheet. cbn [worksheets]. fold r.
      apply not_true_is_false. intros Ht. apply existsb_exists in Ht as (w' & Hw' & En).
      apply String.eqb_eq in En. apply in_map_iff in Hw' as (w & <- & Hw).
      unfold r in En. destruct (Nat.eqb_spec (sheet_id w) (sheet_id ws')) as [Eid | Nid].
      - cbn [name ws' with_name] in En. congruence.
      - assert (w = ws) by (apply (NoDup_map_In name _ _ _ Hnames Hw Hin); congruence).
        subst w. apply Nid. reflexivity. }
    unfold worksheet_set_name, getItem. unfold put_sheet at 1. cbn [worksheets]. fold r.
    rewrite Hfind, Hcur'.
    destruct (String.eqb_spec currentName (name ws')) as [En | _].
    { cbn [name ws' with_name] in En. congruence. }
    rewrite Hfree. f_equal.
    unfold put_sheet. cbn [worksheets active next_id]. fold r.
    assert (Hback : with_name ws' currentName = ws).
    { subst ws'. rewrite <- Hname. destruct ws; reflexivity. }
    rewrite Hback, map_map.
    assert (Hmap : map (fun w => if (sheet_id (r w) =? sheet_id ws)%nat then ws else r w)
                     (worksheets wb) = worksheets wb).
    { rewrite <- (map_id (worksheets wb)) at 2. apply map_ext_in. intros w Hw.
      unfold r. cbn [sheet_id ws' with_name].
      destruct (Nat.eqb_spec (sheet_id w) (sheet_id ws)) as [Eid | Nid].
      - cbn [sheet_id with_name]. rewrite Nat.eqb_refl.
        symmetry. apply (NoDup_map_In sheet_id _ _ _ Hids Hw Hin Eid).
      - destruct (Nat.eqb_spec (sheet_id w) (sheet_id ws)); [contradiction | reflexivity]. }
    cbn [sheet_id ws' with_name] in Hmap |- *. rewrite Hmap. destruct wb; reflexivity.
Qed.

End Rename.

End RenameLaws.

(** ** Addresses: what the pattern of [isValidRange] accepts *)
Section AddressLaws.
Import RegExp Address.

Lemma Matches_Seq (r1 r2 : Regex) (u : string) :
  Matches (Seq r1 r2) u <->
  exists u1 u2, u = String.append u1 u2 /\ Matches r1 u1 /\ Matches r2 u2.
Proof.
  split.
  - intros M. inversion M; subst. eauto.
  - intros (u1 & u2 & -> & M1 & M2). constructor; assumption.
Qed.

Lemma Matches_Opt (r : Regex) (u : string) :
  Matches (Opt r) u <-> Matches r u \/ u = EmptyString.
Proof.
  unfold Opt. split.
  - intros M. inversion M as [ | | | ? ? ? M1 | ? ? ? M2 | | | ]; subst; [auto | ].
    inversion M2. auto.
  - intros [M | ->]; [apply MAltL; exact M | apply MAltR; constructor].
Qed.

Lemma Matches_Lit (c : ascii) (u : string) :
  Matches (Lit c) u <-> u = String c EmptyString.
Proof.
  split.
  - intros M. inversion M. reflexivity.
  - intros ->. constructor.
Qed.

Lemma append_String (c : ascii) (s1 s2 : string) :
  String.append (String c s1) s2 = String c (String.append s1 s2).
Proof. reflexivity. Qed.

Lemma append_nil_l (s : string) : String.append EmptyString s = s.
Proof. reflexivity. Qed.

Lemma all_chars_append (p : ascii -> bool) (s1 s2 : string) :
  all_chars p (String.append s1 s2) = all_chars p s1 && all_chars p s2.
Proof.
  induction s1 as [| c s1 IH]; [reflexivity | ].
  change (String c s1 +:+ s2)%string with (String c (s1 +:+ s2)).
  cbn [all_chars]. rewrite IH. apply andb_assoc.
Qed.

Lemma Matches_Star_Range (lo hi : ascii) (u : string) :
  Matches (Star (Range lo hi)) u <-> all_chars (in_range lo hi) u = true.
Proof.
  split.
  - intros M. remember (Star (Range lo hi)) as r eqn:E.
    induction M; try discriminate; [reflexivity | ].
    injection E as ->. inversion M1; subst.
    rewrite append_String, append_nil_l. cbn [all_chars]. rewrite IHM2 by reflexivity.
    match goal with Hr : in_range _ _ _ = true |- _ => rewrite Hr end. reflexivity.
  - induction u as [| c u IH]; cbn [all_chars].
    + intros _. constructor.
    + intros [Hc Hu]%andb_true_iff.
      change (String c u) with (String.append (String c EmptyString) u).
      apply MStarS; [constructor; exact Hc | apply IH, Hu].
Qed.

Lemma Matches_Plus_Range (lo hi : ascii) (u : string) :
  Matches (Plus (Range lo hi)) u <-> some_of (in_range lo hi) u.
Proof.
  unfold Plus, some_of. rewrite Matches_Seq. split.
  - intros (u1 & u2 & -> & M1 & M2). inversion M1; subst.
    apply Matches_Star_Range in M2. rewrite append_String, append_nil_l. cbn [all_chars].
    match goal with Hr : in_range _ _ _ = true |- _ => rewrite Hr end.
    split; [discriminate | exact M2].
  - intros [Hne Hall]. destruct u as [| c u]; [congruence | ].
    cbn [all_chars] in Hall. apply andb_true_iff in Hall as [Hc Hu].
    exists (String c EmptyString), u. repeat split.
    + constructor. exact Hc.
    + apply Matches_Star_Range, Hu.
Qed.

Lemma append_assoc (s1 s2 s3 : string) :
  String.append (String.append s1 s2) s3 = String.append s1 (String.append s2 s3).
Proof.
  induction s1 as [| c s1 IH]; [reflexivity | ].
  rewrite !append_String, IH. reflexivity.
Qed.

Lemma Matches_cell_ref (u : string) :
  Matches cell_ref u <-> cell_shape (in_range "A" "Z") u.
Proof.
  unfold cell_ref, cell_shape. rewrite Matches_Seq.
  split; intros (l & d & -> & Hl & Hd); exists l, d; repeat split;
    try (apply Matches_Plus_Range; assumption);
    apply Matches_Plus_Range in Hl; apply Matches_Plus_Range in Hd;
    first [apply Hl | apply Hd].
Qed.

(** The language of the pattern, spelled out. *)
Lemma Matches_rangePattern (u : string) :
  Matches rangePattern u <-> range_shape (in_range "A" "Z") u.
Proof.
  unfold rangePattern, range_shape. split.
  - intros (l & w & -> & Ml & M)%Matches_Seq.
    apply Matches_Seq in M as (d & t & -> & Md & Mt).
    exists (String.append l d), t. rewrite append_assoc. split; [reflexivity | ]. split.
    + apply Matches_cell_ref. unfold cell_ref. apply Matches_Seq. eauto.
    + apply Matches_Opt in Mt as [Mt | ->]; [ | auto]. right.
      apply Matches_Seq in Mt as (colon & t2 & -> & ->%Matches_Lit & Mt2).
      apply Matches_Opt in Mt2 as [Mt2 | ->]; [right | left; reflexivity].
      exists t2. split; [reflexivity | apply Matches_cell_ref, Mt2].
  - intros (first & rest & -> & Hfirst & Hrest).
    apply Matches_cell_ref in Hfirst. unfold cell_ref in Hfirst.
    apply Matches_Seq in Hfirst as (l & d & -> & Ml & Md).
    rewrite append_assoc. apply Matches_Seq. exists l, (String.append d rest).
    split; [reflexivity | ]. split; [exact Ml | ].
    apply Matches_Seq. exists d, rest. split; [reflexivity | ]. split; [exact Md | ].
    apply Matches_Opt. destruct Hrest as [-> | [-> | (second & -> & Hs)]]; [auto | | ]; left.
    + apply Matches_Seq. exists ":", EmptyString. repeat split.
      * constructor.
      * apply Matches_Opt. auto.
    + apply Matches_Seq. exists ":", second. repeat split.
      * constructor.
      * apply Matches_Opt. left. apply Matches_cell_ref, Hs.
Qed.

Lemma upper_char_letter (c : ascii) :
  in_range "A" "Z" (JsString.upper_char c) = Sheet.is_letter c.
Proof. destruct c as [[] [] [] [] [] [] [] []]; reflexivity. Qed.

Lemma upper_char_colon (c : ascii) :
  JsString.upper_char c = ":"%char -> c = ":"%char.
Proof.
  destruct c as [[] [] [] [] [] [] [] []]; vm_compute; intros E;
    first [reflexivity | discriminate E].
Qed.

Lemma toUpperCase_append (s1 s2 : string) :
  JsString.ascii_toUpperCase (String.append s1 s2) =
  String.append (JsString.ascii_toUpperCase s1) (JsString.ascii_toUpperCase s2).
Proof.
  induction s1 as [| c s1 IH]; [reflexivity | ].
  rewrite append_String. cbn [JsString.ascii_toUpperCase]. rewrite IH. reflexivity.
Qed.

Lemma toUpperCase_split (s u1 u2 : string) :
  JsString.ascii_toUpperCase s = String.append u1 u2 ->
  exists s1 s2, s = String.append s1 s2 /\
    JsString.ascii_toUpperCase s1 = u1 /\ JsString.ascii_toUpperCase s2 = u2.
Proof.
  revert s. induction u1 as [| c u1 IH]; intros s E.
  - exists EmptyString, s. repeat split. exact E.
  - destruct s as [| c' s]; [discriminate | ].
    rewrite append_String in E. cbn [JsString.ascii_toUpperCase] in E. injection E as <- E.
    destruct (IH s E) as (s1 & s2 & -> & <- & <-).
    exists (String c' s1), s2. repeat split.
Qed.

Lemma all_chars_toUpperCase (p q : ascii -> bool) (s : string) :
  (forall c, p (JsString.upper_char c) = q c) ->
  all_chars p (JsString.ascii_toUpperCase s) = all_chars q s.
Proof.
  intros E. induction s as [| c s IH]; [reflexivity | ].
  cbn [JsString.ascii_toUpperCase all_chars]. rewrite E, IH. reflexivity.
Qed.

Lemma some_of_toUpperCase (p q : ascii -> bool) (s : string) :
  (forall c, p (JsString.upper_char c) = q c) ->
  some_of p (JsString.ascii_toUpperCase s) <-> some_of q s.
Proof.
  intros E. unfold some_of. rewrite (all_chars_toUpperCase p q s E).
  destruct s; cbn; split; intros [Hne Ha]; split; congruence.
Qed.

Lemma cell_shape_toUpperCase (s : string) :
  cell_shape (in_range "A" "Z") (JsString.ascii_toUpperCase s) <->
  cell_shape Sheet.is_letter s.
Proof.
  unfold cell_shape. split.
  - intros (l & d & E & Hl & Hd).
    apply toUpperCase_split in E as (s1 & s2 & -> & <- & <-).
    exists s1, s2. split; [reflexivity | ]. split.
    + apply (some_of_toUpperCase _ _ _ upper_char_letter), Hl.
    + apply (some_of_toUpperCase _ _ _ upper_char_digit), Hd.
  - intros (l & d & -> & Hl & Hd). rewrite toUpperCase_append.
    do 2 eexists. split; [reflexivity | ]. split.
    + apply (some_of_toUpperCase _ _ _ upper_char_letter), Hl.
    + apply (some_of_toUpperCase _ _ _ upper_char_digit), Hd.
Qed.

Lemma range_shape_toUpperCase (s : string) :
  range_shape (in_range "A" "Z") (JsString.ascii_toUpperCase s) <->
  range_shape Sheet.is_letter s.
Proof.
  unfold range_shape. split.
  - intros (first & rest & E & Hf & Hr).
    apply toUpperCase_split in E as (s1 & s2 & -> & <- & <-).
    exists s1, s2. split; [reflexivity | ]. split; [apply cell_shape_toUpperCase, Hf | ].
    destruct Hr as [Hr | [Hr | (second & Hr & Hs)]].
    + left. destruct s2; [reflexivity | discriminate].
    + right. left. destruct s2 as [| c [| c' s2]]; try discriminate.
      cbn in Hr. injection Hr as Hc. apply upper_char_colon in Hc. congruence.
    + right. right. destruct s2 as [| c s2]; [discriminate | ].
      cbn [JsString.ascii_toUpperCase] in Hr. injection Hr as Hc <-.
      apply upper_char_colon in Hc. subst c.
      exists s2. split; [reflexivity | apply cell_shape_toUpperCase, Hs].
  - intros (first & rest & -> & Hf & Hr). rewrite toUpperCase_append.
    do 2 eexists. split; [reflexivity | ]. split; [apply cell_shape_toUpperCase, Hf | ].
    destruct Hr as [-> | [-> | (second & -> & Hs)]]; [auto | auto | ].
    right. right. exists (JsString.ascii_toUpperCase second).
    split; [reflexivity | apply cell_shape_toUpperCase, Hs].
Qed.

Section Shape.

Variable toUpperCase : string -> string.

(** X14.  the addresses that [isValidRange] accepts.  An ASCII address is
    accepted exactly when it is one or more letters followed by one or more
    digits, optionally followed by a colon, optionally followed by letters
    and digits again.  Nothing else is looked at: there is no bound on the
    column or the row, and a sheet name or a "$" is refused. *)
Theorem isValidRange_shape :
  (forall s, JsString.is_ascii s = true -> toUpperCase s = JsString.ascii_toUpperCase s) ->
  forall s, JsString.is_ascii s = true ->
    (isValidRange toUpperCase s = Ok true <-> range_shape Sheet.is_letter s) /\
    (isValidRange toUpperCase s = Ok false <-> ~ range_shape Sheet.is_letter s).
Proof.
  intros Hup s Hs. unfold isValidRange. rewrite (Hup s Hs).
  rewrite <- range_shape_toUpperCase, <- Matches_rangePattern, <- test_Matches.
  destruct (test rangePattern (JsString.ascii_toUpperCase s)); split; split;
    intros E; try reflexivity; try discriminate; congruence.
Qed.

End Shape.

End AddressLaws.

(** ** The formula service: samples, types and suggestions *)
Section FormulaServiceLaws.
Import RegExp Address FormulaService.

Lemma existsb_eqb_In (x : string) (l : list string) :
  existsb (String.eqb x) l = true <-> In x l.
Proof.
  rewrite existsb_exists. split.
  - intros (y & Hy & ->%String.eqb_eq). exact Hy.
  - intros Hx. exists x. split; [exact Hx | apply String.eqb_refl].
Qed.

Lemma new_Set_spec (types acc : list string) :
  List.NoDup acc ->
  List.NoDup (fold_left add types acc) /\
  forall x, In x (fold_left add types acc) <-> In x acc \/ In x types.
Proof.
  revert acc. induction types as [| t types IH]; intros acc Hacc; cbn [fold_left].
  - split; [exact Hacc | ]. intros x. cbn. tauto.
  - assert (Hadd : List.NoDup (add acc t) /\ forall x, In x (add acc t) <-> In x acc \/ x = t).
    { unfold add. destruct (existsb (String.eqb t) acc) eqn:E.
      - split; [exact Hacc | ]. apply existsb_eqb_In in E.
        intros x. split; [auto | intros [Hx | ->]; assumption].
      - split.
        + apply List.NoDup_app; [exact Hacc | repeat constructor; intros [] | ].
          intros x Hx [<- | []]. apply existsb_eqb_In in Hx. congruence.
        + intros x. rewrite in_app_iff. cbn. intuition congruence. }
    destruct Hadd as [Hnd Hin]. destruct (IH _ Hnd) as [Hnd' Hin'].
    split; [exact Hnd' | ]. intros x. rewrite Hin', Hin. cbn. intuition congruence.
Qed.

Lemma label_of_labels (v : Value) :
  In (label_of v) ["number"; "date"; "currency"; "text"; "unknown"].
Proof.
  destruct v as [ | | | | s | | ]; cbn; auto 6.
  destruct (test_prefix datePattern s); [auto | ].
  destruct (test currencyPattern s); auto 6.
Qed.

(** X15.  the labels of [inferDataTypes].  The result has no label twice and
    holds only the labels number, date, currency, text and unknown, so at
    most five. *)
Theorem inferDataTypes_labels (values : Value) :
  List.NoDup (inferDataTypes values) /\
  incl (inferDataTypes values) ["number"; "date"; "currency"; "text"; "unknown"] /\
  (length (inferDataTypes values) <= 5)%nat.
Proof.
  assert (H : List.NoDup (inferDataTypes values) /\
              incl (inferDataTypes values) ["number"; "date"; "currency"; "text"; "unknown"]).
  { destruct values as [ | | | | | rows | ];
      try (split; [repeat constructor; intros [] | intros x [<- | []]; cbn; auto 6]).
    unfold inferDataTypes, new_Set.
    destruct (new_Set_spec
                (flat_map (fun row => match row with
                                      | VArr items => map label_of (firstn 5 items)
                                      | _ => []
                                      end) (firstn 5 rows)) [] (List.NoDup_nil _))
      as [Hnd Hin].
    split; [exact Hnd | ]. intros x Hx. apply Hin in Hx as [[] | Hx].
    apply in_flat_map in Hx as (row & _ & Hx).
    destruct row as [ | | | | | items | ]; try contradiction.
    apply in_map_iff in Hx as (v & <- & _). apply label_of_labels. }
  destruct H as [Hnd Hincl]. repeat split; try assumption.
  apply (List.NoDup_incl_length Hnd Hincl).
Qed.

Lemma firstn_In {A} (n : nat) (l : list A) (x : A) : In x (firstn n l) -> In x l.
Proof.
  revert l. induction n as [| n IH]; intros [| y l]; cbn; try tauto.
  intros [-> | Hx]; [auto | right; apply IH, Hx].
Qed.

Lemma firstn_firstn_same {A} (n : nat) (l : list A) : firstn n (firstn n l) = firstn n l.
Proof. rewrite firstn_firstn, Nat.min_id. reflexivity. Qed.

(** The types are those of the sample: [inferDataTypes] looks at the first
    five rows and the first five columns only. *)
Lemma inferDataTypes_sample_of (values : Value) :
  inferDataTypes (sample_of values) = inferDataTypes values.
Proof.
  destruct values as [ | | | | | rows | ]; try reflexivity.
  unfold sample_of, inferDataTypes. f_equal.
  rewrite <- firstn_map, firstn_firstn_same, firstn_map.
  rewrite flat_map_concat_map, map_map, <- flat_map_concat_map.
  apply flat_map_ext. intros row.
  destruct row as [ | | | | | items | ]; try reflexivity.
  rewrite firstn_firstn_same. reflexivity.
Qed.

(** X16.  the sample of [extractDataSample].  For a context whose [cell_data]
    is an object, the sample holds at most the first five rows and, of each
    row, the first five values; [data_types] is what [inferDataTypes] gives
    for that sample; [row_count] is the number of rows of the whole
    range. *)
Theorem extractDataSample_sample (context : ExcelContext) (fields : list (string * Value)) :
  cell_data context = VObj fields ->
  exists sample,
    extractDataSample context = Some sample /\
    data_types sample = inferDataTypes (values sample) /\
    forall rows, assoc "values" fields = VArr rows ->
      row_count (range_info sample) = length rows /\
      exists kept,
        values sample = VArr kept /\
        length kept = Nat.min 5 (length rows) /\
        Forall (fun row => forall items, row = VArr items -> (length items <= 5)%nat) kept.
Proof.
  intros Hc. unfold extractDataSample. rewrite Hc. cbn [truthy negb get_prop_opt].
  eexists. split; [reflexivity | ]. cbn [data_types values range_info row_count].
  split; [symmetry; apply inferDataTypes_sample_of | ].
  intros rows ->. split; [reflexivity | ].
  eexists. split; [reflexivity | ]. split.
  - rewrite length_map, length_firstn. reflexivity.
  - apply Forall_map, Forall_forall. intros row _. cbn.
    destruct row as [ | | | | | items' | ]; try discriminate.
    intros items [= <-]. rewrite length_firstn. lia.
Qed.

Lemma append_nil_r (s : string) : String.append s EmptyString = s.
Proof.
  induction s as [| c s IH]; [reflexivity | ]. rewrite append_String, IH. reflexivity.
Qed.

(** [test_prefix] finds a prefix in the language. *)
Lemma test_prefix_Matches (r : Regex) (s : string) :
  test_prefix r s = true ->
  exists p q, s = String.append p q /\ Matches r p.
Proof.
  revert r. induction s as [| c s IH]; intros r; cbn [test_prefix].
  - destruct (nullable r) eqn:N; [ | discriminate].
    intros _. exists EmptyString, EmptyString. split; [reflexivity | ].
    apply nullable_Matches, N.
  - destruct (nullable r) eqn:N.
    + intros _. exists EmptyString, (String c s). split; [reflexivity | ].
      apply nullable_Matches, N.
    + intros T. destruct (IH _ T) as (p & q & -> & M).
      exists (String c p), q. split; [reflexivity | ]. apply deriv_sound, M.
Qed.

Lemma datePattern_has_dash (p : string) :
  Matches datePattern p -> JsString.includes "-" p = true.
Proof.
  unfold datePattern. intros M.
  apply Matches_Seq in M as (u1 & w1 & -> & _ & M).
  apply Matches_Seq in M as (u2 & w2 & -> & _ & M).
  apply Matches_Seq in M as (u3 & w3 & -> & _ & M).
  apply Matches_Seq in M as (u4 & w4 & -> & _ & M).
  apply Matches_Seq in M as (u5 & w5 & -> & ->%Matches_Lit & _).
  rewrite !includes_append. cbn [JsString.includes]. rewrite Ascii.eqb_refl.
  cbn [orb]. rewrite !orb_true_r. reflexivity.
Qed.

Lemma digits_have_no_dash (s : string) :
  all_chars JsString.is_digit s = true -> JsString.includes "-" s = false.
Proof.
  induction s as [| c s IH]; [reflexivity | ]. cbn [all_chars JsString.includes].
  intros [Hc Hs]%andb_true_iff. rewrite (IH Hs), orb_false_r.
  destruct c as [[] [] [] [] [] [] [] []]; try reflexivity; discriminate Hc.
Qed.

Lemma digits_are_currency (s : string) :
  some_of JsString.is_digit s -> label_of (VStr s) = "currency".
Proof.
  intros Hs. cbn [label_of].
  destruct (test_prefix datePattern s) eqn:D.
  - apply test_prefix_Matches in D as (p & q & -> & M).
    apply datePattern_has_dash in M. destruct Hs as [_ Hs].
    apply digits_have_no_dash in Hs. rewrite includes_append, M in Hs. discriminate.
  - assert (M : Matches currencyPattern s).
    { unfold currencyPattern. apply Matches_Seq. exists EmptyString, s.
      split; [reflexivity | ]. split; [apply Matches_Opt; auto | ].
      apply Matches_Seq. exists s, EmptyString.
      split; [symmetry; apply append_nil_r | ].
      split; [apply Matches_Plus_Range; exact Hs | ].
      apply Matches_Seq. exists EmptyString, EmptyString.
      split; [reflexivity | ]. split; [apply Matches_Opt; auto | constructor]. }
    apply test_Matches in M. rewrite M. reflexivity.
Qed.

(** The suggestions that are tried. *)
Lemma tried_suggestions (types : list string) :
  (includes "number" types = true ->
   firstn 3 (suggestions_for types) =
     ["Calculate sum of selected numbers";
      "Calculate average of selected numbers";
      "Find maximum value in selection"]) /\
  (includes "number" types = false -> includes "text" types = false ->
   includes "date" types = false -> suggestions_for types = []) /\
  ~ In "Find minimum value in selection" (firstn 3 (suggestions_for types)).
Proof.
  unfold suggestions_for.
  destruct (includes "number" types), (includes "text" types), (includes "date" types);
    cbn [app firstn]; repeat split; try reflexivity; try discriminate;
    cbn [In]; intros F;
    repeat match goal with F : _ \/ _ |- _ => destruct F as [F | F] end;
    first [discriminate F | contradiction].
Qed.

Section SuggestLaws.

Context {World : Type}.
Variable getCurrentContext : Value -> Act World ExcelContext.
Variable generateFormula : string -> Value -> Act World Value.
Variable console_warn : string -> Error -> Act World unit.
Variable console_error : string -> Error -> Act World unit.
Variable message : Error -> string.

Let suggest := suggestFormulas getCurrentContext generateFormula console_warn console_error message.
Let tried := generate generateFormula console_warn.

(** X17.  the suggestions that [suggestFormulas] generates.  For a range with
    a number among its first five rows and columns, formulas are generated
    for the sum, the average and the maximum, and for nothing else: the
    minimum and the text and date suggestions are never reached.  For a
    range with no number, text or date (such as one of numeric text only)
    the result is the empty list. *)
Theorem suggestFormulas_generates
    (targetRange : Value) (w w1 : World) (context : ExcelContext)
    (fields : list (string * Value)) (rows : list Value) :
  getCurrentContext targetRange w = (Ok context, w1) ->
  cell_data context = VObj fields ->
  assoc "values" fields = VArr rows ->
  let types := inferDataTypes (VArr rows) in
  (includes "number" types = true ->
   forall results w2,
     tried targetRange
       ["Calculate sum of selected numbers";
        "Calculate average of selected numbers";
        "Find maximum value in selection"] [] w1 = (Ok results, w2) ->
     suggest targetRange w = (Ok results, w2)) /\
  (includes "number" types = false -> includes "text" types = false ->
   includes "date" types = false ->
   suggest targetRange w = (Ok [], w1)) /\
  (Forall (fun row => exists items, row = VArr items /\
             Forall (fun v => exists s, v = VStr s /\ some_of JsString.is_digit s) items) rows ->
   suggest targetRange w = (Ok [], w1)).
Proof.
  intros Hctx Hc Hv types.
  assert (E : suggest targetRange w =
              try_catch (tried targetRange (firstn 3 (suggestions_for types)) [])
                (fun error =>
                   console_error "Error getting formula suggestions:" error ;;
                   ret [failure (String.append "Error generating suggestions: " (message error))])
                w1).
  { subst suggest tried. unfold suggestFormulas, try_catch, bind. rewrite Hctx.
    unfold extractDataSample. rewrite Hc. cbn [truthy negb get_prop_opt]. rewrite Hv.
    cbn [values sample_of truthy negb data_types]. reflexivity. }
  destruct (tried_suggestions types) as (Hnum & Hnone & _).
  assert (Hempty : includes "number" types = false -> includes "text" types = false ->
                   includes "date" types = false -> suggest targetRange w = (Ok [], w1)).
  { intros H1 H2 H3. rewrite E, (Hnone H1 H2 H3). reflexivity. }
  split; [ | split; [exact Hempty | ]].
  - intros Hn results w2 G. rewrite E, (Hnum Hn). unfold try_catch. rewrite G. reflexivity.
  - intros Hrows.
    assert (Hall : forall t, In t types -> t = "currency").
    { intros t Ht. subst types. unfold inferDataTypes, new_Set in Ht.
      apply (new_Set_spec _ [] (List.NoDup_nil _)) in Ht as [[] | Ht].
      apply in_flat_map in Ht as (row & Hrow & Ht).
      rewrite Forall_forall in Hrows.
      apply firstn_In, list_elem_of_In, Hrows in Hrow as (items & -> & Hitems).
      apply in_map_iff in Ht as (v & <- & Hv').
      rewrite Forall_forall in Hitems.
      apply firstn_In, list_elem_of_In, Hitems in Hv' as (s & -> & Hs).
      apply digits_are_currency, Hs. }
    assert (Hnot : forall t, t <> "currency" -> includes t types = false).
    { intros t Hne. apply not_true_is_false. intros Ht.
      apply existsb_eqb_In in Ht. apply Hall in Ht. congruence. }
    apply Hempty; apply Hnot; discriminate.
Qed.

End SuggestLaws.

End FormulaServiceLaws.

(** ** The laws above, on concrete documents *)
Section Examples.
Import Scenario Session.

(** Two batches, two undos: the workbook is new again. *)
Lemma undo_is_last_in_first_out_witness :
  let batches := [[cell_edit "A1" (VNum 1)]; [cell_edit "B1" (VNum 2); cell_edit "A1" (VNum 3)]] in
  exists s',
    (execute_all H batches ;; undo_times 2)%act (start Sheet.new_workbook) = (Ok tt, s') /\
    document s' = Sheet.new_workbook /\
    undoStack s' = [].
Proof.
  intros batches.
  destruct (undo_is_last_in_first_out H batches (start Sheet.new_workbook))
    as (s' & E & Hd & Hs).
  - vm_compute. repeat split; discriminate.
  - vm_compute. lia.
  - vm_compute. lia.
  - exists s'. split; [exact E | ]. split; [exact Hd | ]. rewrite Hs. reflexivity.
Defined.

(** After a batch and an [undo] there is nothing to redo. *)
Lemma redo_stack_stays_empty_witness :
  redoStack (snd (undo (snd (executeOperations H [cell_edit "A1" (VNum 5)]
                               (start Sheet.new_workbook))))) = [].
Proof.
  apply (redo_stack_stays_empty H).
  apply reach_undo, reach_executeOperations, (reach_new H Sheet.new_workbook []).
Defined.

(** After a batch the history holds one entry, which is no more than 50. *)
Lemma undo_history_bounded_witness :
  (length (undoStack (snd (executeOperations H [cell_edit "A1" (VNum 5)]
                             (start Sheet.new_workbook)))) <= maxUndoSteps)%nat.
Proof.
  apply (undo_history_bounded H).
  apply reach_executeOperations, (reach_new H Sheet.new_workbook []).
Defined.

(** Three pushes on a full history: the three oldest entries are gone. *)
Lemma history_keeps_most_recent_witness :
  let a : Inverse := throw Sheet.ItemNotFound in
  let b : Inverse := throw Sheet.InvalidArgument in
  undoStack (push_all [a; b; a] full_history) = repeat (ret tt) 47 ++ [a; b; a].
Proof.
  intros a b.
  rewrite (history_keeps_most_recent [a; b; a] full_history); [reflexivity | ].
  vm_compute. lia.
Defined.

(** Three steps, the second of which cannot be undone: [undo] reverts the
    third, fails on the second and leaves the first in place; the history
    is empty. *)
Lemma undo_stops_at_first_failure_witness :
  let batch := [cell_edit "A1" (VNum 5); sheet_create; cell_edit "B1" (VNum 6)] in
  exists s2 s3,
    executeOperations H batch (start Sheet.new_workbook) = (Ok tt, s2) /\
    fst (load_values H "A1:B1" (document s2)) = Ok (VArr [VArr [VNum 5; VNum 6]]) /\
    undo s2 = (Throw Sheet.ItemNotFound, s3) /\
    fst (load_values H "A1:B1" (document s3)) = Ok (VArr [VArr [VNum 5; VStr ""]]) /\
    undoStack s3 = [].
Proof.
  intros batch.
  set (ran := run_operations H batch [] (start Sheet.new_workbook)).
  set (undoOperations := snd (fst ran)).
  set (d1 := snd (composite (firstn 1 undoOperations) (document (snd ran)))).
  destruct (undo_stops_at_first_failure H batch (start Sheet.new_workbook)
              undoOperations (snd ran)
              (firstn 1 undoOperations) (nth 1 undoOperations (ret tt)) (skipn 2 undoOperations)
              Sheet.ItemNotFound d1 (snd (nth 1 undoOperations (ret tt) d1)))
    as (s2 & s3 & E & Eu & Hd & Hs & _).
  - vm_compute. reflexivity.
  - vm_compute. reflexivity.
  - vm_compute. reflexivity.
  - vm_compute. reflexivity.
  - exists s2, s3. split; [exact E | ].
    assert (Es : s2 = snd (executeOperations H batch (start Sheet.new_workbook)))
      by (rewrite E; reflexivity).
    split; [rewrite Es; vm_compute; reflexivity | ].
    split; [exact Eu | ]. split; [rewrite Hd; vm_compute; reflexivity | ].
    rewrite Hs. reflexivity.
Defined.

(** One unknown kind among three descriptors: one warning. *)
Lemma successful_batch_console_witness :
  exists s',
    executeOperations H [cell_edit "A1" (VNum 5); unknown; cell_edit "B1" (VNum 6)]
      (start Sheet.new_workbook) = (Ok tt, s') /\
    console s' = [ConsoleWarn "Unknown operation type: merge_cells"].
Proof.
  destruct (executeOperations H [cell_edit "A1" (VNum 5); unknown; cell_edit "B1" (VNum 6)]
              (start Sheet.new_workbook)) as [[[] | e] s'] eqn:E;
    [ | succeeds E].
  exists s'. split; [reflexivity | ].
  rewrite (successful_batch_console H _ _ _ E). reflexivity.
Defined.

(** A batch of two edits, and the two edits as batches of their own. *)
Lemma batch_can_be_split_witness :
  exists s1 s2,
    executeOperations H [cell_edit "A1" (VNum 5)] (start Sheet.new_workbook) = (Ok tt, s1) /\
    executeOperations H [cell_edit "B1" (VNum 6)] s1 = (Ok tt, s2) /\
    document s2 =
      document (snd (executeOperations H [cell_edit "A1" (VNum 5); cell_edit "B1" (VNum 6)]
                       (start Sheet.new_workbook))) /\
    length (undoStack s2) = 2%nat.
Proof.
  destruct (executeOperations H [cell_edit "A1" (VNum 5); cell_edit "B1" (VNum 6)]
              (start Sheet.new_workbook)) as [[[] | e] s'] eqn:E;
    [ | succeeds E].
  destruct (batch_can_be_split H [cell_edit "A1" (VNum 5)] [cell_edit "B1" (VNum 6)]
              (start Sheet.new_workbook)) as [Hsplit _].
  destruct (Hsplit s' E) as (s1 & s2 & E1 & E2 & Hd & _).
  exists s1, s2. repeat split; try assumption.
  assert (Es1 : s1 = snd (executeOperations H [cell_edit "A1" (VNum 5)]
                            (start Sheet.new_workbook))) by (rewrite E1; reflexivity).
  assert (Es2 : s2 = snd (executeOperations H [cell_edit "B1" (VNum 6)] s1))
    by (rewrite E2; reflexivity).
  rewrite Es2, Es1. vm_compute. reflexivity.
Defined.

(** A chart descriptor without options fails before anything is done. *)
Lemma options_are_required_witness :
  exists msg,
    executeOperation H Example.bare_chart (start Sheet.new_workbook)
    = (Throw (TypeError msg), start Sheet.new_workbook).
Proof.
  destruct (options_are_required H Example.bare_chart (start Sheet.new_workbook)
              (or_introl eq_refl)) as (Hfour & _).
  apply Hfour. left. reflexivity.
Defined.

End Examples.

Section SheetExamples.
Import Scenario.

Lemma literal_engine_idempotent (v : Value) :
  Sheet.literal_engine (Sheet.literal_engine v) = Sheet.literal_engine v.
Proof.
  destruct v as [ | | | | s | | ]; try reflexivity.
  destruct s as [| c s]; [reflexivity | ]. cbn [Sheet.literal_engine].
  destruct c as [[] [] [] [] [] [] [] []]; try reflexivity.
  destruct (_ && _); reflexivity.
Qed.

Let sheet1 (cs : list (nat * nat * Value)) : Sheet.Worksheet :=
  Sheet.with_cells (Sheet.blank_sheet 0 "Sheet1") (list_to_map cs).

(** A1 holds [=5]; a formula is set and unset: A1 holds [=5] again. *)
Lemma setFormula_inverse_is_exact_witness :
  exists inverse wb1 wb2,
    setFormula H "A1" (VStr "=7") VUndefined formula_in_A1 = (Ok inverse, wb1) /\
    fst (load_values H "A1" wb1) = Ok (VArr [VArr [VNum 7]]) /\
    inverse wb1 = (Ok tt, wb2) /\
    fst (load_formulas H "A1" wb2) = Ok (VArr [VArr [VStr "=5"]]).
Proof.
  destruct (setFormula H "A1" (VStr "=7") VUndefined formula_in_A1)
    as [[inverse | e] wb1] eqn:E; [ | succeeds E].
  destruct (setFormula_inverse_is_exact Sheet.literal_engine "A1" (VStr "=7") VUndefined
              formula_in_A1 wb1 (sheet1 [((1, 1), VStr "=5")]) inverse)
    as (wb2 & Ei & Hsame).
  - vm_compute. reflexivity.
  - vm_compute. reflexivity.
  - exact E.
  - exists inverse, wb1, wb2. split; [reflexivity | ].
    assert (Ew : wb1 = snd (setFormula H "A1" (VStr "=7") VUndefined formula_in_A1))
      by (rewrite E; reflexivity).
    split; [rewrite Ew; vm_compute; reflexivity | ].
    split; [exact Ei | ].
    destruct (Hsame "A1") as [Hf _]. fold H in Hf. rewrite Hf. vm_compute. reflexivity.
Defined.

(** A1 holds [=5]; 7 is written and the write is undone: A1 holds the
    constant 5, and its value is 5 as before. *)
Lemma setCellValue_inverse_restores_values_witness :
  exists inverse wb1 wb2,
    setCellValue H "A1" (VNum 7) VUndefined formula_in_A1 = (Ok inverse, wb1) /\
    inverse wb1 = (Ok tt, wb2) /\
    fst (load_formulas H "A1" wb2) = Ok (VArr [VArr [VNum 5]]) /\
    fst (load_values H "A1:B2" wb2) = fst (load_values H "A1:B2" formula_in_A1).
Proof.
  destruct (setCellValue H "A1" (VNum 7) VUndefined formula_in_A1)
    as [[inverse | e] wb1] eqn:E; [ | succeeds E].
  destruct (setCellValue_inverse_restores_values Sheet.literal_engine "A1" (VNum 7) VUndefined
              formula_in_A1 wb1 (sheet1 [((1, 1), VStr "=5")]) inverse literal_engine_storable)
    as (wb2 & Ei & Hf & Hv).
  - vm_compute. reflexivity.
  - vm_compute. reflexivity.
  - exact E.
  - exists inverse, wb1, wb2. split; [reflexivity | ]. split; [exact Ei | ].
    fold H in Hf, Hv. split.
    + rewrite Hf. vm_compute. reflexivity.
    + apply Hv. exact literal_engine_idempotent.
Defined.

(** A two-by-two grid is written to A1:B2 and read back. *)
Lemma getRangeData_after_setCellValue_witness :
  let grid := VArr [VArr [VNum 1; VStr "=2"]; VArr [VStr "x"; VBool true]] in
  exists s1,
    executeOperations H [cell_edit "A1:B2" grid] (start Sheet.new_workbook) = (Ok tt, s1) /\
    Queries.getRangeData H "A1:B2" s1
    = (Ok (VArr [VArr [VNum 1; VNum 2]; VArr [VStr "x"; VBool true]]), s1).
Proof.
  intros grid.
  destruct (executeOperations H [cell_edit "A1:B2" grid] (start Sheet.new_workbook))
    as [[[] | e] s1] eqn:E; [ | succeeds E].
  exists s1. split; [reflexivity | ].
  destruct (setCellValue H "A1:B2" grid VUndefined Sheet.new_workbook)
    as [[inverse | e] wb1] eqn:E1; [ | vm_compute in E1; discriminate E1].
  destruct (getRangeData_after_setCellValue Sheet.literal_engine "A1:B2" grid VUndefined
              Sheet.new_workbook wb1 (Sheet.blank_sheet 0 "Sheet1") inverse eq_refl E1)
    as (g & Hg & Hread).
  assert (Eg : g = [[VNum 1; VStr "=2"]; [VStr "x"; VBool true]]).
  { cbn [isArray grid] in Hg. unfold Sheet.of_grid in Hg. injection Hg as Hg.
    destruct g as [| r1 [| r2 [| r3 g]]]; try discriminate Hg.
    injection Hg as <- <-. reflexivity. }
  fold H in Hread. rewrite (Hread s1).
  - rewrite Eg. reflexivity.
  - assert (Es : s1 = snd (executeOperations H [cell_edit "A1:B2" grid]
                             (start Sheet.new_workbook))) by (rewrite E; reflexivity).
    assert (Ew : wb1 = snd (setCellValue H "A1:B2" grid VUndefined Sheet.new_workbook))
      by (rewrite E1; reflexivity).
    rewrite Es, Ew. vm_compute. reflexivity.
Defined.

(** A worksheet is created without a name: the workbook has two worksheets
    and the inverse fails. *)
Lemma unnamed_sheet_is_never_removed_witness :
  exists inverse wb1,
    createSheet H VUndefined VUndefined Sheet.new_workbook = (Ok inverse, wb1) /\
    map Sheet.name (Sheet.worksheets wb1) = ["Sheet1"; "Sheet2"] /\
    inverse wb1 = (Throw Sheet.ItemNotFound, wb1).
Proof.
  destruct (unnamed_sheet_is_never_removed Sheet.literal_engine VUndefined VUndefined
              Sheet.new_workbook (or_introl eq_refl)) as (inverse & wb1 & E & _ & Hfail).
  exists inverse, wb1. fold H in E. split; [exact E | ]. split; [ | apply Hfail].
  assert (Ew : wb1 = snd (createSheet H VUndefined VUndefined Sheet.new_workbook))
    by (rewrite E; reflexivity).
  rewrite Ew. vm_compute. reflexivity.
Defined.

(** A1:A3 has a data bar; a cell-value format is added on A2:B2 and undone:
    the data bar is gone too. *)
Lemma conditional_format_inverse_clears_the_range_witness :
  let options := VObj [("type", VStr "cellValue"); ("fillColor", VStr "yellow")] in
  exists inverse wb1 wb2 ws2,
    addConditionalFormatting H "A2:B2" options Example.one_rule = (Ok inverse, wb1) /\
    inverse wb1 = (Ok tt, wb2) /\
    Sheet.getActiveWorksheet wb2 = Some ws2 /\
    Sheet.conditionalFormats ws2 = [].
Proof.
  intros options.
  destruct (addConditionalFormatting H "A2:B2" options Example.one_rule)
    as [[inverse | e] wb1] eqn:E; [ | succeeds E].
  destruct (conditional_format_inverse_clears_the_range Sheet.literal_engine "A2:B2" options
              Example.one_rule wb1
              (Sheet.with_conditionalFormats (Sheet.blank_sheet 0 "Sheet1")
                 [{| Sheet.cf_id := 1; Sheet.cf_range := Sheet.span 1 1 3 1;
                     Sheet.cf_type := "DataBar"; Sheet.cf_fillColor := VUndefined;
                     Sheet.cf_rule := VUndefined |}])
              inverse eq_refl E) as (a & wb2 & ws2 & Hp & Ei & Ha & Hpl).
  exists inverse, wb1, wb2, ws2. split; [reflexivity | ]. split; [exact Ei | ].
  split; [exact Ha | ].
  assert (Ea : a = Sheet.span 2 1 2 2)
    by (vm_compute in Hp; injection Hp as <-; reflexivity).
  subst a. unfold Observe.placed in Hpl. cbn in Hpl.
  destruct (Sheet.conditionalFormats ws2); [reflexivity | discriminate Hpl].
Defined.

End SheetExamples.

Section FormulaExamples.
Import FormulaService.

(** With the upper-casing of the ASCII letters: "a1:B2" has the shape, the
    absolute reference "$A$1" and the sheet-qualified "Sheet1!A1" have not. *)
Lemma isValidRange_shape_witness :
  Address.range_shape Sheet.is_letter "a1:B2" /\
  ~ Address.range_shape Sheet.is_letter "$A$1" /\
  ~ Address.range_shape Sheet.is_letter "Sheet1!A1".
Proof.
  pose proof (isValidRange_shape JsString.ascii_toUpperCase (fun s _ => eq_refl)) as Shape.
  split; [ | split].
  - apply (Shape "a1:B2" eq_refl). reflexivity.
  - apply (Shape "$A$1" eq_refl). reflexivity.
  - apply (Shape "Sheet1!A1" eq_refl). reflexivity.
Defined.

(** Six rows of six numbers: the sample is five by five, the count is 6. *)
Lemma extractDataSample_sample_witness :
  exists sample,
    extractDataSample (Example.context_of Example.six_by_six) = Some sample /\
    values sample = VArr (repeat (VArr [VNum 1; VNum 2; VNum 3; VNum 4; VNum 5]) 5) /\
    data_types sample = ["number"] /\
    row_count (range_info sample) = 6%nat.
Proof.
  destruct (extractDataSample_sample (Example.context_of Example.six_by_six) _ eq_refl)
    as (sample & E & Ht & Hrows).
  destruct (Hrows _ eq_refl) as (Hcount & _).
  assert (Es : Some sample = extractDataSample (Example.context_of Example.six_by_six))
    by (rewrite E; reflexivity).
  vm_compute in Es. injection Es as ->.
  eexists. split; [reflexivity | ]. repeat split.
Defined.

(** Numbers: the sum, the average and the maximum are generated.  Numeric
    text: nothing is. *)
Lemma suggestFormulas_generates_witness :
  (exists results,
     Example.suggest Example.six_by_six [] =
       (Ok results,
        ["Calculate sum of selected numbers";
         "Calculate average of selected numbers";
         "Find maximum value in selection"]) /\
     length results = 3%nat) /\
  Example.suggest (VArr [VArr [VStr "2024"; VStr "10115"]]) [] = (Ok [], []).
Proof.
  split.
  - destruct (suggestFormulas_generates
                (fun _ => ret (Example.context_of Example.six_by_six)) Example.answering
                (fun _ _ => ret tt) (fun _ _ => ret tt) (fun _ => "")
                (VStr "A1:F6") [] [] _ _ _ eq_refl eq_refl eq_refl) as (Hnum & _).
    eexists. split; [apply Hnum; vm_compute; reflexivity | reflexivity].
  - destruct (suggestFormulas_generates
                (fun _ => ret (Example.context_of (VArr [VArr [VStr "2024"; VStr "10115"]])))
                Example.answering
                (fun _ _ => ret tt) (fun _ _ => ret tt) (fun _ => "")
                (VStr "A1:F6") [] [] _ _ _ eq_refl eq_refl eq_refl) as (_ & _ & Htext).
    apply Htext. repeat constructor.
    eexists. split; [reflexivity | ].
    repeat constructor; eexists; (split; [reflexivity | split; [discriminate | reflexivity]]).
Defined.

End FormulaExamples.

Section MoreSheetExamples.
Import Scenario.

(** A row is inserted above row 3 and removed again. *)
Lemma insert_inverse_is_exact_witness :
  exists inverse wb1 wb2,
    insertRows H "A3:C3" (VNum 1) row3 = (Ok inverse, wb1) /\
    fst (load_values H "A3:C4" wb1)
    = Ok (VArr [VArr [VStr ""; VStr ""; VStr ""]; VArr [VNum 1; VNum 2; VNum 3]]) /\
    inverse wb1 = (Ok tt, wb2) /\
    Sheet.getActiveWorksheet wb2 = Sheet.getActiveWorksheet row3.
Proof.
  destruct (insertRows H "A3:C3" (VNum 1) row3) as [[inverse | e] wb1] eqn:E;
    [ | succeeds E].
  destruct (insert_inverse_is_exact Sheet.literal_engine true "A3:C3" (VNum 1) row3 wb1
              (Sheet.with_cells (Sheet.blank_sheet 0 "Sheet1")
                 (list_to_map [((3, 1), VNum 1); ((3, 2), VNum 2); ((3, 3), VNum 3)]))
              inverse) as (wb2 & Ei & Ha).
  - vm_compute. reflexivity.
  - exact E.
  - exists inverse, wb1, wb2. split; [reflexivity | ].
    assert (Ew : wb1 = snd (insertRows H "A3:C3" (VNum 1) row3)) by (rewrite E; reflexivity).
    split; [rewrite Ew; vm_compute; reflexivity | ]. split; [exact Ei | ].
    rewrite Ha. vm_compute. reflexivity.
Defined.

(** A1 is made bold with two decimals; the inverse leaves it bold with
    two decimals. *)
Lemma formatRange_inverse_restores_nothing_witness :
  let options := VObj [("font", VObj [("bold", VBool true)]); ("numberFormat", VStr "0.00")] in
  exists inverse wb1 ws1,
    formatRange H "A1" options Sheet.new_workbook = (Ok inverse, wb1) /\
    inverse wb1 = (Ok tt, wb1) /\
    Sheet.getActiveWorksheet wb1 = Some ws1 /\
    assoc "bold" (Sheet.font (Sheet.format_at (Sheet.formats ws1) (1, 1))) = VBool true /\
    Sheet.numberFormat (Sheet.format_at (Sheet.formats ws1) (1, 1)) = VStr "0.00".
Proof.
  intros options.
  destruct (formatRange H "A1" options Sheet.new_workbook) as [[inverse | e] wb1] eqn:E;
    [ | succeeds E].
  destruct (formatRange_inverse_restores_nothing Sheet.literal_engine "A1" options
              Sheet.new_workbook wb1 (Sheet.blank_sheet 0 "Sheet1") inverse eq_refl E)
    as (Hi & a & ws1 & Hp & Ha & Hf).
  exists inverse, wb1, ws1. split; [reflexivity | ]. split; [apply Hi | ].
  split; [exact Ha | ].
  vm_compute in Hp. injection Hp as <-.
  rewrite (Hf (1, 1)). split; vm_compute; reflexivity.
Defined.

(** A worksheet "Data" is created and removed again. *)
Lemma named_sheet_is_removed_witness :
  exists inverse wb1 wb2,
    createSheet H (VStr "Data") VUndefined Sheet.new_workbook = (Ok inverse, wb1) /\
    map Sheet.name (Sheet.worksheets wb1) = ["Sheet1"; "Data"] /\
    inverse wb1 = (Ok tt, wb2) /\
    Sheet.worksheets wb2 = Sheet.worksheets Sheet.new_workbook.
Proof.
  destruct (createSheet H (VStr "Data") VUndefined Sheet.new_workbook)
    as [[inverse | e] wb1] eqn:E; [ | succeeds E].
  destruct (named_sheet_is_removed Sheet.literal_engine "Data" VUndefined Sheet.new_workbook
              wb1 (Sheet.blank_sheet 0 "Sheet1") inverse eq_refl eq_refl E)
    as (wb2 & Ei & Hw & _).
  exists inverse, wb1, wb2. split; [reflexivity | ].
  assert (Ew : wb1 = snd (createSheet H (VStr "Data") VUndefined Sheet.new_workbook))
    by (rewrite E; reflexivity).
  split; [rewrite Ew; vm_compute; reflexivity | ]. split; assumption.
Defined.

(** A1 is set to 5, then a filter is asked for: the batch fails with the
    [TypeError] of the filter, A1 is blank again and the history is empty. *)
Lemma filter_descriptor_fails_the_batch_witness :
  let batch := [cell_edit "A1" (VNum 5); Example.filter_first_column] in
  exists s',
    executeOperations H batch (start Sheet.new_workbook)
    = (Throw (TypeError "Cannot read properties of undefined (reading 'apply')"), s') /\
    document s' = Sheet.new_workbook /\
    undoStack s' = [].
Proof.
  intros batch.
  destruct (filter_descriptor_fails_the_batch Sheet.literal_engine batch
              Example.filter_first_column (start Sheet.new_workbook))
    as (_ & error & undoOperations & s1 & R & E).
  - right. left. reflexivity.
  - reflexivity.
  - fold H in R, E.
    assert (He : fst (fst (run_operations H batch [] (start Sheet.new_workbook)))
                 = Throw (TypeError "Cannot read properties of undefined (reading 'apply')"))
      by (vm_compute; reflexivity).
    rewrite R in He. cbn [fst] in He. injection He as ->.
    eexists. split; [exact E | ]. split; [ | reflexivity].
    assert (Hd : document (snd (executeOperations H batch (start Sheet.new_workbook)))
                 = Sheet.new_workbook) by (vm_compute; reflexivity).
    rewrite E in Hd. exact Hd.
Defined.

(** Column A holds 3, [=1], 2; it is sorted and the sort is undone: the
    order is back, and A2 holds the constant 1. *)
Lemma sortRange_inverse_restores_values_witness :
  exists inverse wb1 wb2,
    sortRange H "A1:A3" (VObj []) Example.column_A = (Ok inverse, wb1) /\
    fst (load_values H "A1:A3" wb1) = Ok (VArr [VArr [VNum 1]; VArr [VNum 2]; VArr [VNum 3]]) /\
    inverse wb1 = (Ok tt, wb2) /\
    fst (load_formulas H "A1:A3" wb2) = Ok (VArr [VArr [VNum 3]; VArr [VNum 1]; VArr [VNum 2]]).
Proof.
  destruct (sortRange H "A1:A3" (VObj []) Example.column_A) as [[inverse | e] wb1] eqn:E;
    [ | succeeds E].
  destruct (sortRange_inverse_restores_values Sheet.literal_engine "A1:A3" (VObj [])
              Example.column_A wb1
              (Sheet.with_cells (Sheet.blank_sheet 0 "Sheet1")
                 (list_to_map [((1, 1), VNum 3); ((2, 1), VStr "=1"); ((3, 1), VNum 2)]))
              inverse literal_engine_storable)
    as (wb2 & Ei & Hf & _).
  - vm_compute. reflexivity.
  - vm_compute. reflexivity.
  - exact E.
  - exists inverse, wb1, wb2. split; [reflexivity | ].
    assert (Ew : wb1 = snd (sortRange H "A1:A3" (VObj []) Example.column_A))
      by (rewrite E; reflexivity).
    split; [rewrite Ew; vm_compute; reflexivity | ]. split; [exact Ei | ].
    fold H in Hf. rewrite Hf. vm_compute. reflexivity.
Defined.

(** "Sheet1" is renamed and the renaming is undone. *)
Lemma renameSheet_inverse_is_exact_witness :
  exists inverse wb1,
    renameSheet H "Sheet1" (VStr "Data") Sheet.new_workbook = (Ok inverse, wb1) /\
    map Sheet.name (Sheet.worksheets wb1) = ["Data"] /\
    inverse wb1 = (Ok tt, Sheet.new_workbook).
Proof.
  destruct (renameSheet H "Sheet1" (VStr "Data") Sheet.new_workbook)
    as [[inverse | e] wb1] eqn:E; [ | succeeds E].
  exists inverse, wb1. split; [reflexivity | ].
  assert (Ew : wb1 = snd (renameSheet H "Sheet1" (VStr "Data") Sheet.new_workbook))
    by (rewrite E; reflexivity).
  split; [rewrite Ew; vm_compute; reflexivity | ].
  apply (renameSheet_inverse_is_exact Sheet.literal_engine "Sheet1" (VStr "Data")
           Sheet.new_workbook wb1 inverse).
  - repeat constructor. intros [].
  - repeat constructor. intros [].
  - discriminate.
  - exact E.
Defined.

End MoreSheetExamples.

(** ** The round trip of a batch on the workbook *)
Section RoundTripLaws.
Import Sheet Observe Laws.

(** *** Workbooks that are alike *)




Lemma alike_sheet_trans (ws1 ws2 ws3 : Worksheet) :
  alike_sheet ws1 ws2 -> alike_sheet ws2 ws3 -> alike_sheet ws1 ws3.
Proof.
  intros (I1 & N1 & C1 & H1 & P1) (I2 & N2 & C2 & H2 & P2).
  split; [congruence | ]. split; [congruence | ].
  split; [intros p; rewrite C2; apply C1 | split; congruence].
Qed.



(** *** Requests that leave the worksheets in place *)




























(** *** Requests that leave the cells of the active worksheet *)
























(** *** Steps on the active worksheet *)










Section Steps.

Variable evaluate : Value -> Value.

Hypothesis evaluate_storable : forall v, storable v = true -> storable (evaluate v) = true.

Let H : Host Workbook := Sheet.host evaluate.

























(** *** Steps on the worksheets *)







(** The keys of a workbook after one worksheet got another name. *)
Section Renamed.

Variables (i : nat) (c n : string) (l : list (nat * string)).

Hypothesis ids : List.NoDup (map fst l).
Hypothesis names : List.NoDup (map snd l).
Hypothesis present : In (i, c) l.







End Renamed.







(** *** The steps of a batch *)





End Steps.

(** *** Workbooks as Excel keeps them *)




Section RoundTrip.

Variable evaluate : Value -> Value.

Let H : Host Workbook := Sheet.host evaluate.


End RoundTrip.

End RoundTripLaws.

(** ** The round trip of a batch, on a workbook *)
Section RoundTripScenario.
Import Sheet Observe Laws Scenario.


End RoundTripScenario.
